(** * mcp-fal: the image-generation request pipeline

    A shallow embedding of the fal.ai provider ([providers/fal-image.ts],
    in its revision with reference-image uploads), the retry and timeout
    helpers ([retry.ts]), the shared constants and the error categoriser
    ([types.ts]), together with the properties the specification states
    about them.

    Conventions of the model.
    - A JavaScript string is a [string]: a sequence of code units below
      256.  [startsWith] and [includes] compare code units.  [toLowerCase]
      maps the capital letters below 256 as JavaScript does: A-Z, and the
      Latin-1 capitals U+00C0 to U+00DE without the multiplication sign
      U+00D7, each to the code unit 32 above it.
    - A thrown value is represented by its message (every [catch] of the
      source reads [error.message] or [String(error)] and nothing else);
      the categoriser of [types.ts], which also reads a status code, takes
      a record.
    - Asynchronous code runs in a state-and-exception monad over a logical
      millisecond clock and a trace of external effects.  What the outside
      world answers (storage uploads, the upstream endpoint, HTTP
      downloads, the file system) is read from a [World] of oracles; an
      awaited call settles after the duration its oracle gives, and
      [sleep(ms)] takes [ms].  In a race against a timer the call, which is
      started before the timer is set, wins when it settles at the
      deadline or before it.
    - Calls of [logger.info], [debugLog], [warn] and [error] are not
      modelled.  [EvUsage] is the call of [logger.logUsage]; the logger
      appends the record to [usage.jsonl] when a log directory is
      configured.
    - Node's [dirname], [extname] and base64 decoding are parameters of the
      world. *)

From Stdlib Require Import ZArith String Ascii List Bool Lia.
From stdpp Require Import base option list strings pretty gmap.

Local Open Scope string_scope.
Local Open Scope list_scope.
Local Open Scope Z_scope.

(** ** JavaScript strings *)

Module JS.

(** [s.startsWith(p)] *)
Definition startsWith (s p : string) : bool := String.prefix p s.

(** [s.includes(p)]: [p] occurs in [s] at some offset. *)
Fixpoint includes (s p : string) : bool :=
  String.prefix p s ||
  match s with
  | EmptyString => false
  | String _ s' => includes s' p
  end.

(** The lower-case mapping of JavaScript on one code unit below 256: the
    capitals are A-Z (65 to 90) and U+00C0 to U+00DE (192 to 222) without
    U+00D7 (215), and the small letter is 32 above its capital. *)
Definition lower_code_unit (c : ascii) : ascii :=
  let n := N_of_ascii c in
  if ((65 <=? n) && (n <=? 90)
      || (192 <=? n) && (n <=? 222) && negb (n =? 215))%N
  then ascii_of_N (n + 32) else c.

(** [s.toLowerCase()] *)
Fixpoint toLowerCase (s : string) : string :=
  match s with
  | EmptyString => EmptyString
  | String c s' => String (lower_code_unit c) (toLowerCase s')
  end.

(** [xs.join(sep)] *)
Fixpoint join (sep : string) (xs : list string) : string :=
  match xs with
  | [] => ""
  | [x] => x
  | x :: rest => x +:+ sep +:+ join sep rest
  end.

(** The character U+0022. *)
Definition dq : string := String (ascii_of_nat 34) EmptyString.

(** A number interpolated into a template literal. *)
Definition num (z : Z) : string := pretty z.

End JS.

(** ** [types.ts]: constants *)

Inductive SupportedImageModel := NanoBanana | NanoBananaPro.

Definition modelName (m : SupportedImageModel) : string :=
  match m with
  | NanoBanana => "nano-banana"
  | NanoBananaPro => "nano-banana-pro"
  end.

Module FAL_MODEL_IDS.
Definition NANO_BANANA : string := "fal-ai/nano-banana".
Definition NANO_BANANA_PRO : string := "fal-ai/nano-banana-pro".
Definition NANO_BANANA_EDIT : string := "fal-ai/nano-banana/edit".
Definition NANO_BANANA_PRO_EDIT : string := "fal-ai/nano-banana-pro/edit".
End FAL_MODEL_IDS.

Definition ASPECT_RATIOS : list string :=
  ["1:1"; "2:3"; "3:2"; "3:4"; "4:3"; "4:5"; "5:4"; "9:16"; "16:9"; "21:9"].

Definition ASPECT_RATIOS_WITH_AUTO : list string := "auto" :: ASPECT_RATIOS.

Inductive OutputFormat := Png | Jpeg | Webp.
Inductive Resolution := R1K | R2K | R4K.

Definition MAX_REFERENCE_IMAGES (m : SupportedImageModel) : Z :=
  match m with
  | NanoBanana => 3
  | NanoBananaPro => 14
  end.

(** ** [types.ts]: error categories *)

(** The seven members of [ErrorCategory], and the two further labels that
    the [catch] block of [generate] produces as plain strings. *)
Inductive ErrorType :=
  | AUTH_ERROR | RATE_LIMIT | CONTENT_BLOCKED | SAFETY_BLOCK | TIMEOUT
  | API_ERROR | VALIDATION_ERROR
  | GENERATION_ERROR | INVALID_REQUEST.

Definition errorTypeName (c : ErrorType) : string :=
  match c with
  | AUTH_ERROR => "AUTH_ERROR"
  | RATE_LIMIT => "RATE_LIMIT"
  | CONTENT_BLOCKED => "CONTENT_BLOCKED"
  | SAFETY_BLOCK => "SAFETY_BLOCK"
  | TIMEOUT => "TIMEOUT"
  | API_ERROR => "API_ERROR"
  | VALIDATION_ERROR => "VALIDATION_ERROR"
  | GENERATION_ERROR => "GENERATION_ERROR"
  | INVALID_REQUEST => "INVALID_REQUEST"
  end.

Inductive MCPProvider := Xai | Gemini | Fal.

(** What [categorizeError] reads of its argument: the message and
    [error.status || error.statusCode] when that is a number. *)
Record Failure := { f_message : string; f_status : option Z }.

Record MCPError := {
  category : ErrorType;
  message : string;
  provider : MCPProvider;
  statusCode : option Z
}.

Definition status_is (st : option Z) (n : Z) : bool :=
  match st with
  | Some k => k =? n
  | None => false
  end.

Definition categorizeError (error : Failure) (provider : MCPProvider) : MCPError :=
  let message := f_message error in
  let status := f_status error in
  if status_is status 401 || JS.includes message "API key"
     || JS.includes message "unauthorized" then
    Build_MCPError AUTH_ERROR "Invalid or missing fal.ai API key" provider status
  else if status_is status 429 || JS.includes message "quota"
          || JS.includes message "rate" then
    Build_MCPError RATE_LIMIT "fal.ai API rate limit or quota exceeded" provider status
  else if JS.includes message "safety" || JS.includes message "blocked" then
    Build_MCPError SAFETY_BLOCK "Content blocked by safety filter" provider status
  else if status_is status 422 || JS.includes message "422"
          || JS.includes message "invalid" then
    Build_MCPError VALIDATION_ERROR message provider status
  else if JS.includes message "TIMEOUT" || JS.includes message "timed out" then
    Build_MCPError TIMEOUT message provider None
  else
    Build_MCPError API_ERROR message provider status.

(** The classification made in the [catch] block of
    [FalImageProvider.generate]. *)
Definition catchErrorType (errorMessage : string) : ErrorType :=
  if JS.includes errorMessage "API key"
     || JS.includes errorMessage "unauthorized"
     || JS.includes errorMessage "authentication" then AUTH_ERROR
  else if JS.includes errorMessage "quota"
          || JS.includes errorMessage "rate"
          || JS.includes errorMessage "429"
          || JS.includes errorMessage "too many requests" then RATE_LIMIT
  else if JS.includes errorMessage "safety"
          || JS.includes errorMessage "blocked"
          || JS.includes errorMessage "content policy" then CONTENT_BLOCKED
  else if JS.includes errorMessage "TIMEOUT" then TIMEOUT
  else if JS.includes errorMessage "Unprocessable Entity"
          || JS.includes errorMessage "422" then INVALID_REQUEST
  else GENERATION_ERROR.

(** ** [fal-image.ts]: pure helpers *)

Inductive ImageInputType := url | data_url | local_file.

Definition getImageInputType (input : string) : ImageInputType :=
  if JS.startsWith input "data:" then data_url
  else if JS.startsWith input "http://" || JS.startsWith input "https://" then url
  else local_file.

Definition getModelId (model : SupportedImageModel) (hasReferenceImages : bool) : string :=
  if hasReferenceImages then
    match model with
    | NanoBananaPro => FAL_MODEL_IDS.NANO_BANANA_PRO_EDIT
    | NanoBanana => FAL_MODEL_IDS.NANO_BANANA_EDIT
    end
  else
    match model with
    | NanoBananaPro => FAL_MODEL_IDS.NANO_BANANA_PRO
    | NanoBanana => FAL_MODEL_IDS.NANO_BANANA
    end.

(** [outputPath.replace(/(\.[^.]+)$/, "_<n>$1")].  The pattern is tried at
    every offset from the left; at an offset it needs a dot, then one or
    more characters other than a dot, then the end of the string. *)
Fixpoint no_dot (s : string) : bool :=
  match s with
  | EmptyString => true
  | String c s' => negb (Ascii.eqb c ".") && no_dot s'
  end.

Definition ext_here (s : string) : bool :=
  match s with
  | String c rest => Ascii.eqb c "." && negb (String.eqb rest "") && no_dot rest
  | EmptyString => false
  end.

Fixpoint replace_ext (s ins : string) : string :=
  if ext_here s then ins +:+ s
  else match s with
       | EmptyString => EmptyString
       | String c s' => String c (replace_ext s' ins)
       end.

(** Whether the pattern matches somewhere in [s]. *)
Fixpoint ext_match (s : string) : bool :=
  ext_here s ||
  match s with
  | EmptyString => false
  | String _ s' => ext_match s'
  end.

(** The path of image [i] (0-based, [i >= 1]) next to [outputPath]. *)
Definition numberedPath (outputPath : string) (i : nat) : string :=
  replace_ext outputPath ("_" +:+ JS.num (Z.of_nat i + 1)).

(** ** Results, data and the outside world *)

Inductive Result (A : Type) :=
  | Ok (a : A)
  | Throw (msg : string).
Arguments Ok {A} a.
Arguments Throw {A} msg.

(** An awaited external promise: how long it takes to settle, and how. *)
Record Timed (A : Type) := { dur : Z; settled : Result A }.
Arguments dur {A} _.
Arguments settled {A} _.
Arguments Build_Timed {A} _ _.

Definition bytes := list Byte.byte.

Record Blob := { blob_data : bytes; blob_type : string }.

Record FalImage := { img_url : string }.

Record FalGenerateResponse := {
  images : option (list FalImage);
  description : option string
}.

(** The [input] object sent to the endpoint; absent keys are [None]. *)
Record Payload := {
  p_prompt : string;
  p_output_format : OutputFormat;
  p_num_images : Z;
  p_aspect_ratio : option string;
  p_image_urls : option (list string);
  p_resolution : option Resolution;
  p_enable_web_search : option bool
}.

Record HttpResponse := {
  ok : bool;
  status : Z;
  statusText : string;
  arrayBuffer : Result bytes
}.

Record UsageLogEntry := {
  timestamp : Z;
  u_model : SupportedImageModel;
  durationMs : Z;
  success : bool;
  error : option string
}.

Record GenerateResult := {
  imagePath : string;
  r_model : SupportedImageModel;
  usage : Z
}.

Inductive Event :=
  | EvUpload (blob : Blob)
  | EvSubscribe (modelId : string) (input : Payload)
  | EvSleep (ms : Z)
  | EvFetch (imageUrl : string)
  | EvMkdir (dir : string)
  | EvWrite (path : string) (data : bytes)
  | EvUsage (entry : UsageLogEntry).

Record World := {
  (** [fal.storage.upload(blob)], by number of earlier uploads *)
  w_upload : nat -> Blob -> Timed string;
  (** [fal.subscribe(modelId, {input})], by number of earlier calls *)
  w_subscribe : nat -> string -> Payload -> Timed FalGenerateResponse;
  (** [fetch(url)], by number of earlier fetches *)
  w_fetch : nat -> string -> Timed HttpResponse;
  (** [existsSync(path)], given the effects made so far *)
  w_exists : list Event -> string -> bool;
  w_readFile : string -> Result bytes;
  (** the error with which [mkdirSync] / [writeFileSync] fails, if any *)
  w_mkdir : string -> option string;
  w_writeFile : string -> option string;
  (** Node library functions *)
  w_base64 : string -> bytes;
  w_dirname : string -> string;
  w_extname : string -> string
}.

Record State := {
  now : Z;
  uploads : nat;
  calls : nat;
  fetches : nat;
  trace : list Event
}.

Definition initial (t0 : Z) : State :=
  {| now := t0; uploads := 0; calls := 0; fetches := 0; trace := [] |}.

(** ** The monad *)

Definition M (A : Type) : Type := State -> Result A * State.

Definition ret {A} (a : A) : M A := fun s => (Ok a, s).

Definition bind {A B} (m : M A) (k : A -> M B) : M B := fun s =>
  match m s with
  | (Ok a, s') => k a s'
  | (Throw e, s') => (Throw e, s')
  end.

Definition throw {A} (msg : string) : M A := fun s => (Throw msg, s).

(** [try { m } catch (error) { h(message of error) }] *)
Definition try_catch {A} (m : M A) (h : string -> M A) : M A := fun s =>
  match m s with
  | (Ok a, s') => (Ok a, s')
  | (Throw e, s') => h e s'
  end.

Definition lift {A} (r : Result A) : M A := fun s => (r, s).

Notation "x <- m ;; k" := (bind m (fun x => k))
  (at level 100, m at next level, right associativity).
Notation "m ;;; k" := (bind m (fun _ => k))
  (at level 100, right associativity).

Definition emit (e : Event) (s : State) : State :=
  {| now := now s; uploads := uploads s; calls := calls s;
     fetches := fetches s; trace := trace s ++ [e] |}.

Definition advance (d : Z) (s : State) : State :=
  {| now := now s + d; uploads := uploads s; calls := calls s;
     fetches := fetches s; trace := trace s |}.

Definition set_now (t : Z) (s : State) : State :=
  {| now := t; uploads := uploads s; calls := calls s;
     fetches := fetches s; trace := trace s |}.

Definition Date_now : M Z := fun s => (Ok (now s), s).

(** ** [retry.ts] *)

Record RetryOptions := {
  maxRetries : option Z;
  initialDelayMs : option Z;
  maxDelayMs : option Z;
  backoffMultiplier : option Z;
  retryableErrors : option (list string)
}.

Module DEFAULT_RETRY_OPTIONS.
Definition maxRetries : Z := 3.
Definition initialDelayMs : Z := 1000.
Definition maxDelayMs : Z := 30000.
Definition backoffMultiplier : Z := 2.
Definition retryableErrors : list string :=
  ["RATE_LIMIT"; "429"; "503"; "502"; "ECONNRESET"; "ETIMEDOUT";
   "ENOTFOUND"; "temporarily unavailable"; "too many requests"].
End DEFAULT_RETRY_OPTIONS.

(** [{ ...DEFAULT_RETRY_OPTIONS, ...options }] *)
Module opts.
Definition maxRetries (o : RetryOptions) : Z :=
  default DEFAULT_RETRY_OPTIONS.maxRetries (maxRetries o).
Definition initialDelayMs (o : RetryOptions) : Z :=
  default DEFAULT_RETRY_OPTIONS.initialDelayMs (initialDelayMs o).
Definition maxDelayMs (o : RetryOptions) : Z :=
  default DEFAULT_RETRY_OPTIONS.maxDelayMs (maxDelayMs o).
Definition backoffMultiplier (o : RetryOptions) : Z :=
  default DEFAULT_RETRY_OPTIONS.backoffMultiplier (backoffMultiplier o).
Definition retryableErrors (o : RetryOptions) : list string :=
  default DEFAULT_RETRY_OPTIONS.retryableErrors (retryableErrors o).
End opts.

Definition isRetryable (message : string) (retryableErrors : list string) : bool :=
  existsb (fun pattern =>
             JS.includes (JS.toLowerCase message) (JS.toLowerCase pattern))
          retryableErrors.

Definition sleep (ms : Z) : M unit := fun s =>
  (Ok tt, advance ms (emit (EvSleep ms) s)).

(** The [for] loop of [withRetry]: [iters] iterations remain, the loop
    variable is [attempt].  Leaving the loop reaches [throw lastError]. *)
Fixpoint retry_loop {T} (fn : M T) (o : RetryOptions)
    (iters : nat) (attempt : Z) (delay : Z) (lastError : string) : M T :=
  match iters with
  | O => throw lastError
  | S iters' =>
      try_catch fn (fun error =>
        if (attempt =? opts.maxRetries o)
           || negb (isRetryable error (opts.retryableErrors o))
        then throw error
        else
          sleep delay ;;;
          retry_loop fn o iters' (attempt + 1)
            (Z.min (delay * opts.backoffMultiplier o) (opts.maxDelayMs o))
            error)
  end.

Definition withRetry {T} (fn : M T) (options : RetryOptions) : M T :=
  retry_loop fn options (Z.to_nat (opts.maxRetries options + 1)) 0
    (opts.initialDelayMs options) "undefined".

Definition timeout_message (timeoutMs : Z) : string :=
  "TIMEOUT: Operation timed out after " +:+ JS.num timeoutMs +:+ "ms".

(** [Promise.race([fn(), timer])].  [fn()] is started before the timer
    is set, so a call that settles exactly at the deadline wins the race;
    the timer wins when the call is still pending at the deadline.  The
    losing promise is not cancelled: what [fn] did stays done, the clock
    stops at the deadline. *)
Definition withTimeout {T} (fn : M T) (timeoutMs : Z) : M T := fun s =>
  let '(r, s') := fn s in
  if now s' - now s <=? timeoutMs then (r, s')
  else (Throw (timeout_message timeoutMs), set_now (now s + timeoutMs) s').

(** ** [fal-image.ts]: the provider *)

Definition DEFAULT_TIMEOUT_MS : Z := 180000.
Definition UPLOAD_TIMEOUT_MS : Z := 30000.

Record ImageGenerateOptions := {
  prompt : string;
  outputPath : string;
  model : option SupportedImageModel;
  referenceImages : option (list string);
  aspectRatio : option string;
  outputFormat : option OutputFormat;
  resolution : option Resolution;
  numImages : option Z;
  enableWebSearch : option bool
}.

(** [^data:([^;]+);base64,(.+)$]: the two groups, when the pattern matches.
    [[^;]+] stops at the first semicolon; [.] excludes line terminators. *)
Fixpoint until_semicolon (s : string) : string * string :=
  match s with
  | EmptyString => (EmptyString, EmptyString)
  | String c s' =>
      if Ascii.eqb c ";" then (EmptyString, s)
      else let '(a, b) := until_semicolon s' in (String c a, b)
  end.

Fixpoint no_line_terminator (s : string) : bool :=
  match s with
  | EmptyString => true
  | String c s' =>
      negb (Ascii.eqb c (ascii_of_nat 10)) && negb (Ascii.eqb c (ascii_of_nat 13))
      && no_line_terminator s'
  end.

Fixpoint strip_prefix (p s : string) : option string :=
  match p, s with
  | EmptyString, _ => Some s
  | String a p', String b s' => if Ascii.eqb a b then strip_prefix p' s' else None
  | String _ _, EmptyString => None
  end.

Definition match_data_url (dataUrl : string) : option (string * string) :=
  match strip_prefix "data:" dataUrl with
  | None => None
  | Some rest =>
      let '(mime, rest') := until_semicolon rest in
      match strip_prefix ";base64," rest' with
      | None => None
      | Some payload =>
          if negb (String.eqb mime "") && negb (String.eqb payload "")
             && no_line_terminator payload
          then Some (mime, payload) else None
      end
  end.

Definition truthy (s : option string) : bool :=
  match s with
  | Some v => negb (String.eqb v "")
  | None => false
  end.

(** The checks made by [generate] before its [try] block; the message of
    the first violation. *)
Definition validate (aspectRatio : option string) (hasReferenceImages : bool)
    (referenceImages : list string) (model : SupportedImageModel)
    (resolution : Resolution) : Result unit :=
  let isPro := match model with NanoBananaPro => true | NanoBanana => false end in
  let ar := default "" aspectRatio in
  if truthy aspectRatio && (String.eqb ar "auto" && negb hasReferenceImages) then
    Throw ("Aspect ratio " +:+ JS.dq +:+ "auto" +:+ JS.dq
           +:+ " is only valid when using reference_images. For text-to-image, use: "
           +:+ JS.join ", " ASPECT_RATIOS)
  else if truthy aspectRatio && negb (existsb (String.eqb ar) ASPECT_RATIOS_WITH_AUTO) then
    Throw ("Invalid aspect ratio " +:+ JS.dq +:+ ar +:+ JS.dq
           +:+ ". Valid options: " +:+ JS.join ", " ASPECT_RATIOS_WITH_AUTO)
  else
    let maxImages := MAX_REFERENCE_IMAGES model in
    if Z.of_nat (length referenceImages) >? maxImages then
      Throw ("Maximum " +:+ JS.num maxImages +:+ " reference images allowed for "
             +:+ modelName model)
    else if negb isPro
            && negb (match resolution with R1K => true | _ => false end) then
      Throw "Only nano-banana-pro supports 2K and 4K resolution"
    else Ok tt.

Section Provider.

Variable w : World.

Definition existsSync (path : string) : M bool := fun s =>
  (Ok (w_exists w (trace s) path), s).

Definition readFileSync (path : string) : M bytes := lift (w_readFile w path).

Definition mkdirSync (dir : string) : M unit := fun s =>
  match w_mkdir w dir with
  | Some e => (Throw e, s)
  | None => (Ok tt, emit (EvMkdir dir) s)
  end.

Definition writeFileSync (path : string) (data : bytes) : M unit := fun s =>
  match w_writeFile w path with
  | Some e => (Throw e, s)
  | None => (Ok tt, emit (EvWrite path data) s)
  end.

Definition fal_storage_upload (blob : Blob) : M string := fun s =>
  let t := w_upload w (uploads s) blob in
  (settled t,
   {| now := now s + dur t; uploads := S (uploads s); calls := calls s;
      fetches := fetches s; trace := trace s ++ [EvUpload blob] |}).

Definition fal_subscribe (modelId : string) (input : Payload)
  : M FalGenerateResponse := fun s =>
  let t := w_subscribe w (calls s) modelId input in
  (settled t,
   {| now := now s + dur t; uploads := uploads s; calls := S (calls s);
      fetches := fetches s; trace := trace s ++ [EvSubscribe modelId input] |}).

Definition fetch (imageUrl : string) : M HttpResponse := fun s =>
  let t := w_fetch w (fetches s) imageUrl in
  (settled t,
   {| now := now s + dur t; uploads := uploads s; calls := calls s;
      fetches := S (fetches s); trace := trace s ++ [EvFetch imageUrl] |}).

Definition logUsage (entry : UsageLogEntry) : M unit := fun s =>
  (Ok tt, emit (EvUsage entry) s).

Definition getMimeType (filePath : string) : string :=
  let ext := JS.toLowerCase (w_extname w filePath) in
  if String.eqb ext ".png" then "image/png"
  else if String.eqb ext ".jpg" then "image/jpeg"
  else if String.eqb ext ".jpeg" then "image/jpeg"
  else if String.eqb ext ".gif" then "image/gif"
  else if String.eqb ext ".webp" then "image/webp"
  else if String.eqb ext ".bmp" then "image/bmp"
  else "image/png".

Definition parseDataUrl (dataUrl : string) : Result Blob :=
  match match_data_url dataUrl with
  | None => Throw "Invalid data URL format. Expected: data:<mime>;base64,<data>"
  | Some (mime, payload) =>
      Ok {| blob_data := w_base64 w payload; blob_type := mime |}
  end.

(** The body of the [try] in the loop of [processReferenceImages]: the
    URL pushed for one input. *)
Definition processOne (image : string) : M string :=
  match getImageInputType image with
  | url => ret image
  | data_url =>
      blob <- lift (parseDataUrl image) ;;
      withTimeout (fal_storage_upload blob) UPLOAD_TIMEOUT_MS
  | local_file =>
      found <- existsSync image ;;
      if negb found then throw ("Reference image file not found: " +:+ image)
      else
        fileBuffer <- readFileSync image ;;
        withTimeout
          (fal_storage_upload
             {| blob_data := fileBuffer; blob_type := getMimeType image |})
          UPLOAD_TIMEOUT_MS
  end.

(** The loop of [processReferenceImages], at index [i], with the inputs
    still to do and the URLs pushed so far. *)
Fixpoint processLoop (i : nat) (todo : list string) (processedUrls : list string)
  : M (list string) :=
  match todo with
  | [] => ret processedUrls
  | image :: todo' =>
      u <- try_catch (processOne image) (fun errorMessage =>
             throw ("Failed to process reference image "
                    +:+ JS.num (Z.of_nat i + 1) +:+ ": " +:+ errorMessage)) ;;
      processLoop (S i) todo' (processedUrls ++ [u])
  end.

Definition processReferenceImages (referenceImages : list string)
  : M (list string) :=
  match referenceImages with
  | [] => ret []
  | _ => processLoop 0 referenceImages []
  end.

Definition downloadAndSave (imageUrl : string) (outputPath : string) : M unit :=
  response <- fetch imageUrl ;;
  if negb (ok response) then
    throw ("Failed to download image: " +:+ JS.num (status response)
           +:+ " " +:+ statusText response)
  else
    buffer <- lift (arrayBuffer response) ;;
    let outputDir := w_dirname w outputPath in
    found <- existsSync outputDir ;;
    (if negb (String.eqb outputDir "") && negb found
     then mkdirSync outputDir else ret tt) ;;;
    writeFileSync outputPath buffer.

(** The loop saving the images [i], [i+1], ... of the response. *)
Fixpoint saveMore (outputPath : string) (i : nat) (more : list FalImage) : M unit :=
  match more with
  | [] => ret tt
  | img :: more' =>
      downloadAndSave (img_url img) (numberedPath outputPath i) ;;;
      saveMore outputPath (S i) more'
  end.

Definition generate_retry_options : RetryOptions :=
  {| maxRetries := Some 2; initialDelayMs := None; maxDelayMs := None;
     backoffMultiplier := None;
     retryableErrors :=
       Some ["RATE_LIMIT"; "429"; "503"; "502"; "ECONNRESET"; "ETIMEDOUT"] |}.

(** One attempt: [withTimeout(() => fal.subscribe(..), DEFAULT_TIMEOUT_MS)] *)
Definition attempt (modelId : string) (input : Payload) : M FalGenerateResponse :=
  withTimeout (fal_subscribe modelId input) DEFAULT_TIMEOUT_MS.

(** [withRetry(() => withTimeout(..), { maxRetries: 2, retryableErrors })] *)
Definition invoke (modelId : string) (input : Payload) : M FalGenerateResponse :=
  withRetry (attempt modelId input) generate_retry_options.

(** [generate], from its check of [response.images] to the end of the
    loop over the further images: from the response to the files on
    disk. *)
Definition saveImages (response : FalGenerateResponse) (outputPath : string)
    (numImages : Z) : M unit :=
  match images response with
  | None | Some [] => throw "No image data found in response"
  | Some (first :: more) =>
      downloadAndSave (img_url first) outputPath ;;;
      if (numImages >? 1) && (Z.of_nat (length (first :: more)) >? 1)
      then saveMore outputPath 1 more
      else ret tt
  end.

Definition generate (options : ImageGenerateOptions) : M GenerateResult :=
  let prompt := prompt options in
  let outputPath := outputPath options in
  let model := default NanoBanana (model options) in
  let referenceImages := default [] (referenceImages options) in
  let aspectRatio := aspectRatio options in
  let outputFormat := default Png (outputFormat options) in
  let resolution := default R1K (resolution options) in
  let numImages := default 1 (numImages options) in
  let enableWebSearch := default false (enableWebSearch options) in
  startTime <- Date_now ;;
  let isPro := match model with NanoBananaPro => true | NanoBanana => false end in
  let hasReferenceImages := (Z.of_nat (length referenceImages) >? 0) in
  lift (validate aspectRatio hasReferenceImages referenceImages model resolution) ;;;
  let modelId := getModelId model hasReferenceImages in
  try_catch
    (processedImageUrls <-
       (if hasReferenceImages then processReferenceImages referenceImages
        else ret []) ;;
     let input :=
       {| p_prompt := prompt;
          p_output_format := outputFormat;
          p_num_images := numImages;
          p_aspect_ratio := if truthy aspectRatio then aspectRatio else None;
          p_image_urls :=
            if Z.of_nat (length processedImageUrls) >? 0
            then Some processedImageUrls else None;
          p_resolution := if isPro then Some resolution else None;
          p_enable_web_search :=
            if isPro && enableWebSearch then Some true else None |} in
     response <- invoke modelId input ;;
     saveImages response outputPath numImages ;;;
     endTime <- Date_now ;;
     let durationMs := endTime - startTime in
     logUsage {| timestamp := endTime; u_model := model;
                 durationMs := durationMs; success := true;
                 error := None |} ;;;
     ret {| imagePath := outputPath; r_model := model; usage := durationMs |})
    (fun errorMessage =>
       endTime <- Date_now ;;
       let durationMs := endTime - startTime in
       let errorType := catchErrorType errorMessage in
       let text := errorTypeName errorType +:+ ": " +:+ errorMessage in
       logUsage {| timestamp := endTime; u_model := model;
                   durationMs := durationMs; success := false;
                   error := Some text |} ;;;
       throw text).

(** The [input] object that [generate] builds. *)
Definition request_input (options : ImageGenerateOptions)
    (processedImageUrls : list string) : Payload :=
  let model := default NanoBanana (model options) in
  let isPro := match model with NanoBananaPro => true | NanoBanana => false end in
  {| p_prompt := prompt options;
     p_output_format := default Png (outputFormat options);
     p_num_images := default 1 (numImages options);
     p_aspect_ratio :=
       if truthy (aspectRatio options) then aspectRatio options else None;
     p_image_urls :=
       if Z.of_nat (length processedImageUrls) >? 0
       then Some processedImageUrls else None;
     p_resolution :=
       if isPro then Some (default R1K (resolution options)) else None;
     p_enable_web_search :=
       if isPro && default false (enableWebSearch options) then Some true else None |}.

(** The [try] block of [generate] up to, and without, its usage record. *)
Definition generate_try (options : ImageGenerateOptions) : M unit :=
  let model := default NanoBanana (model options) in
  let referenceImages := default [] (referenceImages options) in
  let hasReferenceImages := (Z.of_nat (length referenceImages) >? 0) in
  processedImageUrls <-
    (if hasReferenceImages then processReferenceImages referenceImages
     else ret []) ;;
  response <- invoke (getModelId model hasReferenceImages)
                     (request_input options processedImageUrls) ;;
  saveImages response (outputPath options) (default 1 (numImages options)).

(** What [generate] checks first. *)
Definition validate_options (options : ImageGenerateOptions) : Result unit :=
  let referenceImages := default [] (referenceImages options) in
  validate (aspectRatio options) (Z.of_nat (length referenceImages) >? 0)
           referenceImages (default NanoBanana (model options))
           (default R1K (resolution options)).

End Provider.

(** ** Reading a run *)

Definition sleeps (evs : list Event) : list Z :=
  omap (fun e => match e with EvSleep ms => Some ms | _ => None end) evs.

Definition slept (evs : list Event) : Z := foldr Z.add 0 (sleeps evs).

Definition writes (evs : list Event) : list (string * bytes) :=
  omap (fun e => match e with EvWrite p d => Some (p, d) | _ => None end) evs.

Definition uploaded (evs : list Event) : list Blob :=
  omap (fun e => match e with EvUpload b => Some b | _ => None end) evs.

Definition usage_records (evs : list Event) : list UsageLogEntry :=
  omap (fun e => match e with EvUsage u => Some u | _ => None end) evs.

(** The files on disk after the writes of a run. *)
Definition disk_after (disk : gmap string bytes) (evs : list Event)
  : gmap string bytes :=
  foldl (fun m pd => <[pd.1 := pd.2]> m) disk (writes evs).

(** The delay slept before retry [k] (counted from 0) under the default
    options. *)
Definition backoff (k : nat) : Z := Z.min (1000 * 2 ^ Z.of_nat k) 30000.

(** The effects of [n] attempts of the upstream call under the default
    delays. *)
Definition attempts_trace (modelId : string) (input : Payload) (n : nat)
  : list Event :=
  match n with
  | O => []
  | S m =>
      EvSubscribe modelId input ::
      flat_map (fun k => [EvSleep (backoff k); EvSubscribe modelId input]) (seq 0 m)
  end.

(** The state after an upstream call that took [d] milliseconds. *)
Definition called (modelId : string) (input : Payload) (d : Z) (s : State) : State :=
  {| now := now s + d; uploads := uploads s; calls := S (calls s);
     fetches := fetches s; trace := trace s ++ [EvSubscribe modelId input] |}.

(** The state after [sleep(ms)]. *)
Definition rested (ms : Z) (s : State) : State := advance ms (emit (EvSleep ms) s).

(** The retryable signals that [generate] passes to [withRetry]. *)
Definition generate_retryable : list string :=
  ["RATE_LIMIT"; "429"; "503"; "502"; "ECONNRESET"; "ETIMEDOUT"].

(** ** Kinds of effects *)

Inductive Kind :=
  | KUpload | KSubscribe | KSleep | KFetch | KMkdir | KWrite | KUsage.

Definition kind (e : Event) : Kind :=
  match e with
  | EvUpload _ => KUpload
  | EvSubscribe _ _ => KSubscribe
  | EvSleep _ => KSleep
  | EvFetch _ => KFetch
  | EvMkdir _ => KMkdir
  | EvWrite _ _ => KWrite
  | EvUsage _ => KUsage
  end.

Definition only (kinds : list Kind) (e : Event) : Prop := In (kind e) kinds.

(** [m] only appends to the trace, and only events of the given kinds. *)
Definition emits (kinds : list Kind) {A} (m : M A) : Prop :=
  forall s, exists evs, trace (m s).2 = trace s ++ evs /\ Forall (only kinds) evs.

(** ** The usage record of a run of [generate] *)

Definition usage_of (options : ImageGenerateOptions) (start finish : Z)
    (failure : option string) : UsageLogEntry :=
  {| timestamp := finish;
     u_model := default NanoBanana (model options);
     durationMs := finish - start;
     success := match failure with None => true | Some _ => false end;
     error := failure |}.

(** The text that the [catch] block of [generate] logs and throws. *)
Definition classified (errorMessage : string) : string :=
  errorTypeName (catchErrorType errorMessage) +:+ ": " +:+ errorMessage.

(** ** The messages and the first two checks of validation *)

Definition auto_needs_references : string :=
  "Aspect ratio " +:+ JS.dq +:+ "auto" +:+ JS.dq
  +:+ " is only valid when using reference_images. For text-to-image, use: "
  +:+ "1:1, 2:3, 3:2, 3:4, 4:3, 4:5, 5:4, 9:16, 16:9, 21:9".

Definition invalid_aspect_ratio (a : string) : string :=
  "Invalid aspect ratio " +:+ JS.dq +:+ a +:+ JS.dq +:+ ". Valid options: "
  +:+ "auto, 1:1, 2:3, 3:2, 3:4, 4:3, 4:5, 5:4, 9:16, 16:9, 21:9".

Definition too_many_references (model : SupportedImageModel) : string :=
  "Maximum " +:+ JS.num (MAX_REFERENCE_IMAGES model)
  +:+ " reference images allowed for " +:+ modelName model.

(** The aspect ratio passes: it is absent or empty, or it is a member of
    the extended set that is not "auto" without reference images. *)
Definition aspect_accepted (aspectRatio : option string)
    (referenceImages : list string) : Prop :=
  match aspectRatio with
  | None => True
  | Some a =>
      a = "" \/ (In a ASPECT_RATIOS_WITH_AUTO /\ (a = "auto" -> referenceImages <> []))
  end.

(** ** Downloads that succeed *)

(** The bytes that [downloadAndSave] gets from fetch number [k]. *)
Definition body_at (w : World) (k : nat) (imageUrl : string) : option bytes :=
  match settled (w_fetch w k imageUrl) with
  | Ok response =>
      if ok response
      then match arrayBuffer response with
           | Ok buffer => Some buffer
           | Throw _ => None
           end
      else None
  | Throw _ => None
  end.

(** The bytes of the images [imgs], fetched in order from fetch number
    [k] on, when every download succeeds. *)
Fixpoint fetched (w : World) (k : nat) (imgs : list FalImage) : option (list bytes) :=
  match imgs with
  | [] => Some []
  | img :: rest =>
      match body_at w k (img_url img), fetched w (S k) rest with
      | Some b, Some bs => Some (b :: bs)
      | _, _ => None
      end
  end.

(** [mkdirSync] and [writeFileSync] do not fail. *)
Definition disk_accepts (w : World) : Prop :=
  (forall dir, w_mkdir w dir = None) /\ (forall path, w_writeFile w path = None).

(** The writes of the loop over the further images, from index [i]. *)
Fixpoint numbered_writes (outputPath : string) (i : nat) (bodies : list bytes)
  : list (string * bytes) :=
  match bodies with
  | [] => []
  | b :: bs => (numberedPath outputPath i, b) :: numbered_writes outputPath (S i) bs
  end.

(** ** Reference images and their URLs *)

Definition needs_upload (image : string) : bool :=
  match getImageInputType image with
  | url => false
  | _ => true
  end.

(** The blob that is uploaded for an input that is not a URL. *)
Definition blob_of (w : World) (image : string) : Result Blob :=
  match getImageInputType image with
  | url => Throw "a URL is not uploaded"
  | data_url => parseDataUrl w image
  | local_file =>
      match w_readFile w image with
      | Ok fileBuffer =>
          Ok {| blob_data := fileBuffer; blob_type := getMimeType w image |}
      | Throw e => Throw e
      end
  end.

(** [urls] answers [inputs] position by position: a URL input by itself,
    any other input by what the storage returned for its blob; [k] is the
    number of uploads made before. *)
Fixpoint corresponds (w : World) (k : nat) (inputs urls : list string) : Prop :=
  match inputs, urls with
  | [], [] => True
  | image :: inputs', u :: urls' =>
      if needs_upload image
      then (exists blob, blob_of w image = Ok blob
                         /\ settled (w_upload w k blob) = Ok u)
           /\ corresponds w (S k) inputs' urls'
      else u = image /\ corresponds w k inputs' urls'
  | _, _ => False
  end.

(** ** Ordered rule tables

    A rule fires on one of its status codes or on one of its substrings;
    the first rule that fires gives the category. *)

Record Rule := {
  r_codes : list Z;
  r_patterns : list string;
  r_category : ErrorType
}.

Definition fires (status : option Z) (msg : string) (r : Rule) : bool :=
  existsb (status_is status) (r_codes r) || existsb (JS.includes msg) (r_patterns r).

Fixpoint first_match (rules : list Rule) (dflt : ErrorType)
    (status : option Z) (msg : string) : ErrorType :=
  match rules with
  | [] => dflt
  | r :: rest =>
      if fires status msg r then r_category r
      else first_match rest dflt status msg
  end.

(** The table as the specification words it; the category of the third
    rule and the default are the two choices it leaves open. *)
Definition spec_rules (blocked : ErrorType) : list Rule :=
  [ {| r_codes := []; r_patterns := ["API key"; "unauthorized"; "authentication"];
       r_category := AUTH_ERROR |};
    {| r_codes := []; r_patterns := ["quota"; "rate"; "429"; "too many requests"];
       r_category := RATE_LIMIT |};
    {| r_codes := []; r_patterns := ["safety"; "blocked"; "content policy"];
       r_category := blocked |};
    {| r_codes := [422]; r_patterns := ["invalid"; "422"];
       r_category := VALIDATION_ERROR |};
    {| r_codes := []; r_patterns := ["TIMEOUT"; "timed out"];
       r_category := TIMEOUT |} ].

(** The table of [categorizeError]. *)
Definition categorizeError_rules : list Rule :=
  [ {| r_codes := [401]; r_patterns := ["API key"; "unauthorized"];
       r_category := AUTH_ERROR |};
    {| r_codes := [429]; r_patterns := ["quota"; "rate"];
       r_category := RATE_LIMIT |};
    {| r_codes := []; r_patterns := ["safety"; "blocked"];
       r_category := SAFETY_BLOCK |};
    {| r_codes := [422]; r_patterns := ["422"; "invalid"];
       r_category := VALIDATION_ERROR |};
    {| r_codes := []; r_patterns := ["TIMEOUT"; "timed out"];
       r_category := TIMEOUT |} ].

(** The table of the [catch] block of [generate]. *)
Definition generate_catch_rules : list Rule :=
  [ {| r_codes := []; r_patterns := ["API key"; "unauthorized"; "authentication"];
       r_category := AUTH_ERROR |};
    {| r_codes := []; r_patterns := ["quota"; "rate"; "429"; "too many requests"];
       r_category := RATE_LIMIT |};
    {| r_codes := []; r_patterns := ["safety"; "blocked"; "content policy"];
       r_category := CONTENT_BLOCKED |};
    {| r_codes := []; r_patterns := ["TIMEOUT"]; r_category := TIMEOUT |};
    {| r_codes := []; r_patterns := ["Unprocessable Entity"; "422"];
       r_category := INVALID_REQUEST |} ].

(** ** Further parts of the source *)

Fixpoint no_semicolon (s : string) : bool :=
  match s with
  | EmptyString => true
  | String c s' => negb (Ascii.eqb c ";") && no_semicolon s'
  end.

(** The paths at which [generate] saves the [n] images of a response when
    more than one image was asked for: [outputPath], then the numbered
    paths of the indices 1, 2, ... *)
Definition image_paths (outputPath : string) (n : nat) : list string :=
  match n with
  | O => []
  | S m => outputPath :: map (numberedPath outputPath) (seq 1 m)
  end.

(** The labels that the [catch] block of [generate] can assign. *)
Definition generate_error_types : list ErrorType :=
  [AUTH_ERROR; RATE_LIMIT; CONTENT_BLOCKED; TIMEOUT; INVALID_REQUEST; GENERATION_ERROR].

(** The upstream call of [generate] is an edit call. *)
Definition is_edit_endpoint (modelId : string) : Prop :=
  modelId = FAL_MODEL_IDS.NANO_BANANA_EDIT
  \/ modelId = FAL_MODEL_IDS.NANO_BANANA_PRO_EDIT.

(** The bytes of the leading images of [imgs] whose downloads succeed,
    fetched in order from fetch number [k] on. *)
Fixpoint fetched_upto (w : World) (k : nat) (imgs : list FalImage) : list bytes :=
  match imgs with
  | [] => []
  | img :: rest =>
      match body_at w k (img_url img) with
      | Some b => b :: fetched_upto w (S k) rest
      | None => []
      end
  end.

(** *** [types.ts]: [isSupportedImageModel] *)

Definition SUPPORTED_IMAGE_MODELS : list string := ["nano-banana"; "nano-banana-pro"].

Definition isSupportedImageModel (model : string) : bool :=
  existsb (String.eqb model) SUPPORTED_IMAGE_MODELS.

(** The value of [SupportedImageModel] that a supported name stands for. *)
Definition as_model (model : string) : option SupportedImageModel :=
  if String.eqb model "nano-banana" then Some NanoBanana
  else if String.eqb model "nano-banana-pro" then Some NanoBananaPro
  else None.

(** *** [index.ts]: the handler of the tool [generate_image] *)

(** White space and line terminators among the code units below 256. *)
Definition is_white_space (c : ascii) : bool :=
  existsb (N.eqb (N_of_ascii c)) [9; 10; 11; 12; 13; 32; 160]%N.

(** [s.trim().length === 0] *)
Fixpoint blank (s : string) : bool :=
  match s with
  | EmptyString => true
  | String c s' => is_white_space c && blank s'
  end.

(** The [arguments] of a call that has the types the handler casts them
    to; a key that is absent is [None].  What a call may hold instead is
    [RawArguments], below. *)
Record ToolArguments := {
  a_prompt : option string;
  a_output_path : option string;
  a_model : option string;
  a_reference_images : option (list string);
  a_aspect_ratio : option string
}.

Record CallToolResult := {
  text : string;
  isError : bool;
  meta : option GenerateResult
}.

(** [!s || s.trim().length === 0] *)
Definition missing_or_blank (s : option string) : bool :=
  match s with
  | None => true
  | Some v => String.eqb v "" || blank v
  end.

Definition unknown_model (model : string) : string :=
  "Error: Unknown image model " +:+ JS.dq +:+ model +:+ JS.dq
  +:+ ". Supported models: " +:+ JS.join ", " SUPPORTED_IMAGE_MODELS.

(** The three guards of the handler: the text of the first that fails. *)
Definition check_arguments (args : ToolArguments) : option string :=
  if missing_or_blank (a_prompt args) then Some "Error: Prompt cannot be empty"
  else if missing_or_blank (a_output_path args) then Some "Error: output_path is required"
  else match a_model args with
       | Some model =>
           if negb (String.eqb model "") && negb (isSupportedImageModel model)
           then Some (unknown_model model)
           else None
       | None => None
       end.

(** The options that the handler passes to [generate]: the five arguments
    of the tool, every other option left to its default.  An empty model
    string passes the guard of the source and reaches [generate] as a
    value outside [SupportedImageModel], for which [generate] has no
    ceiling to check and whose empty name it reports; [generate] is
    embedded at its declared type, so this one call is outside the
    embedding: it is read here as the default model, and every property
    of the handler that reaches [generate] excludes it by hypothesis. *)
Definition tool_options (args : ToolArguments) : ImageGenerateOptions :=
  {| prompt := default "" (a_prompt args);
     outputPath := default "" (a_output_path args);
     model := match a_model args with Some m => as_model m | None => None end;
     referenceImages := a_reference_images args;
     aspectRatio := a_aspect_ratio args;
     outputFormat := None; resolution := None; numImages := None;
     enableWebSearch := None |}.

Definition handle_generate_image (w : World) (args : ToolArguments)
  : M CallToolResult :=
  match check_arguments args with
  | Some message => ret {| text := message; isError := true; meta := None |}
  | None =>
      try_catch
        (result <- generate w (tool_options args) ;;
         ret {| text := "Image saved to: " +:+ imagePath result;
                isError := false; meta := Some result |})
        (fun errorMessage =>
           ret {| text := "Error: " +:+ errorMessage; isError := true;
                  meta := None |})
  end.

(** *** [index.ts]: the handler on unchecked arguments

    The handler casts [request.params.arguments] to the types above
    without checking it.  The object may be missing, and [prompt] and
    [output_path], which the handler reads before its [try], may hold any
    JSON value; the three other keys are taken at their declared types. *)

(** A JSON value as the two guards see it: absent, a string, or a value
    of another kind (null, a boolean, a number, an array, an object), of
    which only the truthiness matters. *)
Inductive JsValue :=
| JsUndefined
| JsString (s : string)
| JsOther (truthy : bool).

Record RawArguments := {
  raw_prompt : JsValue;
  raw_output_path : JsValue;
  raw_model : option string;
  raw_reference_images : option (list string);
  raw_aspect_ratio : option string
}.

(** [!!v] *)
Definition truthy_value (v : JsValue) : bool :=
  match v with
  | JsUndefined => false
  | JsString s => negb (String.eqb s "")
  | JsOther truthy => truthy
  end.

(** [!v || v.trim().length === 0], [name] being the variable that holds
    [v]: a truthy value that is not a string has no [trim] to call, and
    the call is a TypeError (the text is that of the engine). *)
Definition absent_or_blank (name : string) (v : JsValue) : Result bool :=
  if negb (truthy_value v) then Ok true
  else match v with
       | JsString s => Ok (blank s)
       | _ => Throw (name +:+ ".trim is not a function")
       end.

Definition as_string (v : JsValue) : option string :=
  match v with
  | JsString s => Some s
  | _ => None
  end.

(** The arguments after the two guards, which leave strings only. *)
Definition typed (args : RawArguments) : ToolArguments :=
  {| a_prompt := as_string (raw_prompt args);
     a_output_path := as_string (raw_output_path args);
     a_model := raw_model args;
     a_reference_images := raw_reference_images args;
     a_aspect_ratio := raw_aspect_ratio args |}.

(** The branch [name === "generate_image"] of the handler, from the
    destructuring of the arguments on.  Destructuring a missing object is
    a TypeError; it and the two calls of [trim] come before the [try]. *)
Definition handle_call (w : World) (arguments : option RawArguments)
  : M CallToolResult :=
  match arguments with
  | None => throw "Cannot destructure property 'prompt' of 'args' as it is undefined."
  | Some args =>
      let failed (message : string) : M CallToolResult :=
        ret {| text := message; isError := true; meta := None |} in
      let answer : M CallToolResult :=
        try_catch
          (result <- generate w (tool_options (typed args)) ;;
           ret {| text := "Image saved to: " +:+ imagePath result;
                  isError := false; meta := Some result |})
          (fun errorMessage =>
             ret {| text := "Error: " +:+ errorMessage; isError := true;
                    meta := None |}) in
      noPrompt <- lift (absent_or_blank "prompt" (raw_prompt args)) ;;
      if noPrompt then failed "Error: Prompt cannot be empty"
      else
        noPath <- lift (absent_or_blank "outputPath" (raw_output_path args)) ;;
        if noPath then failed "Error: output_path is required"
        else
          match raw_model args with
          | Some model =>
              if negb (String.eqb model "") && negb (isSupportedImageModel model)
              then failed (unknown_model model)
              else answer
          | None => answer
          end
  end.

(** ** Sample worlds and requests *)

Definition one_image : FalGenerateResponse :=
  {| images := Some [ {| img_url := "https://cdn/out.png" |} ]; description := None |}.

Definition http_ok (body : bytes) : HttpResponse :=
  {| ok := true; status := 200; statusText := "OK"; arrayBuffer := Ok body |}.

(** A world whose endpoint answers call [k] with [answers k] and whose
    downloads return [bodies k]; uploads succeed, and so does the disk,
    on which every sample path lies in /tmp. *)
Definition world_answering (answers : nat -> Timed FalGenerateResponse)
    (bodies : nat -> bytes) : World :=
  {| w_upload := fun k _ => Build_Timed 10 (Ok ("https://storage/" +:+ pretty k));
     w_subscribe := fun k _ _ => answers k;
     w_fetch := fun k _ => Build_Timed 5 (Ok (http_ok (bodies k)));
     w_exists := fun _ _ => true;
     w_readFile := fun _ => Ok [];
     w_mkdir := fun _ => None;
     w_writeFile := fun _ => None;
     w_base64 := fun _ => [];
     w_dirname := fun _ => "/tmp";
     w_extname := fun _ => ".png" |}.

Definition sample_payload : Payload :=
  {| p_prompt := "a red cube"; p_output_format := Png; p_num_images := 1;
     p_aspect_ratio := None; p_image_urls := None; p_resolution := None;
     p_enable_web_search := None |}.

(** Two slow attempts: a rate-limit failure after 179 s, then a success
    after another 179 s. *)
Definition slow_world : World :=
  world_answering
    (fun k => match k with
              | O => Build_Timed 179000 (Throw "HTTP 429")
              | _ => Build_Timed 179000 (Ok one_image)
              end)
    (fun _ => []).

(** An endpoint that is down for a moment. *)
Definition unavailable_world : World :=
  world_answering
    (fun _ => Build_Timed 40 (Throw "Service temporarily unavailable"))
    (fun _ => []).

(** Two rate-limit failures, then a success. *)
Definition throttled_world : World :=
  world_answering
    (fun k => match k with
              | O => Build_Timed 300 (Throw "HTTP 429 Too Many Requests")
              | S O => Build_Timed 300 (Throw "status 429")
              | _ => Build_Timed 5000 (Ok one_image)
              end)
    (fun _ => []).

Definition three_images : FalGenerateResponse :=
  {| images := Some [ {| img_url := "https://cdn/a" |};
                      {| img_url := "https://cdn/b" |};
                      {| img_url := "https://cdn/c" |} ];
     description := None |}.

(** Downloads that return one byte each: 0x0a, 0x0b, 0x0c, ... *)
Definition numbered_bodies (k : nat) : bytes :=
  match k with
  | O => [Byte.x0a]
  | S O => [Byte.x0b]
  | _ => [Byte.x0c]
  end.

Definition serving_world : World :=
  world_answering (fun _ => Build_Timed 2000 (Ok three_images)) numbered_bodies.

Definition request (refs : list string) (ar : option string)
    (res : option Resolution) (path : string) (n : Z) : ImageGenerateOptions :=
  {| prompt := "add a hat"; outputPath := path; model := None;
     referenceImages := Some refs; aspectRatio := ar; outputFormat := None;
     resolution := res; numImages := Some n; enableWebSearch := None |}.

Definition mixed_inputs : list string :=
  ["https://x/y.jpg"; "data:image/png;base64,AAAA"; "http://x/z.png"].

(** An endpoint that never answers within the timeout. *)
Definition stalled_world : World :=
  world_answering (fun _ => Build_Timed 200000 (Ok one_image)) (fun _ => []).

Definition four_references : ImageGenerateOptions :=
  request ["a.png"; "b.png"; "c.png"; "d.png"] (Some "7:7") None "/tmp/x.png" 1.

(** A world with an empty disk and a storage that never answers. *)
Definition barren_world : World :=
  {| w_upload := fun _ _ => Build_Timed 45000 (Ok "https://storage/late");
     w_subscribe := fun _ _ _ => Build_Timed 100 (Throw "HTTP 503");
     w_fetch := fun _ _ => Build_Timed 5 (Throw "fetch failed");
     w_exists := fun _ _ => false;
     w_readFile := fun _ => Throw "ENOENT";
     w_mkdir := fun _ => None;
     w_writeFile := fun _ => None;
     w_base64 := fun _ => [];
     w_dirname := fun _ => "/tmp";
     w_extname := fun _ => ".png" |}.

(** A call of the tool for the high-fidelity model. *)
Definition red_cube_call : ToolArguments :=
  {| a_prompt := Some "a red cube"; a_output_path := Some "/tmp/cube.png";
     a_model := Some "nano-banana-pro"; a_reference_images := None;
     a_aspect_ratio := Some "16:9" |}.

(** A call of the tool for the high-fidelity model, as it arrives. *)
Definition red_cube_arguments : RawArguments :=
  {| raw_prompt := JsString "a red cube"; raw_output_path := JsString "/tmp/cube.png";
     raw_model := Some "nano-banana-pro"; raw_reference_images := None;
     raw_aspect_ratio := Some "16:9" |}.

(** * Properties *)

(** ** Strings *)

Lemma prefix_empty (s : string) : String.prefix "" s = true.
Proof. now destruct s. Qed.

Lemma prefix_append (p rest : string) : String.prefix p (p +:+ rest) = true.
Proof.
  induction p as [|c p IH]; simpl.
  - apply prefix_empty.
  - destruct (ascii_dec c c) as [_|ne]; [exact IH | now destruct ne].
Qed.

Lemma prefix_inv (p s : string) :
  String.prefix p s = true -> exists rest, s = p +:+ rest.
Proof.
  revert s; induction p as [|c p IH]; intros s H.
  - now exists s.
  - destruct s as [|d s]; simpl in H; [discriminate|].
    destruct (ascii_dec c d) as [->|]; [|discriminate].
    destruct (IH _ H) as [rest ->]. now exists rest.
Qed.

Lemma prefix_toLowerCase (p s : string) :
  String.prefix p s = true ->
  String.prefix (JS.toLowerCase p) (JS.toLowerCase s) = true.
Proof.
  intros H. destruct (prefix_inv _ _ H) as [rest ->]. clear H.
  induction p as [|c p IH]; simpl.
  - apply prefix_empty.
  - destruct (ascii_dec (JS.lower_code_unit c) (JS.lower_code_unit c)) as [_|ne];
      [exact IH | now destruct ne].
Qed.

Lemma includes_toLowerCase (s p : string) :
  JS.includes s p = true ->
  JS.includes (JS.toLowerCase s) (JS.toLowerCase p) = true.
Proof.
  induction s as [|c s IH]; cbn [JS.includes]; intros H.
  - apply orb_true_iff in H as [H|H]; [|discriminate].
    apply prefix_toLowerCase in H. cbn [JS.includes JS.toLowerCase] in *.
    now rewrite H.
  - cbn [JS.toLowerCase JS.includes].
    apply orb_true_iff in H as [H|H].
    + apply prefix_toLowerCase in H. cbn [JS.toLowerCase] in H. now rewrite H.
    + rewrite (IH H). apply orb_true_r.
Qed.

(** ** The input classifier *)

(** C9.  The kind of a reference-image input is decided by its prefix
    alone: it is [data_url] exactly for the strings that begin with
    [data:], [url] exactly for the others that begin with [http://] or
    [https://], and [local_file] exactly for the rest. *)
Theorem getImageInputType_by_prefix (input : string) :
  (getImageInputType input = data_url <->
     exists rest, input = "data:" +:+ rest) /\
  (getImageInputType input = url <->
     (exists rest, input = "http://" +:+ rest)
     \/ (exists rest, input = "https://" +:+ rest)) /\
  (getImageInputType input = local_file <->
     ~ (exists rest, input = "data:" +:+ rest)
     /\ ~ (exists rest, input = "http://" +:+ rest)
     /\ ~ (exists rest, input = "https://" +:+ rest)).
Proof.
  assert (P : forall p, String.prefix p input = true <->
                        exists rest, input = p +:+ rest).
  { intros p; split; [apply prefix_inv | intros [r ->]; apply prefix_append]. }
  assert (N : forall p, String.prefix p input = false ->
                        ~ exists rest, input = p +:+ rest).
  { intros p E H. apply P in H. congruence. }
  unfold getImageInputType, JS.startsWith.
  destruct (String.prefix "data:" input) eqn:Ed.
  - apply P in Ed as [r0 ->].
    repeat split; try discriminate; eauto.
    + intros [[r H]|[r H]]; discriminate H.
    + intros (H & _). destruct H. eauto.
  - apply N in Ed.
    destruct (String.prefix "http://" input) eqn:Eh; simpl.
    + apply P in Eh.
      repeat split; try discriminate; tauto.
    + apply N in Eh.
      destruct (String.prefix "https://" input) eqn:Es.
      * apply P in Es.
        repeat split; try discriminate; tauto.
      * apply N in Es.
        repeat split; try discriminate; tauto.
Qed.

(** ** The error classifiers *)

Ltac split_includes :=
  repeat match goal with
         | |- context [JS.includes ?m ?p] =>
             destruct (JS.includes m p); cbn [orb andb negb]
         | |- context [status_is ?st ?n] =>
             destruct (status_is st n); cbn [orb andb negb]
         end.

Lemma categorizeError_table (error : Failure) (provider : MCPProvider) :
  category (categorizeError error provider) =
  first_match categorizeError_rules API_ERROR (f_status error) (f_message error).
Proof.
  unfold categorizeError, categorizeError_rules, first_match, fires.
  cbn [existsb r_codes r_patterns r_category].
  split_includes; reflexivity.
Qed.

Lemma catchErrorType_table (errorMessage : string) :
  catchErrorType errorMessage =
  first_match generate_catch_rules GENERATION_ERROR None errorMessage.
Proof.
  unfold catchErrorType, generate_catch_rules, first_match, fires.
  cbn [existsb r_codes r_patterns r_category].
  split_includes; reflexivity.
Qed.

(** C4, as the specification states it, fails on both classifiers of the
    code: [categorizeError] has no rule for "authentication" (nor for
    "429" or "too many requests" in the text) and files
    "Rate limit exceeded (429)" under API_ERROR when no status code comes
    with it; the [catch] block of [generate] has no rule for "timed out"
    (nor for "invalid"). *)
Lemma classifiers_differ_from_spec_table :
  (category (categorizeError
               {| f_message := "authentication failed"; f_status := None |} Fal)
   = API_ERROR
   /\ forall blocked dflt,
        first_match (spec_rules blocked) dflt None "authentication failed"
        = AUTH_ERROR)
  /\ (catchErrorType "timed out" = GENERATION_ERROR
      /\ forall blocked dflt,
           first_match (spec_rules blocked) dflt None "timed out" = TIMEOUT)
  /\ (category (categorizeError
                  {| f_message := "Rate limit exceeded (429)"; f_status := None |} Fal)
      = API_ERROR
      /\ forall blocked dflt,
           first_match (spec_rules blocked) dflt None "Rate limit exceeded (429)"
           = RATE_LIMIT).
Proof.
  repeat split; intros; vm_compute; reflexivity.
Qed.

(** C4, amended.  Each classifier is a total function that follows its own
    ordered table, first match wins.  [categorizeError]: status 401,
    "API key", "unauthorized" give AUTH_ERROR; status 429, "quota", "rate"
    give RATE_LIMIT; "safety", "blocked" give SAFETY_BLOCK; status 422,
    "422", "invalid" give VALIDATION_ERROR; "TIMEOUT", "timed out" give
    TIMEOUT; anything else API_ERROR.  The [catch] block of [generate]:
    "API key", "unauthorized", "authentication" give AUTH_ERROR; "quota",
    "rate", "429", "too many requests" give RATE_LIMIT; "safety",
    "blocked", "content policy" give CONTENT_BLOCKED; "TIMEOUT" gives
    TIMEOUT; "Unprocessable Entity", "422" give INVALID_REQUEST; anything
    else GENERATION_ERROR.  "Invalid API key" is AUTH_ERROR under both;
    "Rate limit exceeded (429)" is RATE_LIMIT under the [catch] block, and
    under [categorizeError] when status 429 comes with it. *)
Theorem classifiers_follow_their_tables :
  (forall error provider,
     category (categorizeError error provider) =
     first_match categorizeError_rules API_ERROR (f_status error) (f_message error))
  /\ (forall errorMessage,
        catchErrorType errorMessage =
        first_match generate_catch_rules GENERATION_ERROR None errorMessage)
  /\ (forall status provider,
        category (categorizeError
                    {| f_message := "Invalid API key"; f_status := status |} provider)
        = AUTH_ERROR)
  /\ catchErrorType "Invalid API key" = AUTH_ERROR
  /\ catchErrorType "Rate limit exceeded (429)" = RATE_LIMIT
  /\ category (categorizeError
                 {| f_message := "Rate limit exceeded (429)"; f_status := Some 429 |} Fal)
     = RATE_LIMIT.
Proof.
  split; [exact categorizeError_table|].
  split; [exact catchErrorType_table|].
  split.
  - intros status provider. unfold categorizeError. cbn [f_message f_status].
    replace (JS.includes "Invalid API key" "API key") with true by (vm_compute; reflexivity).
    now rewrite orb_true_r.
  - repeat split; vm_compute; reflexivity.
Qed.

(** ** The resilient invoker *)

(** One turn of the loop of [withRetry]. *)
Lemma retry_loop_step {T} (fn : M T) (o : RetryOptions) (iters : nat)
    (attempt_no delay : Z) (lastError : string) (s : State) :
  retry_loop fn o (S iters) attempt_no delay lastError s =
  match fn s with
  | (Ok v, s') => (Ok v, s')
  | (Throw e, s') =>
      if (attempt_no =? opts.maxRetries o)
         || negb (isRetryable e (opts.retryableErrors o))
      then (Throw e, s')
      else retry_loop fn o iters (attempt_no + 1)
             (Z.min (delay * opts.backoffMultiplier o) (opts.maxDelayMs o))
             e (rested delay s')
  end.
Proof.
  cbn [retry_loop]. unfold try_catch.
  destruct (fn s) as [[v|e] s']; [reflexivity|].
  destruct ((attempt_no =? opts.maxRetries o)
            || negb (isRetryable e (opts.retryableErrors o))); reflexivity.
Qed.

Section Invoker.

Variable w : World.
Variables (modelId : string) (input : Payload).

Lemma attempt_eq (s : State) :
  attempt w modelId input s =
  let t := w_subscribe w (calls s) modelId input in
  if dur t <=? DEFAULT_TIMEOUT_MS
  then (settled t, called modelId input (dur t) s)
  else (Throw (timeout_message DEFAULT_TIMEOUT_MS),
        called modelId input DEFAULT_TIMEOUT_MS s).
Proof.
  unfold attempt, withTimeout, fal_subscribe, called, set_now.
  cbn [now uploads calls fetches trace].
  replace (now s + dur (w_subscribe w (calls s) modelId input) - now s)
    with (dur (w_subscribe w (calls s) modelId input)) by lia.
  reflexivity.
Qed.

Lemma timeout_not_retryable :
  isRetryable (timeout_message DEFAULT_TIMEOUT_MS) generate_retryable = false.
Proof. vm_compute. reflexivity. Qed.

(** What an attempt leaves behind, whatever its outcome. *)
Lemma attempt_state (s : State) :
  let s' := (attempt w modelId input s).2 in
  calls s' = S (calls s)
  /\ trace s' = trace s ++ [EvSubscribe modelId input]
  /\ now s' - now s <= DEFAULT_TIMEOUT_MS.
Proof.
  rewrite attempt_eq. cbv zeta.
  destruct (Z.leb_spec (dur (w_subscribe w (calls s) modelId input))
                       DEFAULT_TIMEOUT_MS);
    cbn [snd called calls trace now]; repeat split; lia.
Qed.

Lemma invoke_unfold (s : State) :
  invoke w modelId input s =
  match attempt w modelId input s with
  | (Ok v, s1) => (Ok v, s1)
  | (Throw e1, s1) =>
      if isRetryable e1 generate_retryable then
        match attempt w modelId input (rested 1000 s1) with
        | (Ok v, s2) => (Ok v, s2)
        | (Throw e2, s2) =>
            if isRetryable e2 generate_retryable
            then attempt w modelId input (rested 2000 s2)
            else (Throw e2, s2)
        end
      else (Throw e1, s1)
  end.
Proof.
  unfold invoke, withRetry.
  change (Z.to_nat (opts.maxRetries generate_retry_options + 1)) with 3%nat.
  cbn [retry_loop]. unfold try_catch, bind, sleep, throw.
  change (opts.retryableErrors generate_retry_options) with generate_retryable.
  change (opts.maxRetries generate_retry_options) with 2.
  change (opts.initialDelayMs generate_retry_options) with 1000.
  change (opts.backoffMultiplier generate_retry_options) with 2.
  change (opts.maxDelayMs generate_retry_options) with 30000.
  destruct (attempt w modelId input s) as [[v|e1] s1]; [reflexivity|].
  cbn [Z.eqb orb]. destruct (isRetryable e1 generate_retryable); cbn [negb]; [|reflexivity].
  change (Z.min (1000 * 2) 30000) with 2000.
  fold (rested 1000 s1).
  destruct (attempt w modelId input (rested 1000 s1)) as [[v|e2] s2]; [reflexivity|].
  change (0 + 1 =? 2) with false. cbn [orb].
  destruct (isRetryable e2 generate_retryable); cbn [negb]; [|reflexivity].
  fold (rested 2000 s2).
  destruct (attempt w modelId input (rested 2000 s2)) as [[v|e3] s3]; reflexivity.
Qed.

Lemma sleeps_app (a b : list Event) : sleeps (a ++ b) = sleeps a ++ sleeps b.
Proof. apply omap_app. Qed.

Lemma slept_app (a b : list Event) : slept (a ++ b) = slept a + slept b.
Proof.
  unfold slept. rewrite sleeps_app.
  induction (sleeps a) as [|x l IH]; cbn [foldr app]; lia.
Qed.

Ltac attempt_at s0 s1 :=
  let F := fresh "F" in
  pose proof (attempt_state s0) as F; cbv zeta in F;
  destruct (attempt w modelId input s0) as [[?v|?e] s1];
  cbn [fst snd] in F |- *;
  destruct F as (?Fc & ?Ft & ?Fn).

Ltac within_budget := unfold DEFAULT_TIMEOUT_MS in *; cbn in *; lia.

Ltac count_calls := cbn [snd calls rested advance emit] in *; lia.

(** C2, amended.  A failed attempt is followed by another one exactly when
    fewer than two retries were made and its message contains, without
    regard to case, one of RATE_LIMIT, 429, 503, 502, ECONNRESET,
    ETIMEDOUT (the list that [generate] passes, which replaces the default
    one); a failure matching none of them propagates at once, leaving the
    state as the attempt left it. *)
Theorem invoke_retries_on_generate_signals (s : State) :
  let first := attempt w modelId input s in
  let second := attempt w modelId input (rested 1000 first.2) in
  let run := invoke w modelId input s in
  (1 <= calls run.2 - calls s <= 3)%nat
  /\ (forall v, first.1 = Ok v -> run = (Ok v, first.2))
  /\ (forall e, first.1 = Throw e ->
         (isRetryable e generate_retryable = true
          <-> (2 <= calls run.2 - calls s)%nat)
         /\ (isRetryable e generate_retryable = false -> run = (Throw e, first.2)))
  /\ (forall e1 e2, first.1 = Throw e1 ->
         isRetryable e1 generate_retryable = true ->
         second.1 = Throw e2 ->
         (isRetryable e2 generate_retryable = true
          <-> (calls run.2 - calls s = 3)%nat)
         /\ (isRetryable e2 generate_retryable = false -> run = (Throw e2, second.2)))
  /\ (forall e, isRetryable e generate_retryable = true <->
         exists p, In p generate_retryable
                   /\ JS.includes (JS.toLowerCase e) (JS.toLowerCase p) = true).
Proof.
  cbv zeta. rewrite invoke_unfold.
  split; [|split; [|split; [|split]]].
  - attempt_at s s1; [count_calls|].
    destruct (isRetryable e generate_retryable); [|count_calls].
    attempt_at (rested 1000 s1) s2; [count_calls|].
    destruct (isRetryable e0 generate_retryable); [|count_calls].
    attempt_at (rested 2000 s2) s3; count_calls.
  - intros v. attempt_at s s1; congruence.
  - intros e'. attempt_at s s1; [discriminate|]. intros [= <-].
    destruct (isRetryable e generate_retryable) eqn:R.
    + split; [|discriminate]. split; [intros _|reflexivity].
      attempt_at (rested 1000 s1) s2; [count_calls|].
      destruct (isRetryable e0 generate_retryable); [|count_calls].
      attempt_at (rested 2000 s2) s3; count_calls.
    + split; [|reflexivity]. split; [discriminate|]. count_calls.
  - intros e1' e2'. attempt_at s s1; [discriminate|]. intros [= <-] R1.
    rewrite R1. attempt_at (rested 1000 s1) s2; [discriminate|]. intros [= <-].
    destruct (isRetryable e0 generate_retryable) eqn:R2.
    + split; [|discriminate]. split; [intros _|reflexivity].
      attempt_at (rested 2000 s2) s3; count_calls.
    + split; [|reflexivity]. split; [discriminate|]. count_calls.
  - intros e. unfold isRetryable. rewrite existsb_exists. reflexivity.
Qed.

(** A timed-out attempt ends the loop wherever it stands. *)
Lemma retry_loop_timeout (o : RetryOptions) (iters : nat) (attempt_no delay : Z)
    (lastError : string) (s : State) :
  opts.retryableErrors o = generate_retryable ->
  DEFAULT_TIMEOUT_MS < dur (w_subscribe w (calls s) modelId input) ->
  retry_loop (attempt w modelId input) o (S iters) attempt_no delay lastError s
  = (Throw (timeout_message DEFAULT_TIMEOUT_MS),
     called modelId input DEFAULT_TIMEOUT_MS s).
Proof.
  intros Ho Hd. rewrite retry_loop_step, attempt_eq. cbv zeta.
  destruct (Z.leb_spec (dur (w_subscribe w (calls s) modelId input))
                       DEFAULT_TIMEOUT_MS); [lia|].
  rewrite Ho, timeout_not_retryable. cbn [negb]. rewrite orb_true_r. reflexivity.
Qed.

(** C1, amended.  Every attempt is raced against a 180-second timer of its
    own.  An attempt that is still pending when its timer fires, that is,
    one that takes more than 180 seconds, ends the whole operation with
    the TIMEOUT error, whatever retries remain (the message matches no
    retryable signal); an attempt that settles within 180 seconds, the
    180th included, keeps its own outcome.  As there are at most three
    attempts, the time spent in attempts, backoff sleeps excluded, never
    exceeds three times 180 seconds. *)
Theorem deadline_is_per_attempt (s : State) :
  (forall iters attempt_no delay lastError,
     DEFAULT_TIMEOUT_MS < dur (w_subscribe w (calls s) modelId input) ->
     retry_loop (attempt w modelId input) generate_retry_options
                (S iters) attempt_no delay lastError s
     = (Throw (timeout_message DEFAULT_TIMEOUT_MS),
        called modelId input DEFAULT_TIMEOUT_MS s))
  /\ (dur (w_subscribe w (calls s) modelId input) <= DEFAULT_TIMEOUT_MS ->
      attempt w modelId input s
      = (settled (w_subscribe w (calls s) modelId input),
         called modelId input (dur (w_subscribe w (calls s) modelId input)) s))
  /\ (now (attempt w modelId input s).2 - now s <= DEFAULT_TIMEOUT_MS)
  /\ (exists evs,
        trace (invoke w modelId input s).2 = trace s ++ evs
        /\ now (invoke w modelId input s).2 - now s - slept evs
           <= 3 * DEFAULT_TIMEOUT_MS).
Proof.
  split; [|split; [|split]].
  - intros. now apply retry_loop_timeout.
  - intros Hd. rewrite attempt_eq. cbv zeta.
    destruct (Z.leb_spec (dur (w_subscribe w (calls s) modelId input))
                         DEFAULT_TIMEOUT_MS); [reflexivity|lia].
  - apply attempt_state.
  - rewrite invoke_unfold.
    attempt_at s s1.
    { eexists; split; [exact Ft|]. within_budget. }
    destruct (isRetryable e generate_retryable); cbn [snd].
    2:{ eexists; split; [exact Ft|]. within_budget. }
    attempt_at (rested 1000 s1) s2.
    { eexists; split;
        [rewrite Ft0; cbn [trace rested advance emit]; rewrite Ft, <- !app_assoc;
         reflexivity|].
      within_budget. }
    destruct (isRetryable e0 generate_retryable); cbn [snd].
    2:{ eexists; split;
        [rewrite Ft0; cbn [trace rested advance emit]; rewrite Ft, <- !app_assoc;
         reflexivity|].
      within_budget. }
    attempt_at (rested 2000 s2) s3;
      (eexists; split;
        [rewrite Ft1; cbn [trace rested advance emit];
         rewrite Ft0; cbn [trace rested advance emit];
         rewrite Ft, <- !app_assoc; reflexivity|];
       within_budget).
Qed.

Lemma backoff_next (k : nat) :
  Z.min (backoff k * 2) 30000 = backoff (S k).
Proof.
  unfold backoff. rewrite Nat2Z.inj_succ, Z.pow_succ_r by lia.
  assert (0 < 2 ^ Z.of_nat k) by (apply Z.pow_pos_nonneg; lia).
  lia.
Qed.

(** The shape of a run of the retry loop under the default delays:
    attempts separated by the sleeps [backoff k], [backoff (k+1)], ... *)
Lemma retry_loop_shape (o : RetryOptions) (iters : nat) :
  opts.backoffMultiplier o = 2 -> opts.maxDelayMs o = 30000 ->
  forall (attempt_no : Z) (k : nat) (lastError : string) (s : State),
    attempt_no + Z.of_nat (S iters) = opts.maxRetries o + 1 ->
    exists m, (m <= iters)%nat
      /\ trace (retry_loop (attempt w modelId input) o (S iters) attempt_no
                           (backoff k) lastError s).2
         = trace s ++ EvSubscribe modelId input ::
             flat_map (fun j => [EvSleep (backoff j); EvSubscribe modelId input])
                      (seq k m).
Proof.
  intros Hm Hc. induction iters as [|iters IH]; intros a k le s Hinv.
  - exists 0%nat. split; [lia|]. rewrite retry_loop_step.
    attempt_at s s1; [exact Ft|].
    replace (a =? opts.maxRetries o) with true by (symmetry; apply Z.eqb_eq; lia).
    cbn [orb snd]. exact Ft.
  - rewrite retry_loop_step.
    attempt_at s s1.
    { exists 0%nat. split; [lia|exact Ft]. }
    destruct ((a =? opts.maxRetries o)
              || negb (isRetryable e (opts.retryableErrors o))).
    { exists 0%nat. split; [lia|exact Ft]. }
    rewrite Hm, Hc, backoff_next.
    destruct (IH (a + 1) (S k) e (rested (backoff k) s1)) as (m & Hle & Ht); [lia|].
    exists (S m). split; [lia|].
    rewrite Ht.
    cbn [trace rested advance emit seq flat_map]. rewrite Ft, <- !app_assoc. reflexivity.
Qed.

(** C5.  Under the default delays, a run of the invoker is a sequence of
    attempts in which retry [k] (from 0) is preceded by a sleep of
    [min (1000 * 2^k) 30000] milliseconds and nothing precedes the first
    attempt; and when the first two attempts fail with messages that
    contain 429 and the third succeeds, each within its timeout, the
    invoker returns that response after sleeping 1000 and then 2000
    milliseconds. *)
Theorem backoff_schedule (s : State) :
  (forall o : RetryOptions,
     initialDelayMs o = None -> maxDelayMs o = None -> backoffMultiplier o = None ->
     exists n, (n <= Z.to_nat (opts.maxRetries o + 1))%nat
       /\ trace (withRetry (attempt w modelId input) o s).2
          = trace s ++ attempts_trace modelId input n)
  /\ backoff 0 = 1000 /\ backoff 1 = 2000
  /\ (forall k, backoff (S k) = Z.min (backoff k * 2) 30000)
  /\ (forall k, (5 <= k)%nat -> backoff k = 30000)
  /\ (forall e1 e2 d1 d2 d3 response,
        w_subscribe w (calls s) modelId input = Build_Timed d1 (Throw e1) ->
        w_subscribe w (S (calls s)) modelId input = Build_Timed d2 (Throw e2) ->
        w_subscribe w (S (S (calls s))) modelId input = Build_Timed d3 (Ok response) ->
        JS.includes e1 "429" = true -> JS.includes e2 "429" = true ->
        d1 < DEFAULT_TIMEOUT_MS -> d2 < DEFAULT_TIMEOUT_MS -> d3 < DEFAULT_TIMEOUT_MS ->
        (invoke w modelId input s).1 = Ok response
        /\ trace (invoke w modelId input s).2
           = trace s ++ attempts_trace modelId input 3
        /\ sleeps (attempts_trace modelId input 3) = [1000; 2000]
        /\ slept (attempts_trace modelId input 3) >= 1000 + 2000).
Proof.
  split; [|split; [|split; [|split; [|split]]]]; try reflexivity.
  - intros o Hi Hx Hb. unfold withRetry.
    assert (Ei : opts.initialDelayMs o = backoff 0)
      by (unfold opts.initialDelayMs; rewrite Hi; reflexivity).
    assert (Ex : opts.maxDelayMs o = 30000)
      by (unfold opts.maxDelayMs; rewrite Hx; reflexivity).
    assert (Eb : opts.backoffMultiplier o = 2)
      by (unfold opts.backoffMultiplier; rewrite Hb; reflexivity).
    rewrite Ei.
    destruct (Z.to_nat (opts.maxRetries o + 1)) as [|iters] eqn:En.
    + exists 0%nat. split; [lia|]. cbn. now rewrite app_nil_r.
    + destruct (retry_loop_shape o iters Eb Ex 0 0%nat "undefined" s)
        as (m & Hle & Ht); [lia|].
      exists (S m). split; [lia|]. exact Ht.
  - intros k. symmetry. apply backoff_next.
  - intros k Hk. unfold backoff.
    assert (2 ^ 5 <= 2 ^ Z.of_nat k) by (apply Z.pow_le_mono_r; lia).
    change (2 ^ 5) with 32 in *. lia.
  - intros e1 e2 d1 d2 d3 response A1 A2 A3 I1 I2 L1 L2 L3.
    assert (R : forall e, JS.includes e "429" = true ->
                          isRetryable e generate_retryable = true).
    { intros e I. unfold isRetryable, generate_retryable. cbn [existsb].
      apply includes_toLowerCase in I. change (JS.toLowerCase "429") with "429" in *.
      rewrite I. now rewrite orb_true_r. }
    rewrite invoke_unfold, attempt_eq, A1. cbn [dur settled].
    destruct (Z.leb_spec d1 DEFAULT_TIMEOUT_MS); [|lia].
    rewrite (R _ I1), attempt_eq. cbn [calls rested advance emit called].
    rewrite A2. cbn [dur settled].
    destruct (Z.leb_spec d2 DEFAULT_TIMEOUT_MS); [|lia].
    rewrite (R _ I2), attempt_eq. cbn [calls rested advance emit called].
    rewrite A3. cbn [dur settled].
    destruct (Z.leb_spec d3 DEFAULT_TIMEOUT_MS); [|lia].
    cbn [fst snd trace called rested advance emit].
    repeat split.
    + rewrite <- !app_assoc. reflexivity.
    + change (slept (attempts_trace modelId input 3)) with 3000. lia.
Qed.

End Invoker.

(** C1 as stated fails: the endpoint fails the first attempt with a
    rate-limit message after 179 s and answers the second after another
    179 s; the invoker returns that answer, and the attempts have taken
    358 s, more than one deadline of 180 s. *)
Lemma attempts_outlast_one_deadline :
  (invoke slow_world "fal-ai/nano-banana" sample_payload (initial 0)).1 = Ok one_image
  /\ now (invoke slow_world "fal-ai/nano-banana" sample_payload (initial 0)).2
     - slept (trace (invoke slow_world "fal-ai/nano-banana" sample_payload (initial 0)).2)
     = 358000
  /\ DEFAULT_TIMEOUT_MS < 358000.
Proof. repeat split; vm_compute; reflexivity. Qed.

(** C2 as stated fails: "temporarily unavailable" is a retryable signal of
    the default list only; [generate] passes its own list, so the failure
    propagates after one attempt, without a sleep. *)
Lemma temporarily_unavailable_is_not_retried :
  isRetryable "Service temporarily unavailable"
              DEFAULT_RETRY_OPTIONS.retryableErrors = true
  /\ invoke unavailable_world "fal-ai/nano-banana" sample_payload (initial 0)
     = (Throw "Service temporarily unavailable",
        called "fal-ai/nano-banana" sample_payload 40 (initial 0))
  /\ calls (invoke unavailable_world "fal-ai/nano-banana" sample_payload (initial 0)).2
     = 1%nat
  /\ sleeps (trace (invoke unavailable_world "fal-ai/nano-banana" sample_payload
                           (initial 0)).2) = [].
Proof. repeat split; vm_compute; reflexivity. Qed.

(** The schedule at work: two failures with 429, then a success. *)
Lemma backoff_schedule_witness :
  (invoke throttled_world "fal-ai/nano-banana" sample_payload (initial 0)).1
  = Ok one_image
  /\ trace (invoke throttled_world "fal-ai/nano-banana" sample_payload (initial 0)).2
     = trace (initial 0) ++ attempts_trace "fal-ai/nano-banana" sample_payload 3
  /\ sleeps (attempts_trace "fal-ai/nano-banana" sample_payload 3) = [1000; 2000]
  /\ slept (attempts_trace "fal-ai/nano-banana" sample_payload 3) >= 1000 + 2000.
Proof.
  refine (proj2 (proj2 (proj2 (proj2 (proj2
    (backoff_schedule throttled_world "fal-ai/nano-banana" sample_payload (initial 0))))))
    "HTTP 429 Too Many Requests" "status 429" 300 300 5000 one_image
    _ _ _ _ _ _ _ _); reflexivity.
Defined.

(** ** Effects of the pipeline, kind by kind *)

Section Effects.

Variable w : World.

Lemma emits_silent {A} (kinds : list Kind) (m : M A) :
  (forall s, trace (m s).2 = trace s) -> emits kinds m.
Proof.
  intros H s. exists []. rewrite H, app_nil_r. split; [reflexivity|constructor].
Qed.

Lemma emits_one {A} (kinds : list Kind) (m : M A) (e : State -> Event) :
  (forall s, trace (m s).2 = trace s ++ [e s]) ->
  (forall s, only kinds (e s)) -> emits kinds m.
Proof.
  intros H K s. exists [e s]. split; [apply H|]. constructor; [apply K|constructor].
Qed.

Lemma emits_weaken {A} (kinds kinds' : list Kind) (m : M A) :
  incl kinds kinds' -> emits kinds m -> emits kinds' m.
Proof.
  intros I H s. destruct (H s) as (evs & E & F). exists evs. split; [exact E|].
  eapply Forall_impl; [exact F|]. intros e. unfold only. apply I.
Qed.

Lemma emits_bind {A B} (kinds : list Kind) (m : M A) (k : A -> M B) :
  emits kinds m -> (forall a, emits kinds (k a)) -> emits kinds (bind m k).
Proof.
  intros Hm Hk s. unfold bind. destruct (Hm s) as (e1 & E1 & F1).
  destruct (m s) as [[a|msg] s1]; cbn [snd] in *.
  - destruct (Hk a s1) as (e2 & E2 & F2). exists (e1 ++ e2).
    split; [rewrite E2, E1, app_assoc; reflexivity|]. now apply Forall_app.
  - now exists e1.
Qed.

Lemma emits_try_catch {A} (kinds : list Kind) (m : M A) (h : string -> M A) :
  emits kinds m -> (forall e, emits kinds (h e)) -> emits kinds (try_catch m h).
Proof.
  intros Hm Hh s. unfold try_catch. destruct (Hm s) as (e1 & E1 & F1).
  destruct (m s) as [[a|msg] s1]; cbn [snd] in *.
  - now exists e1.
  - destruct (Hh msg s1) as (e2 & E2 & F2). exists (e1 ++ e2).
    split; [rewrite E2, E1, app_assoc; reflexivity|]. now apply Forall_app.
Qed.

Lemma emits_withTimeout {A} (kinds : list Kind) (m : M A) (timeoutMs : Z) :
  emits kinds m -> emits kinds (withTimeout m timeoutMs).
Proof.
  intros Hm s. unfold withTimeout. destruct (Hm s) as (e1 & E1 & F1).
  destruct (m s) as [r s1]; cbn [snd] in *.
  destruct (now s1 - now s <=? timeoutMs); now exists e1.
Qed.

Lemma emits_ret {A} (kinds : list Kind) (a : A) : emits kinds (ret a).
Proof. now apply emits_silent. Qed.

Lemma emits_throw {A} (kinds : list Kind) (msg : string) : emits kinds (@throw A msg).
Proof. now apply emits_silent. Qed.

Lemma emits_lift {A} (kinds : list Kind) (r : Result A) : emits kinds (lift r).
Proof. now apply emits_silent. Qed.

Lemma emits_retry_loop {T} (kinds : list Kind) (fn : M T) (o : RetryOptions) :
  emits kinds fn -> In KSleep kinds ->
  forall iters attempt_no delay lastError,
    emits kinds (retry_loop fn o iters attempt_no delay lastError).
Proof.
  intros Hf Hs. induction iters as [|iters IH]; intros a d le; cbn [retry_loop].
  - apply emits_throw.
  - apply emits_try_catch; [exact Hf|]. intros e.
    destruct ((a =? opts.maxRetries o)
              || negb (isRetryable e (opts.retryableErrors o))).
    + apply emits_throw.
    + apply emits_bind; [|intros _; apply IH].
      apply emits_one with (e := fun _ => EvSleep d); [reflexivity|intros _; exact Hs].
Qed.

Lemma emits_upload (blob : Blob) : emits [KUpload] (fal_storage_upload w blob).
Proof.
  apply emits_one with (e := fun _ => EvUpload blob); [reflexivity|].
  intros _. now left.
Qed.

Lemma emits_processOne (image : string) : emits [KUpload] (processOne w image).
Proof.
  unfold processOne. destruct (getImageInputType image).
  - apply emits_ret.
  - apply emits_bind; [apply emits_lift|]. intros blob.
    apply emits_withTimeout, emits_upload.
  - apply emits_bind; [now apply emits_silent|]. intros found.
    destruct found; cbn [negb]; [|apply emits_throw].
    apply emits_bind; [apply emits_lift|]. intros buf.
    apply emits_withTimeout, emits_upload.
Qed.

Lemma emits_processReferenceImages (referenceImages : list string) :
  emits [KUpload] (processReferenceImages w referenceImages).
Proof.
  unfold processReferenceImages.
  assert (L : forall todo i acc, emits [KUpload] (processLoop w i todo acc)).
  { induction todo as [|image todo IH]; intros i acc; cbn [processLoop].
    - apply emits_ret.
    - apply emits_bind; [|intros u; apply IH].
      apply emits_try_catch; [apply emits_processOne|]. intros e. apply emits_throw. }
  destruct referenceImages; [apply emits_ret | apply L].
Qed.

Lemma emits_invoke (modelId : string) (input : Payload) :
  emits [KSubscribe; KSleep] (invoke w modelId input).
Proof.
  unfold invoke, withRetry. apply emits_retry_loop; [|cbn; tauto].
  unfold attempt. apply emits_withTimeout.
  apply emits_one with (e := fun _ => EvSubscribe modelId input); [reflexivity|].
  intros _. now left.
Qed.

Lemma emits_downloadAndSave (imageUrl outputPath : string) :
  emits [KFetch; KMkdir; KWrite] (downloadAndSave w imageUrl outputPath).
Proof.
  unfold downloadAndSave.
  apply emits_bind.
  { apply emits_one with (e := fun _ => EvFetch imageUrl); [reflexivity|].
    intros _. now left. }
  intros response. destruct (ok response); cbn [negb]; [|apply emits_throw].
  apply emits_bind; [apply emits_lift|]. intros buffer.
  apply emits_bind; [now apply emits_silent|]. intros found.
  apply emits_bind.
  - destruct (negb (String.eqb (w_dirname w outputPath) "") && negb found);
      [|apply emits_ret].
    intros s. unfold mkdirSync. destruct (w_mkdir w _).
    + exists []. now rewrite app_nil_r.
    + exists [EvMkdir (w_dirname w outputPath)]. split; [reflexivity|].
      constructor; [|constructor]. right; now left.
  - intros _ s. unfold writeFileSync. destruct (w_writeFile w _).
    + exists []. now rewrite app_nil_r.
    + exists [EvWrite outputPath buffer]. split; [reflexivity|].
      constructor; [|constructor]. right; right; now left.
Qed.

Lemma emits_saveImages (response : FalGenerateResponse) (outputPath : string)
    (numImages : Z) :
  emits [KFetch; KMkdir; KWrite] (saveImages w response outputPath numImages).
Proof.
  assert (L : forall more i, emits [KFetch; KMkdir; KWrite] (saveMore w outputPath i more)).
  { induction more as [|img more IH]; intros i; cbn [saveMore].
    - apply emits_ret.
    - apply emits_bind; [apply emits_downloadAndSave|]. intros _. apply IH. }
  unfold saveImages. destruct (images response) as [[|first more]|];
    try apply emits_throw.
  apply emits_bind; [apply emits_downloadAndSave|]. intros _.
  destruct ((numImages >? 1) && (Z.of_nat (length (first :: more)) >? 1));
    [apply L | apply emits_ret].
Qed.

Lemma emits_generate_try (options : ImageGenerateOptions) :
  emits [KUpload; KSubscribe; KSleep; KFetch; KMkdir; KWrite]
        (generate_try w options).
Proof.
  unfold generate_try. apply emits_bind.
  - destruct (Z.of_nat (length (default [] (referenceImages options))) >? 0);
      [|apply emits_ret].
    eapply emits_weaken; [|apply emits_processReferenceImages].
    intros k [<-|[]]. cbn; tauto.
  - intros urls. apply emits_bind.
    + eapply emits_weaken; [|apply emits_invoke].
      intros k [<-|[<-|[]]]; cbn; tauto.
    + intros response. eapply emits_weaken; [|apply emits_saveImages].
      intros k [<-|[<-|[<-|[]]]]; cbn; tauto.
Qed.

End Effects.

(** ** [generate] as a whole *)

Section Generate.

Variable w : World.

(** [generate] is: validate; run the [try] block; log one usage record and
    return or rethrow. *)
Lemma generate_unfold (options : ImageGenerateOptions) (s : State) :
  generate w options s =
  match validate_options options with
  | Throw msg => (Throw msg, s)
  | Ok _ =>
      match generate_try w options s with
      | (Ok _, s') =>
          (Ok {| imagePath := outputPath options;
                 r_model := default NanoBanana (model options);
                 usage := now s' - now s |},
           emit (EvUsage (usage_of options (now s) (now s') None)) s')
      | (Throw e, s') =>
          (Throw (classified e),
           emit (EvUsage (usage_of options (now s) (now s') (Some (classified e)))) s')
      end
  end.
Proof.
  unfold generate, validate_options, generate_try, request_input.
  unfold bind at 1. unfold Date_now at 1. cbv iota beta.
  unfold bind at 1. unfold lift at 1.
  destruct (validate _ _ _ _ _); [|reflexivity].
  unfold try_catch, bind, Date_now, logUsage, throw, ret, usage_of, classified.
  destruct ((if Z.of_nat (length (default [] (referenceImages options))) >? 0
             then processReferenceImages w (default [] (referenceImages options))
             else λ s0 : State, (Ok [], s0)) s) as [[urls|e] s1]; [|reflexivity].
  match goal with
  | |- context [invoke w ?id ?inp s1] =>
      destruct (invoke w id inp s1) as [[response|e] s2]; [|reflexivity]
  end.
  destruct (saveImages w response _ _ s2) as [[[]|e] s3]; reflexivity.
Qed.

Lemma includes_append_r (x y p : string) :
  JS.includes y p = true -> JS.includes (x +:+ y) p = true.
Proof.
  intros H. induction x as [|c x IH]; [exact H|].
  change (JS.includes (String c x +:+ y) p)
    with (String.prefix p (String c (x +:+ y)) || JS.includes (x +:+ y) p).
  rewrite IH. apply orb_true_r.
Qed.

Lemma member_eqb (a : string) (l : list string) :
  existsb (String.eqb a) l = true <-> In a l.
Proof.
  rewrite existsb_exists. split.
  - intros (x & Hin & E). apply String.eqb_eq in E. now subst.
  - intros Hin. exists a. split; [exact Hin|apply String.eqb_refl].
Qed.

Lemma has_references (refs : list string) :
  (Z.of_nat (length refs) >? 0) = negb (match refs with [] => true | _ => false end).
Proof. destruct refs; reflexivity. Qed.

Lemma validate_aspect_accepted (ar : option string) (refs : list string)
    (model : SupportedImageModel) (res : Resolution) :
  aspect_accepted ar refs ->
  validate ar (Z.of_nat (length refs) >? 0) refs model res =
  if Z.of_nat (length refs) >? MAX_REFERENCE_IMAGES model
  then Throw (too_many_references model)
  else if match model with NanoBananaPro => false | NanoBanana => true end
          && negb (match res with R1K => true | _ => false end)
       then Throw "Only nano-banana-pro supports 2K and 4K resolution"
       else Ok tt.
Proof.
  intros Ha. unfold validate.
  assert (E1 : truthy ar && (String.eqb (default "" ar) "auto"
                 && negb (Z.of_nat (length refs) >? 0)) = false).
  { destruct ar as [a|]; [|reflexivity]. cbn [truthy default id].
    destruct Ha as [->|[_ Hauto]]; [reflexivity|].
    destruct (String.eqb_spec a "auto") as [->|]; [|now rewrite andb_false_r].
    rewrite has_references. destruct refs; [now destruct Hauto|].
    now rewrite !andb_false_r. }
  assert (E2 : truthy ar && negb (existsb (String.eqb (default "" ar))
                                          ASPECT_RATIOS_WITH_AUTO) = false).
  { destruct ar as [a|]; [|reflexivity]. cbn [truthy default id].
    destruct Ha as [->|[Hin _]]; [reflexivity|].
    apply member_eqb in Hin. rewrite Hin. apply andb_false_r. }
  rewrite E1, E2. destruct model; reflexivity.
Qed.

Lemma validate_aspect_rejected (a : string) (refs : list string)
    (model : SupportedImageModel) (res : Resolution) :
  a <> "" -> ~ In a ASPECT_RATIOS_WITH_AUTO ->
  validate (Some a) (Z.of_nat (length refs) >? 0) refs model res
  = Throw (invalid_aspect_ratio a).
Proof.
  intros Hne Hnot. unfold validate. cbn [truthy default id].
  apply String.eqb_neq in Hne. rewrite Hne. cbn [negb andb].
  destruct (String.eqb_spec a "auto") as [->|].
  { destruct Hnot. now left. }
  cbn [andb].
  destruct (existsb (String.eqb a) ASPECT_RATIOS_WITH_AUTO) eqn:E.
  { apply member_eqb in E. contradiction. }
  reflexivity.
Qed.

(** C6, amended.  Validation comes first and has no effect of its own:
    when a check fails, [generate] throws its message and the state is the
    one it was called in (nothing was uploaded, requested or downloaded).
    The checks run in this order: "auto" without reference images; an
    aspect ratio outside the extended set; more reference images than the
    ceiling of the model (3 and 14), the message naming the ceiling; a
    resolution other than 1K with the fast model.  Four reference images
    with the fast model are always rejected: with the message of the
    ceiling, "Maximum 3 reference images allowed for nano-banana", when
    the aspect ratio passes the first two checks, and with the message of
    the aspect ratio otherwise. *)
Theorem validation_comes_first (options : ImageGenerateOptions) (s : State) :
  let refs := default [] (referenceImages options) in
  let model := default NanoBanana (model options) in
  let res := default R1K (resolution options) in
  (forall msg, validate_options options = Throw msg ->
     generate w options s = (Throw msg, s))
  /\ (aspectRatio options = Some "auto" -> refs = [] ->
      validate_options options = Throw auto_needs_references)
  /\ (forall a, aspectRatio options = Some a -> a <> "" ->
        ~ In a ASPECT_RATIOS_WITH_AUTO ->
        validate_options options = Throw (invalid_aspect_ratio a))
  /\ (aspect_accepted (aspectRatio options) refs ->
      Z.of_nat (length refs) > MAX_REFERENCE_IMAGES model ->
      validate_options options = Throw (too_many_references model))
  /\ (aspect_accepted (aspectRatio options) refs ->
      Z.of_nat (length refs) <= MAX_REFERENCE_IMAGES model ->
      model = NanoBanana -> res <> R1K ->
      validate_options options
      = Throw "Only nano-banana-pro supports 2K and 4K resolution")
  /\ (model = NanoBanana -> res <> R1K ->
      exists msg, validate_options options = Throw msg)
  /\ (length refs = 4%nat -> model = NanoBanana ->
      (exists msg, validate_options options = Throw msg)
      /\ (aspect_accepted (aspectRatio options) refs ->
          validate_options options
          = Throw "Maximum 3 reference images allowed for nano-banana")
      /\ (~ aspect_accepted (aspectRatio options) refs ->
          exists a, aspectRatio options = Some a
                    /\ validate_options options = Throw (invalid_aspect_ratio a)))
  /\ too_many_references NanoBanana
     = "Maximum 3 reference images allowed for nano-banana"
  /\ too_many_references NanoBananaPro
     = "Maximum 14 reference images allowed for nano-banana-pro".
Proof.
  cbv zeta. split.
  { intros msg E. rewrite generate_unfold. now rewrite E. }
  unfold validate_options.
  generalize (default [] (referenceImages options)) as refs.
  generalize (default NanoBanana (model options)) as mdl.
  generalize (default R1K (resolution options)) as res.
  intros res mdl refs.
  split; [|split; [|split; [|split; [|split; [|split; [|split]]]]]];
    try reflexivity.
  - intros -> ->. reflexivity.
  - intros a -> Hne Hnot. now apply validate_aspect_rejected.
  - intros Ha Hlen. rewrite validate_aspect_accepted by exact Ha.
    destruct (Z.gtb_spec (Z.of_nat (length refs)) (MAX_REFERENCE_IMAGES mdl));
      [reflexivity|lia].
  - intros Ha Hlen -> Hres. rewrite validate_aspect_accepted by exact Ha.
    destruct (Z.gtb_spec (Z.of_nat (length refs)) (MAX_REFERENCE_IMAGES NanoBanana));
      [lia|].
    destruct res; [now destruct Hres|reflexivity|reflexivity].
  - intros -> Hres.
    destruct (validate (aspectRatio options) (Z.of_nat (length refs) >? 0)
                       refs NanoBanana res) as [[]|msg] eqn:E; [|now exists msg].
    exfalso. unfold validate in E.
    destruct res; [now destruct Hres| |]; cbn [negb andb] in E;
      repeat match type of E with
             | (if ?c then _ else _) = _ => destruct c; try discriminate
             end.
  - intros Hlen ->.
    assert (Hrefs : refs <> []) by (intros E; rewrite E in Hlen; discriminate).
    assert (Hcount : (Z.of_nat (length refs) >? MAX_REFERENCE_IMAGES NanoBanana) = true)
      by (rewrite Hlen; reflexivity).
    assert (Hacc : aspect_accepted (aspectRatio options) refs ->
                   validate (aspectRatio options) (Z.of_nat (length refs) >? 0)
                            refs NanoBanana res
                   = Throw "Maximum 3 reference images allowed for nano-banana").
    { intros Ha. rewrite validate_aspect_accepted by exact Ha.
      rewrite Hcount. reflexivity. }
    assert (Hrej : ~ aspect_accepted (aspectRatio options) refs ->
                   exists a, aspectRatio options = Some a
                             /\ validate (aspectRatio options)
                                          (Z.of_nat (length refs) >? 0)
                                          refs NanoBanana res
                                = Throw (invalid_aspect_ratio a)).
    { intros Hn. destruct (aspectRatio options) as [a|] eqn:Ea.
      2:{ now destruct Hn. }
      exists a. split; [reflexivity|].
      apply validate_aspect_rejected.
      - intros ->. apply Hn. now left.
      - intros Hin. apply Hn. right. split; [exact Hin|]. intros _. exact Hrefs. }
    split; [|split; [exact Hacc|exact Hrej]].
    destruct (aspectRatio options) as [a|] eqn:Ea.
    2:{ eexists. now apply Hacc. }
    destruct (String.eqb_spec a "") as [->|Hne].
    { eexists. apply Hacc. now left. }
    destruct (existsb (String.eqb a) ASPECT_RATIOS_WITH_AUTO) eqn:Em.
    + apply member_eqb in Em. eexists. apply Hacc.
      right. split; [exact Em|]. intros _. exact Hrefs.
    + exists (invalid_aspect_ratio a).
      apply validate_aspect_rejected; [exact Hne|].
      intros Hin. apply member_eqb in Hin. congruence.
Qed.

(** C6 as stated fails: four reference images with the fast model and an
    aspect ratio outside the extended set are rejected by the check of the
    aspect ratio, which comes first; the message is not that of the
    ceiling, whose digit 3 it contains only in its list of ratios. *)
Lemma four_references_fail_on_the_aspect_ratio :
  generate serving_world four_references (initial 0)
  = (Throw (invalid_aspect_ratio "7:7"), initial 0)
  /\ length (default [] (referenceImages four_references)) = 4%nat
  /\ default NanoBanana (model four_references) = NanoBanana
  /\ String.eqb (invalid_aspect_ratio "7:7") (too_many_references NanoBanana) = false
  /\ JS.includes (invalid_aspect_ratio "7:7") "Maximum" = false
  /\ JS.includes (invalid_aspect_ratio "7:7") "reference images" = false.
Proof. repeat split; vm_compute; reflexivity. Qed.

(** C3 as stated fails: a request that validation rejects ends without a
    usage record. *)
Lemma rejected_request_logs_no_usage :
  generate unavailable_world (request [] (Some "auto") None "/tmp/x.png" 1) (initial 0)
  = (Throw auto_needs_references, initial 0)
  /\ usage_records
       (trace (generate unavailable_world
                 (request [] (Some "auto") None "/tmp/x.png" 1) (initial 0)).2)
     = [].
Proof. split; vm_compute; reflexivity. Qed.

Lemma usage_records_none (kinds : list Kind) (evs : list Event) :
  ~ In KUsage kinds -> Forall (only kinds) evs -> usage_records evs = [].
Proof.
  intros Hk F. induction F as [|e evs He F IH]; [reflexivity|].
  destruct e; try exact IH. now destruct Hk.
Qed.

(** C3, amended.  A call of [generate] that passes validation writes
    exactly one usage record, as its last effect, whether it returns a
    result or fails in the upload of a reference image, in the upstream
    call or in a download; the record says which.  A call that validation
    rejects writes none. *)
Theorem one_usage_record_past_validation (options : ImageGenerateOptions) (s : State) :
  (forall msg, validate_options options = Throw msg ->
     generate w options s = (Throw msg, s))
  /\ (validate_options options = Ok tt ->
      exists evs u,
        trace (generate w options s).2 = trace s ++ evs ++ [EvUsage u]
        /\ usage_records evs = []
        /\ usage_records (evs ++ [EvUsage u]) = [u]
        /\ success u = match (generate w options s).1 with
                       | Ok _ => true
                       | Throw _ => false
                       end).
Proof.
  split.
  - intros msg E. rewrite generate_unfold. now rewrite E.
  - intros E. rewrite generate_unfold, E.
    destruct (emits_generate_try w options s) as (evs & Et & F).
    assert (U : usage_records evs = []).
    { eapply usage_records_none; [|exact F]. cbn. intuition discriminate. }
    destruct (generate_try w options s) as [[[]|e] s']; cbn [fst snd] in *;
      eexists evs, _; cbn [trace emit]; rewrite Et, <- app_assoc;
      (split; [reflexivity|]); (split; [exact U|]);
      (split; [|reflexivity]);
      unfold usage_records in *; rewrite omap_app, U; reflexivity.
Qed.

End Generate.

(** ** The response materializer *)

Lemma append_cons (c : ascii) (x y : string) :
  String c x +:+ y = String c (x +:+ y).
Proof. reflexivity. Qed.

Lemma append_empty (y : string) : "" +:+ y = y.
Proof. reflexivity. Qed.

Lemma no_dot_append (x y : string) : no_dot (x +:+ "." +:+ y) = false.
Proof.
  induction x as [|c x IH]; [reflexivity|].
  rewrite append_cons. cbn [no_dot]. rewrite IH. apply andb_false_r.
Qed.

(** The pattern matches exactly the strings that end in a dot followed by
    one or more characters other than a dot. *)
Lemma ext_match_spec (path : string) :
  ext_match path = true <->
  exists stem ext, path = stem +:+ "." +:+ ext /\ ext <> "" /\ no_dot ext = true.
Proof.
  split.
  - induction path as [|c path IH]; [discriminate|].
    cbn [ext_match]. intros H. apply orb_true_iff in H as [H|H].
    + cbn [ext_here] in H. apply andb_true_iff in H as [H Hn].
      apply andb_true_iff in H as [Hc He].
      apply Ascii.eqb_eq in Hc. subst c. exists "", path. repeat split; [|exact Hn].
      intros ->. discriminate.
    + destruct (IH H) as (stem & ext & -> & Hne & Hn).
      exists (String c stem), ext. now repeat split.
  - intros (stem & ext & -> & Hne & Hn).
    induction stem as [|c stem IH].
    + rewrite append_empty, append_cons, append_empty.
      cbn [ext_match ext_here]. rewrite Hn.
      apply String.eqb_neq in Hne. now rewrite Hne.
    + rewrite append_cons. cbn [ext_match].
      rewrite IH. apply orb_true_r.
Qed.

(** Where the pattern matches, the suffix goes in front of the final dot. *)
Lemma replace_ext_match (stem ext ins : string) :
  ext <> "" -> no_dot ext = true ->
  replace_ext (stem +:+ "." +:+ ext) ins = stem +:+ ins +:+ "." +:+ ext.
Proof.
  intros Hne Hn. induction stem as [|c stem IH].
  - rewrite !append_empty, append_cons, append_empty.
    cbn [replace_ext ext_here]. rewrite Hn.
    apply String.eqb_neq in Hne. now rewrite Hne.
  - rewrite !(append_cons c stem). cbn [replace_ext ext_here].
    rewrite (no_dot_append stem ext), !andb_false_r. now rewrite IH.
Qed.

(** Where it does not match, the string is returned as it is. *)
Lemma replace_ext_no_match (path ins : string) :
  ext_match path = false -> replace_ext path ins = path.
Proof.
  induction path as [|c path IH]; [reflexivity|].
  cbn [ext_match replace_ext]. intros H.
  apply orb_false_iff in H as [H1 H2]. rewrite H1. now rewrite IH.
Qed.

(** The pattern does not stop at a slash: a dot in a directory name
    counts when the file name has none. *)
Example dotted_directory : numberedPath "/tmp.d/x" 1 = "/tmp_2.d/x".
Proof. reflexivity. Qed.

Section Materializer.

Variable w : World.
Hypothesis disk : disk_accepts w.

Lemma downloadAndSave_ok (imageUrl outputPath : string) (b : bytes) (s : State) :
  body_at w (fetches s) imageUrl = Some b ->
  exists s' evs,
    downloadAndSave w imageUrl outputPath s = (Ok tt, s')
    /\ fetches s' = S (fetches s)
    /\ trace s' = trace s ++ evs
    /\ writes evs = [(outputPath, b)].
Proof.
  destruct disk as [Hmk Hwr].
  unfold body_at, downloadAndSave, bind, fetch.
  destruct (settled (w_fetch w (fetches s) imageUrl)) as [response|]; [|discriminate].
  destruct (ok response); [|discriminate]. cbn [negb].
  destruct (arrayBuffer response) as [buffer|]; [|discriminate].
  intros [= ->]. unfold lift, existsSync. cbn [trace].
  destruct (negb (String.eqb (w_dirname w outputPath) "") && negb _).
  - unfold mkdirSync, writeFileSync. rewrite Hmk, Hwr.
    eexists _, [EvFetch imageUrl; EvMkdir (w_dirname w outputPath); EvWrite outputPath b].
    repeat split. cbn [trace emit]. now rewrite <- !app_assoc.
  - unfold ret, writeFileSync. rewrite Hwr.
    eexists _, [EvFetch imageUrl; EvWrite outputPath b].
    repeat split. cbn [trace emit]. now rewrite <- !app_assoc.
Qed.

Lemma fetched_length (imgs : list FalImage) :
  forall (k : nat) (bodies : list bytes),
    fetched w k imgs = Some bodies -> length bodies = length imgs.
Proof.
  induction imgs as [|img imgs IH]; intros k bodies F; cbn [fetched] in F.
  - now injection F as <-.
  - destruct (body_at w k (img_url img)); [|discriminate].
    destruct (fetched w (S k) imgs) as [l|] eqn:E; [|discriminate].
    injection F as <-. cbn [length]. f_equal. exact (IH _ _ E).
Qed.

Lemma writes_app (a b : list Event) : writes (a ++ b) = writes a ++ writes b.
Proof. apply omap_app. Qed.

Lemma saveMore_ok (outputPath : string) (more : list FalImage) :
  forall (i : nat) (bodies : list bytes) (s : State),
    fetched w (fetches s) more = Some bodies ->
    exists s' evs,
      saveMore w outputPath i more s = (Ok tt, s')
      /\ trace s' = trace s ++ evs
      /\ writes evs = numbered_writes outputPath i bodies.
Proof.
  induction more as [|img more IH]; intros i bodies s F.
  - injection F as <-. exists s, []. now rewrite app_nil_r.
  - cbn [fetched] in F.
    destruct (body_at w (fetches s) (img_url img)) as [b|] eqn:Eb; [|discriminate].
    destruct (fetched w (S (fetches s)) more) as [bs|] eqn:Ef; [|discriminate].
    injection F as <-.
    destruct (downloadAndSave_ok (img_url img) (numberedPath outputPath i) b s Eb)
      as (s1 & e1 & D & Hf & Ht & Hw).
    rewrite <- Hf in Ef.
    destruct (IH (S i) bs s1 Ef) as (s2 & e2 & D2 & Ht2 & Hw2).
    exists s2, (e1 ++ e2). cbn [saveMore]. unfold bind. rewrite D, D2.
    repeat split.
    + now rewrite Ht2, Ht, app_assoc.
    + rewrite writes_app, Hw, Hw2. reflexivity.
Qed.

(** All the images of a response land where the materializer puts them:
    the first at [outputPath], the others, when more than one image was
    asked for, at the numbered paths. *)
Lemma saveImages_ok (response : FalGenerateResponse) (first : FalImage)
    (more : list FalImage) (outputPath : string)
    (numImages : Z) (b : bytes) (bs : list bytes) (s : State) :
  images response = Some (first :: more) ->
  fetched w (fetches s) (first :: more) = Some (b :: bs) ->
  1 < numImages ->
  exists s' evs,
    saveImages w response outputPath numImages s = (Ok tt, s')
    /\ trace s' = trace s ++ evs
    /\ writes evs = (outputPath, b) :: numbered_writes outputPath 1 bs.
Proof.
  intros Hi F Hn. cbn [fetched] in F.
  destruct (body_at w (fetches s) (img_url first)) as [b0|] eqn:Eb; [|discriminate].
  destruct (fetched w (S (fetches s)) more) as [bs0|] eqn:Ef; [|discriminate].
  injection F as <- <-.
  destruct (downloadAndSave_ok (img_url first) outputPath b0 s Eb)
    as (s1 & e1 & D & Hf & Ht & Hw).
  rewrite <- Hf in Ef.
  destruct (saveMore_ok outputPath more 1 bs0 s1 Ef) as (s2 & e2 & D2 & Ht2 & Hw2).
  unfold saveImages. rewrite Hi. unfold bind. rewrite D.
  destruct (Z.gtb_spec numImages 1); [|lia]. cbn [andb].
  destruct more as [|second more].
  - cbn [length Z.of_nat Z.gtb Z.compare Pos.compare Pos.compare_cont].
    cbn [fetched] in Ef. injection Ef as <-.
    exists s1, e1. repeat split; [exact Ht|exact Hw].
  - replace (Z.of_nat (length (first :: second :: more)) >? 1) with true
      by (symmetry; apply Z.gtb_lt; cbn [length]; lia).
    rewrite D2. exists s2, (e1 ++ e2). repeat split.
    + now rewrite Ht2, Ht, app_assoc.
    + rewrite writes_app, Hw, Hw2. reflexivity.
Qed.

(** C7.  A response with three images, three images asked for and the
    output path /tmp/x.png: the materializer writes /tmp/x.png,
    /tmp/x_2.png and /tmp/x_3.png, in this order and nothing else, each
    with the bytes downloaded from the image of its index.  The numbered
    suffix goes immediately before the final dot of a path that ends in an
    extension.  A response whose [images] is absent or empty fails with
    "No image data found in response" (GENERATION_ERROR to the caller)
    before anything is downloaded or written. *)
Theorem three_images_round_trip (response : FalGenerateResponse)
    (i0 i1 i2 : FalImage) (b0 b1 b2 : bytes) (s : State) :
  images response = Some [i0; i1; i2] ->
  fetched w (fetches s) [i0; i1; i2] = Some [b0; b1; b2] ->
  (exists s' evs,
     saveImages w response "/tmp/x.png" 3 s = (Ok tt, s')
     /\ trace s' = trace s ++ evs
     /\ writes evs = [("/tmp/x.png", b0); ("/tmp/x_2.png", b1); ("/tmp/x_3.png", b2)])
  /\ (forall stem ext i, ext <> "" -> no_dot ext = true ->
        numberedPath (stem +:+ "." +:+ ext) i
        = stem +:+ ("_" +:+ JS.num (Z.of_nat i + 1)) +:+ "." +:+ ext)
  /\ (forall empty path n s0,
        images empty = None \/ images empty = Some [] ->
        saveImages w empty path n s0 = (Throw "No image data found in response", s0))
  /\ classified "No image data found in response"
     = "GENERATION_ERROR: No image data found in response".
Proof.
  intros Hi F. split; [|split; [|split]].
  - destruct (saveImages_ok response i0 [i1; i2] "/tmp/x.png" 3 b0 [b1; b2] s Hi F)
      as (s' & evs & E & Ht & Hw); [lia|].
    exists s', evs. repeat split; [exact E|exact Ht|exact Hw].
  - intros stem ext i Hne Hn. unfold numberedPath. now apply replace_ext_match.
  - intros empty path n s0 [E|E]; unfold saveImages; rewrite E; reflexivity.
  - reflexivity.
Qed.

Lemma numbered_writes_same (outputPath : string) (bs : list bytes) :
  (forall i, numberedPath outputPath i = outputPath) ->
  forall i, numbered_writes outputPath i bs = map (pair outputPath) bs.
Proof.
  intros H. induction bs as [|b bs IH]; intros i; [reflexivity|].
  cbn [numbered_writes map]. now rewrite H, IH.
Qed.

Lemma overwrite_in_turn (path : string) (bs : list bytes) :
  forall (b : bytes) (files : gmap string bytes),
    foldl (fun m pd => <[pd.1 := pd.2]> m) files (map (pair path) (b :: bs))
    = <[path := default b (last bs)]> files.
Proof.
  induction bs as [|b' bs IH]; intros b files; [reflexivity|].
  specialize (IH b' (<[path := b]> files)).
  cbn [map foldl fst snd] in *. rewrite IH, insert_insert_eq, last_cons.
  now destruct (last bs).
Qed.

(** C10, amended.  An output path on which the extension pattern finds no
    match (it does not end in a dot followed by one or more characters
    other than a dot: it has no dot at all, or its last dot is its last
    character) is its own numbered path for every index; so, when more
    than one image is asked for and the response has more than one, every
    image is written to [outputPath], each write replacing the one before,
    the file ends up with the bytes of the last image, and no other file
    appears.  A dot anywhere before the end is enough for a match, in a
    directory name too; such a path is numbered. *)
Theorem extensionless_path_is_overwritten (response : FalGenerateResponse)
    (first : FalImage) (more : list FalImage) (outputPath : string)
    (numImages : Z) (b : bytes) (bs : list bytes) (s : State)
    (files : gmap string bytes) :
  ext_match outputPath = false ->
  images response = Some (first :: more) -> more <> [] -> 1 < numImages ->
  fetched w (fetches s) (first :: more) = Some (b :: bs) ->
  ~ (exists stem ext,
       outputPath = stem +:+ "." +:+ ext /\ ext <> "" /\ no_dot ext = true)
  /\ (forall i, numberedPath outputPath i = outputPath)
  /\ exists s' evs,
       saveImages w response outputPath numImages s = (Ok tt, s')
       /\ trace s' = trace s ++ evs
       /\ writes evs = map (pair outputPath) (b :: bs)
       /\ length (writes evs) = length (first :: more)
       /\ disk_after files evs = <[outputPath := default b (last bs)]> files
       /\ dom (disk_after files evs) = {[outputPath]} ∪ dom files.
Proof.
  intros Hx Hi Hm Hn F.
  assert (Hsame : forall i, numberedPath outputPath i = outputPath)
    by (intros i; now apply replace_ext_no_match).
  split; [rewrite <- ext_match_spec, Hx; discriminate|].
  split; [exact Hsame|].
  destruct (saveImages_ok response first more outputPath numImages b bs s Hi F Hn)
    as (s' & evs & E & Ht & Hw).
  rewrite (numbered_writes_same _ _ Hsame) in Hw.
  assert (Hd : disk_after files evs = <[outputPath := default b (last bs)]> files).
  { unfold disk_after. rewrite Hw. apply (overwrite_in_turn outputPath bs b files). }
  exists s', evs. repeat split; try assumption.
  - rewrite Hw. change (length (map (pair outputPath) (b :: bs)) = length (first :: more)).
    rewrite length_map. exact (fetched_length _ _ _ F).
  - rewrite Hd. apply dom_insert_L.
Qed.

End Materializer.

Lemma serving_world_accepts : disk_accepts serving_world.
Proof. split; reflexivity. Defined.

(** The round trip in a world that serves three images. *)
Lemma three_images_round_trip_witness :
  (exists s' evs,
     saveImages serving_world three_images "/tmp/x.png" 3 (initial 0) = (Ok tt, s')
     /\ trace s' = trace (initial 0) ++ evs
     /\ writes evs = [("/tmp/x.png", [Byte.x0a]); ("/tmp/x_2.png", [Byte.x0b]);
                      ("/tmp/x_3.png", [Byte.x0c])])
  /\ writes (trace (generate serving_world
                       (request [] None None "/tmp/x.png" 3) (initial 0)).2)
     = [("/tmp/x.png", [Byte.x0a]); ("/tmp/x_2.png", [Byte.x0b]);
        ("/tmp/x_3.png", [Byte.x0c])].
Proof.
  split.
  - refine (proj1 (three_images_round_trip serving_world serving_world_accepts
                     three_images _ _ _ _ _ _ (initial 0) _ _)); reflexivity.
  - vm_compute. reflexivity.
Defined.

(** The same three images sent to the path /tmp/x. *)
Lemma extensionless_path_witness :
  exists s' evs,
    saveImages serving_world three_images "/tmp/x" 3 (initial 0) = (Ok tt, s')
    /\ trace s' = trace (initial 0) ++ evs
    /\ writes evs = [("/tmp/x", [Byte.x0a]); ("/tmp/x", [Byte.x0b]);
                     ("/tmp/x", [Byte.x0c])]
    /\ length (writes evs) = 3%nat
    /\ disk_after ∅ evs = <["/tmp/x" := [Byte.x0c]]> ∅
    /\ dom (disk_after ∅ evs) = {["/tmp/x"]} ∪ dom (∅ : gmap string bytes).
Proof.
  refine (proj2 (proj2 (extensionless_path_is_overwritten serving_world serving_world_accepts
                   three_images {| img_url := "https://cdn/a" |}
                   [ {| img_url := "https://cdn/b" |}; {| img_url := "https://cdn/c" |} ]
                   "/tmp/x" 3 [Byte.x0a] [[Byte.x0b]; [Byte.x0c]] (initial 0) ∅
                   _ _ _ _ _)));
    first [reflexivity | discriminate | lia].
Defined.

(** C10 as stated fails: the path ./out has no extension at its end, yet
    the pattern matches from its dot to its end, so the numbered paths
    differ from it and three images go to three files. *)
Lemma dotted_path_is_numbered :
  ext_match "./out" = true
  /\ numberedPath "./out" 1 = "_2./out"
  /\ numberedPath "./out" 2 = "_3./out"
  /\ (generate serving_world (request [] None None "./out" 3) (initial 0)).1
     = Ok {| imagePath := "./out"; r_model := NanoBanana; usage := 2015 |}
  /\ writes (trace (generate serving_world (request [] None None "./out" 3)
                             (initial 0)).2)
     = [("./out", [Byte.x0a]); ("_2./out", [Byte.x0b]); ("_3./out", [Byte.x0c])].
Proof. repeat split; vm_compute; reflexivity. Qed.

(** ** Reference images *)

Section ReferenceImages.

Variable w : World.

Lemma upload_ok (blob : Blob) (u : string) (s s' : State) :
  withTimeout (fal_storage_upload w blob) UPLOAD_TIMEOUT_MS s = (Ok u, s') ->
  settled (w_upload w (uploads s) blob) = Ok u
  /\ uploads s' = S (uploads s)
  /\ trace s' = trace s ++ [EvUpload blob].
Proof.
  unfold withTimeout, fal_storage_upload. cbn [now].
  destruct (_ <=? _); [|discriminate].
  intros [= E <-]. now rewrite E.
Qed.

Lemma processOne_ok (image u : string) (s s' : State) :
  processOne w image s = (Ok u, s') ->
  if needs_upload image
  then exists blob, blob_of w image = Ok blob
                    /\ settled (w_upload w (uploads s) blob) = Ok u
                    /\ uploads s' = S (uploads s)
                    /\ trace s' = trace s ++ [EvUpload blob]
  else u = image /\ s' = s.
Proof.
  unfold processOne, needs_upload, blob_of.
  destruct (getImageInputType image).
  - intros [= <- <-]. now split.
  - unfold bind, lift. destruct (parseDataUrl w image) as [blob|e]; [|discriminate].
    intros H. apply upload_ok in H. now exists blob.
  - unfold bind, existsSync, readFileSync, lift, throw.
    destruct (w_exists w (trace s) image); cbn [negb]; [|discriminate].
    destruct (w_readFile w image) as [fileBuffer|e]; [|discriminate].
    intros H. apply upload_ok in H. now eexists.
Qed.

Lemma processLoop_ok (todo : list string) :
  forall (i : nat) (acc urls : list string) (s s' : State),
    processLoop w i todo acc s = (Ok urls, s') ->
    exists new blobs,
      urls = acc ++ new
      /\ corresponds w (uploads s) todo new
      /\ trace s' = trace s ++ map EvUpload blobs
      /\ Forall2 (fun image blob => blob_of w image = Ok blob)
                 (List.filter needs_upload todo) blobs.
Proof.
  induction todo as [|image todo IH]; intros i acc urls s s' H.
  - injection H as <- <-. exists [], []. rewrite !app_nil_r. repeat split. constructor.
  - cbn [processLoop] in H. unfold bind, try_catch in H.
    destruct (processOne w image s) as [[u|e] s1] eqn:E1; [|discriminate].
    apply processOne_ok in E1.
    destruct (IH _ _ _ _ _ H) as (new & blobs & -> & Hc & Ht & Hb).
    cbn [List.filter corresponds].
    destruct (needs_upload image).
    + destruct E1 as (blob & Eb & Eu & Hu & Ht1).
      exists (u :: new), (blob :: blobs). rewrite Hu in Hc.
      repeat split.
      * now rewrite <- app_assoc.
      * now exists blob.
      * exact Hc.
      * rewrite Ht, Ht1, <- app_assoc. reflexivity.
      * now constructor.
    + destruct E1 as [-> ->].
      exists (image :: new), blobs. repeat split; try assumption.
      now rewrite <- app_assoc.
Qed.

Lemma corresponds_length (inputs : list string) :
  forall k urls, corresponds w k inputs urls -> length urls = length inputs.
Proof.
  induction inputs as [|image inputs IH]; intros k [|u urls] H; cbn in H;
    try contradiction; [reflexivity|].
  cbn [length]. f_equal.
  destruct (needs_upload image); destruct H as [_ H]; exact (IH _ _ H).
Qed.

Lemma corresponds_url (inputs : list string) :
  forall k urls (i : nat) (image : string),
    corresponds w k inputs urls ->
    inputs !! i = Some image -> getImageInputType image = url ->
    urls !! i = Some image.
Proof.
  induction inputs as [|x inputs IH]; intros k [|u urls] i image H Hi Hu; cbn in H;
    try contradiction; [discriminate|].
  destruct i as [|i]; cbn in Hi |- *.
  - injection Hi as ->. unfold needs_upload in H. rewrite Hu in H.
    destruct H as [-> _]. reflexivity.
  - destruct (needs_upload x); destruct H as [_ H]; exact (IH _ _ _ _ H Hi Hu).
Qed.

Lemma processLoop_urls (todo : list string) :
  Forall (fun image => getImageInputType image = url) todo ->
  forall i acc s, processLoop w i todo acc s = (Ok (acc ++ todo), s).
Proof.
  induction 1 as [|image todo Hu F IH]; intros i acc s; cbn [processLoop].
  - now rewrite app_nil_r.
  - unfold bind, try_catch, processOne. rewrite Hu. unfold ret.
    rewrite IH, <- app_assoc. reflexivity.
Qed.

Lemma https_is_url (rest : string) : getImageInputType ("https://" +:+ rest) = url.
Proof.
  unfold getImageInputType, JS.startsWith.
  rewrite (prefix_append "https://" rest). reflexivity.
Qed.

(** The first effect of the invoker is the upstream call. *)
Lemma invoke_starts (modelId : string) (input : Payload) (s : State) :
  exists evs,
    trace (invoke w modelId input s).2 = trace s ++ EvSubscribe modelId input :: evs
    /\ Forall (only [KSubscribe; KSleep]) evs.
Proof.
  unfold invoke, withRetry.
  change (Z.to_nat (opts.maxRetries generate_retry_options + 1)) with 3%nat.
  rewrite retry_loop_step.
  destruct (attempt_state w modelId input s) as (_ & Ht & _).
  destruct (attempt w modelId input s) as [[v|e] s1]; cbn [snd] in *.
  - exists []. split; [exact Ht|constructor].
  - destruct (_ || _); cbn [snd].
    + exists []. split; [exact Ht|constructor].
    + match goal with
      | |- context [retry_loop ?f ?o ?n ?a ?d ?l ?st] =>
          destruct (emits_retry_loop [KSubscribe; KSleep] f o
                      (ltac:(unfold attempt; apply emits_withTimeout;
                             apply emits_one with (e := fun _ => EvSubscribe modelId input);
                             [reflexivity|intros _; now left]))
                      (ltac:(cbn; tauto)) n a d l st) as (evs & Et & F)
      end.
      exists (EvSleep (opts.initialDelayMs generate_retry_options) :: evs).
      split.
      * rewrite Et. cbn [trace rested advance emit]. rewrite Ht, <- !app_assoc.
        reflexivity.
      * constructor; [cbn; tauto|exact F].
Qed.

Lemma uploaded_none (kinds : list Kind) (evs : list Event) :
  ~ In KUpload kinds -> Forall (only kinds) evs -> uploaded evs = [].
Proof.
  intros Hk F. induction F as [|e evs He F IH]; [reflexivity|].
  destruct e; try exact IH. now destruct Hk.
Qed.

(** C8.  [processReferenceImages] takes the inputs in their order and,
    when it returns, returns as many URLs as there were inputs, the i-th
    answering the i-th input: a URL input stands unchanged at its index
    and nothing is uploaded for it; any other input stands as the URL that
    the storage returned for its blob, and the blobs were uploaded in the
    order of these inputs.  A list of URL inputs is returned as it is,
    with no effect.  A request whose only reference image is an https URL
    calls the edit endpoint of the fast model with that URL, and uploads
    nothing. *)
Theorem reference_images_in_order (inputs : list string) (s : State) :
  (forall urls s',
     processReferenceImages w inputs s = (Ok urls, s') ->
     length urls = length inputs
     /\ corresponds w (uploads s) inputs urls
     /\ (forall (i : nat) (image : string),
           inputs !! i = Some image ->
           getImageInputType image = url -> urls !! i = Some image)
     /\ exists blobs,
          trace s' = trace s ++ map EvUpload blobs
          /\ Forall2 (fun image blob => blob_of w image = Ok blob)
                     (List.filter needs_upload inputs) blobs)
  /\ (Forall (fun image => getImageInputType image = url) inputs ->
      processReferenceImages w inputs s = (Ok inputs, s))
  /\ (forall (rest : string) (options : ImageGenerateOptions),
        referenceImages options = Some ["https://" +:+ rest] ->
        default NanoBanana (model options) = NanoBanana ->
        validate_options options = Ok tt ->
        exists evs,
          trace (generate w options s).2
          = trace s ++ EvSubscribe FAL_MODEL_IDS.NANO_BANANA_EDIT
                         (request_input options ["https://" +:+ rest]) :: evs
          /\ p_image_urls (request_input options ["https://" +:+ rest])
             = Some ["https://" +:+ rest]
          /\ uploaded evs = []).
Proof.
  split; [|split].
  - intros urls s' H.
    assert (C : corresponds w (uploads s) inputs urls
                /\ exists blobs,
                     trace s' = trace s ++ map EvUpload blobs
                     /\ Forall2 (fun image blob => blob_of w image = Ok blob)
                                (List.filter needs_upload inputs) blobs).
    { unfold processReferenceImages in H. destruct inputs as [|x l].
      - injection H as <- <-. split; [exact I|]. exists []. rewrite app_nil_r.
        split; [reflexivity|constructor].
      - destruct (processLoop_ok _ _ _ _ _ _ H) as (new & blobs & -> & Hc & Ht & Hb).
        split; [exact Hc|]. now exists blobs. }
    destruct C as [Hc Hb]. repeat split.
    + exact (corresponds_length _ _ _ Hc).
    + exact Hc.
    + intros i image. exact (corresponds_url _ _ _ _ _ Hc).
    + exact Hb.
  - intros F. unfold processReferenceImages.
    destruct inputs as [|x l]; [reflexivity|].
    exact (processLoop_urls _ F 0%nat [] s).
  - intros rest options Hr Hm Hv.
    rewrite generate_unfold, Hv. unfold generate_try. rewrite Hr, Hm.
    cbn [default id length]. change (Z.of_nat 1 >? 0) with true.
    cbv iota. unfold bind at 1.
    assert (P : processReferenceImages w ["https://" +:+ rest] s
                = (Ok ["https://" +:+ rest], s)).
    { apply (processLoop_urls ["https://" +:+ rest]).
      constructor; [apply https_is_url|constructor]. }
    rewrite P. unfold bind.
    change (getModelId NanoBanana true) with FAL_MODEL_IDS.NANO_BANANA_EDIT.
    destruct (invoke_starts FAL_MODEL_IDS.NANO_BANANA_EDIT
                (request_input options ["https://" +:+ rest]) s) as (e1 & E1 & F1).
    destruct (invoke w _ _ s) as [[response|e] s1]; cbn [snd] in E1.
    + destruct (emits_saveImages w response (outputPath options)
                  (default 1 (numImages options)) s1) as (e2 & E2 & F2).
      destruct (saveImages w response _ _ s1) as [[[]|e] s2]; cbn [snd] in *;
        (eexists (e1 ++ e2 ++ [EvUsage _]); split;
         [cbn [trace emit]; rewrite E2, E1, <- !app_assoc; reflexivity|];
         split; [reflexivity|];
         unfold uploaded; rewrite !omap_app;
         fold (uploaded e1); fold (uploaded e2);
         rewrite (uploaded_none [KSubscribe; KSleep] e1
                    ltac:(cbn; intuition discriminate) F1),
                 (uploaded_none [KFetch; KMkdir; KWrite] e2
                    ltac:(cbn; intuition discriminate) F2);
         reflexivity).
    + eexists (e1 ++ [EvUsage _]); split;
        [cbn [snd trace emit]; rewrite E1, <- !app_assoc; reflexivity|];
        split; [reflexivity|];
        unfold uploaded; rewrite !omap_app; fold (uploaded e1);
        rewrite (uploaded_none [KSubscribe; KSleep] e1
                   ltac:(cbn; intuition discriminate) F1);
        reflexivity.
Qed.

End ReferenceImages.

(** ** The theorems at work on sample worlds *)

Lemma deadline_is_per_attempt_witness :
  retry_loop (attempt stalled_world "fal-ai/nano-banana" sample_payload)
             generate_retry_options 3 0 1000 "undefined" (initial 0)
  = (Throw (timeout_message DEFAULT_TIMEOUT_MS),
     called "fal-ai/nano-banana" sample_payload DEFAULT_TIMEOUT_MS (initial 0)).
Proof.
  apply (proj1 (deadline_is_per_attempt stalled_world "fal-ai/nano-banana"
                  sample_payload (initial 0)) 2%nat 0 1000 "undefined").
  vm_compute. reflexivity.
Defined.

Lemma invoke_retries_witness :
  (isRetryable "HTTP 429 Too Many Requests" generate_retryable = true
   <-> (2 <= calls (invoke throttled_world "fal-ai/nano-banana" sample_payload
                           (initial 0)).2 - calls (initial 0))%nat)
  /\ (isRetryable "HTTP 429 Too Many Requests" generate_retryable = false ->
      invoke throttled_world "fal-ai/nano-banana" sample_payload (initial 0)
      = (Throw "HTTP 429 Too Many Requests",
         (attempt throttled_world "fal-ai/nano-banana" sample_payload (initial 0)).2)).
Proof.
  apply (proj1 (proj2 (proj2
           (invoke_retries_on_generate_signals throttled_world "fal-ai/nano-banana"
              sample_payload (initial 0))))
           "HTTP 429 Too Many Requests").
  reflexivity.
Defined.

Lemma one_usage_record_witness :
  exists evs u,
    trace (generate serving_world (request [] None None "/tmp/x.png" 3) (initial 0)).2
    = trace (initial 0) ++ evs ++ [EvUsage u]
    /\ usage_records evs = []
    /\ usage_records (evs ++ [EvUsage u]) = [u]
    /\ success u
       = match (generate serving_world (request [] None None "/tmp/x.png" 3)
                         (initial 0)).1 with
         | Ok _ => true
         | Throw _ => false
         end.
Proof.
  apply (proj2 (one_usage_record_past_validation serving_world
                  (request [] None None "/tmp/x.png" 3) (initial 0))).
  reflexivity.
Defined.

Lemma validation_comes_first_witness :
  validate_options (request ["a.png"; "b.png"; "c.png"; "d.png"] (Some "16:9") None
                            "/tmp/x.png" 1)
  = Throw "Maximum 3 reference images allowed for nano-banana".
Proof.
  destruct (validation_comes_first serving_world
              (request ["a.png"; "b.png"; "c.png"; "d.png"] (Some "16:9") None
                       "/tmp/x.png" 1) (initial 0))
    as (_ & _ & _ & _ & _ & _ & H & _).
  destruct (H eq_refl eq_refl) as (_ & Hacc & _). apply Hacc.
  right. split; [vm_compute; tauto|discriminate].
Defined.

Lemma reference_images_in_order_witness :
  let urls := ["https://x/y.jpg"; "https://storage/0"; "http://x/z.png"] in
  let s' := (processReferenceImages serving_world mixed_inputs (initial 0)).2 in
  length urls = length mixed_inputs
  /\ corresponds serving_world (uploads (initial 0)) mixed_inputs urls
  /\ (forall (i : nat) (image : string),
        mixed_inputs !! i = Some image ->
        getImageInputType image = url -> urls !! i = Some image)
  /\ exists blobs,
       trace s' = trace (initial 0) ++ map EvUpload blobs
       /\ Forall2 (fun image blob => blob_of serving_world image = Ok blob)
                  (List.filter needs_upload mixed_inputs) blobs.
Proof.
  cbv zeta.
  apply (proj1 (reference_images_in_order serving_world mixed_inputs (initial 0))).
  vm_compute. reflexivity.
Defined.

(** "add a hat" with one https reference image goes to the edit endpoint
    of the fast model, and nothing is uploaded. *)
Example add_a_hat :
  exists evs,
    trace (generate serving_world
             (request ["https://x/y.jpg"] None None "/tmp/x.png" 1) (initial 0)).2
    = EvSubscribe "fal-ai/nano-banana/edit"
        {| p_prompt := "add a hat"; p_output_format := Png; p_num_images := 1;
           p_aspect_ratio := None; p_image_urls := Some ["https://x/y.jpg"];
           p_resolution := None; p_enable_web_search := None |} :: evs
    /\ uploaded evs = [].
Proof. eexists. split; vm_compute; reflexivity. Qed.

(** * Further properties of the source *)

(** ** Data URLs *)

Lemma strip_prefix_spec (p s r : string) :
  strip_prefix p s = Some r <-> s = p +:+ r.
Proof.
  revert s. induction p as [|c p IH]; intros s.
  - rewrite append_empty. cbn [strip_prefix]. split; [now intros [= ->] | now intros ->].
  - rewrite append_cons. destruct s as [|d s]; cbn [strip_prefix].
    + split; discriminate.
    + destruct (Ascii.eqb_spec c d) as [->|ne].
      * rewrite IH. split; [now intros -> | now intros [= ->]].
      * split; [discriminate | intros [= -> _]; now destruct ne].
Qed.

Lemma until_semicolon_split (s a b : string) :
  until_semicolon s = (a, b) ->
  s = a +:+ b /\ no_semicolon a = true
  /\ (b = "" \/ exists b', b = String ";" b').
Proof.
  revert a b. induction s as [|c s IH]; intros a b; cbn [until_semicolon].
  - intros [= <- <-]. repeat split. now left.
  - destruct (Ascii.eqb_spec c ";") as [->|ne].
    + intros [= <- <-]. repeat split. right. now eexists.
    + destruct (until_semicolon s) as [a' b'] eqn:E. intros [= <- <-].
      destruct (IH _ _ eq_refl) as (-> & Hn & Hb).
      rewrite append_cons. repeat split; [|exact Hb].
      cbn [no_semicolon]. rewrite Hn.
      destruct (Ascii.eqb_spec c ";"); [contradiction|reflexivity].
Qed.

Lemma until_semicolon_stops (mime rest : string) :
  no_semicolon mime = true ->
  until_semicolon (mime +:+ String ";" rest) = (mime, String ";" rest).
Proof.
  induction mime as [|c mime IH]; intros Hn.
  - reflexivity.
  - rewrite append_cons. cbn [until_semicolon no_semicolon] in *.
    apply andb_true_iff in Hn as [Hc Hn].
    destruct (Ascii.eqb c ";"); [discriminate|]. now rewrite IH.
Qed.

(** X1.  [parseDataUrl] accepts exactly the strings
    [data:<mime>;base64,<payload>] whose mime part is not empty and has no
    semicolon and whose payload is not empty and has no line terminator;
    it then returns the mime part as written as the content type and the
    decoded payload, and on every other string it throws the one message
    "Invalid data URL format ...". *)
Theorem parseDataUrl_accepts (w : World) (dataUrl : string) :
  (forall mime payload,
     match_data_url dataUrl = Some (mime, payload) <->
     dataUrl = "data:" +:+ mime +:+ ";base64," +:+ payload
     /\ mime <> "" /\ no_semicolon mime = true
     /\ payload <> "" /\ no_line_terminator payload = true)
  /\ (forall mime payload,
        match_data_url dataUrl = Some (mime, payload) ->
        parseDataUrl w dataUrl
        = Ok {| blob_data := w_base64 w payload; blob_type := mime |})
  /\ (match_data_url dataUrl = None ->
      parseDataUrl w dataUrl
      = Throw "Invalid data URL format. Expected: data:<mime>;base64,<data>").
Proof.
  split; [|split].
  - intros mime payload. unfold match_data_url. split.
    + destruct (strip_prefix "data:" dataUrl) as [rest|] eqn:E1; [|discriminate].
      apply strip_prefix_spec in E1.
      destruct (until_semicolon rest) as [m rest'] eqn:E2.
      apply until_semicolon_split in E2 as (-> & Hn & _).
      destruct (strip_prefix ";base64," rest') as [pl|] eqn:E3; [|discriminate].
      apply strip_prefix_spec in E3.
      destruct (negb (String.eqb m "") && negb (String.eqb pl "")
                && no_line_terminator pl) eqn:C; [|discriminate].
      intros [= <- <-].
      apply andb_true_iff in C as [C Hl]. apply andb_true_iff in C as [Cm Cp].
      apply negb_true_iff, String.eqb_neq in Cm, Cp.
      subst. repeat split; assumption.
    + intros (-> & Hm & Hn & Hp & Hl).
      rewrite (proj2 (strip_prefix_spec "data:" _ (mime +:+ ";base64," +:+ payload)) eq_refl).
      change (";base64," +:+ payload) with (String ";" ("base64," +:+ payload)).
      rewrite (until_semicolon_stops mime _ Hn).
      change (String ";" ("base64," +:+ payload)) with (";base64," +:+ payload).
      rewrite (proj2 (strip_prefix_spec ";base64," _ payload) eq_refl).
      apply String.eqb_neq in Hm, Hp. now rewrite Hm, Hp, Hl.
  - intros mime payload E. unfold parseDataUrl. now rewrite E.
  - intros E. unfold parseDataUrl. now rewrite E.
Qed.

(** ** Validation, both ways *)

(** X2.  [generate] lets a request past validation exactly when its aspect
    ratio is absent, empty, or a member of the extended set that is not
    "auto" without reference images; it has no more reference images than
    the ceiling of its model; and it asks for 1K or uses the pro model. *)
Theorem validation_accepts_exactly (options : ImageGenerateOptions) :
  let refs := default [] (referenceImages options) in
  let mdl := default NanoBanana (model options) in
  let res := default R1K (resolution options) in
  validate_options options = Ok tt <->
  aspect_accepted (aspectRatio options) refs
  /\ Z.of_nat (length refs) <= MAX_REFERENCE_IMAGES mdl
  /\ (mdl = NanoBananaPro \/ res = R1K).
Proof.
  cbv zeta. unfold validate_options.
  generalize (default [] (referenceImages options)) as refs.
  generalize (default NanoBanana (model options)) as mdl.
  generalize (default R1K (resolution options)) as res.
  generalize (aspectRatio options) as ar.
  intros ar res mdl refs.
  assert (Rest : aspect_accepted ar refs ->
            (validate ar (Z.of_nat (length refs) >? 0) refs mdl res = Ok tt <->
             Z.of_nat (length refs) <= MAX_REFERENCE_IMAGES mdl
             /\ (mdl = NanoBananaPro \/ res = R1K))).
  { intros Ha. rewrite validate_aspect_accepted by exact Ha.
    destruct (Z.gtb_spec (Z.of_nat (length refs)) (MAX_REFERENCE_IMAGES mdl)).
    - split; [discriminate|lia].
    - destruct mdl, res; cbn [negb andb]; split;
        first [ discriminate
              | intros _; split;
                [lia | first [left; reflexivity | right; reflexivity]]
              | intros _; reflexivity
              | intros (_ & [Hx|Hx]); discriminate Hx ]. }
  split.
  - intros E.
    assert (Ha : aspect_accepted ar refs).
    { destruct ar as [a|]; [|exact I]. cbn [aspect_accepted].
      destruct (String.eqb_spec a "") as [->|Hne]; [now left|right].
      unfold validate in E. cbn [truthy default id] in E.
      apply String.eqb_neq in Hne. rewrite Hne in E. cbn [negb andb] in E.
      destruct (String.eqb_spec a "auto") as [->|Hauto].
      - cbn [andb] in E. rewrite has_references in E.
        destruct refs; [discriminate E|]. split; [now left|discriminate].
      - cbn [andb] in E.
        destruct (existsb (String.eqb a) ASPECT_RATIOS_WITH_AUTO) eqn:Em;
          [|discriminate E].
        apply member_eqb in Em. split; [exact Em|]. intros ->. now destruct Hauto. }
    split; [exact Ha|]. now apply Rest.
  - intros (Ha & Hrest). now apply Rest.
Qed.

(** ** Retryable signals *)

Lemma lower_code_unit_idem (c : ascii) : JS.lower_code_unit (JS.lower_code_unit c) = JS.lower_code_unit c.
Proof.
  destruct c as [[] [] [] [] [] [] [] []]; reflexivity.
Qed.

Lemma toLowerCase_idem (s : string) :
  JS.toLowerCase (JS.toLowerCase s) = JS.toLowerCase s.
Proof.
  induction s as [|c s IH]; [reflexivity|].
  cbn [JS.toLowerCase]. now rewrite lower_code_unit_idem, IH.
Qed.

Lemma includes_empty (s : string) : JS.includes s "" = true.
Proof. destruct s; cbn [JS.includes]; now rewrite prefix_empty. Qed.

(** X3.  Whether a failure is retryable does not depend on the case of its
    message nor on the case of the patterns, case being that of
    [toLowerCase] on code units below 256, the Latin-1 capitals included:
    two messages, or two lists of patterns, that differ in case only are
    treated alike.  A longer list of patterns retries at least the same
    failures (so every failure that [generate] retries is also retryable
    under the default list); with no pattern nothing is retried, and with
    an empty pattern everything is. *)
Theorem isRetryable_signals (message : string) (patterns : list string) :
  isRetryable (JS.toLowerCase message) patterns = isRetryable message patterns
  /\ isRetryable message (map JS.toLowerCase patterns) = isRetryable message patterns
  /\ (forall message', JS.toLowerCase message' = JS.toLowerCase message ->
        isRetryable message' patterns = isRetryable message patterns)
  /\ (forall patterns', map JS.toLowerCase patterns' = map JS.toLowerCase patterns ->
        isRetryable message patterns' = isRetryable message patterns)
  /\ (forall more, isRetryable message patterns = true ->
                   isRetryable message (patterns ++ more) = true
                   /\ isRetryable message (more ++ patterns) = true)
  /\ (isRetryable message generate_retryable = true ->
      isRetryable message DEFAULT_RETRY_OPTIONS.retryableErrors = true)
  /\ isRetryable message [] = false
  /\ (In "" patterns -> isRetryable message patterns = true).
Proof.
  unfold isRetryable. split; [|split; [|split; [|split; [|split; [|split; [|split]]]]]].
  - now rewrite toLowerCase_idem.
  - induction patterns as [|p ps IH]; [reflexivity|].
    cbn [map existsb]. now rewrite toLowerCase_idem, IH.
  - intros message' E. now rewrite E.
  - intros patterns'. revert patterns.
    induction patterns' as [|p ps IH]; intros [|q qs] E;
      try discriminate E; [reflexivity|].
    cbn [map] in E. injection E as Ep Eps.
    cbn [existsb]. now rewrite Ep, (IH qs Eps).
  - intros more H. rewrite !existsb_app, H. split; [reflexivity|apply orb_true_r].
  - intros H.
    change DEFAULT_RETRY_OPTIONS.retryableErrors
      with (generate_retryable
              ++ ["ENOTFOUND"; "temporarily unavailable"; "too many requests"]).
    now rewrite existsb_app, H.
  - reflexivity.
  - intros Hin. apply existsb_exists. exists "". split; [exact Hin|].
    apply includes_empty.
Qed.

(** A message in Latin-1 capitals against a pattern in small letters:
    "CAF", U+00C9, " down" and "caf", U+00E9. *)
Example latin1_capitals_fold :
  isRetryable ("CAF" +:+ String (ascii_of_nat 201) " down")
              ["caf" +:+ String (ascii_of_nat 233) ""] = true
  /\ JS.toLowerCase (String (ascii_of_nat 215) "") = String (ascii_of_nat 215) "".
Proof. split; vm_compute; reflexivity. Qed.

(** ** Reference images: cost and failure *)

Section ReferenceFailures.

Variable w : World.

Lemma upload_state (blob : Blob) (s : State) :
  let s1 := (withTimeout (fal_storage_upload w blob) UPLOAD_TIMEOUT_MS s).2 in
  trace s1 = trace s ++ [EvUpload blob]
  /\ uploads s1 = S (uploads s)
  /\ now s1 - now s <= UPLOAD_TIMEOUT_MS.
Proof.
  unfold withTimeout, fal_storage_upload. cbn [now].
  destruct (Z.leb_spec (now s + dur (w_upload w (uploads s) blob) - now s)
                       UPLOAD_TIMEOUT_MS);
    cbn [snd trace uploads now set_now]; repeat split; lia.
Qed.

(** One input: at most one upload, of at most 30 seconds; none for a URL,
    which cannot fail. *)
Lemma processOne_effect (image : string) (s : State) :
  exists blobs,
    trace (processOne w image s).2 = trace s ++ map EvUpload blobs
    /\ uploads (processOne w image s).2 = (uploads s + length blobs)%nat
    /\ (length blobs <= if needs_upload image then 1 else 0)%nat
    /\ now (processOne w image s).2 - now s
       <= UPLOAD_TIMEOUT_MS * Z.of_nat (length blobs)
    /\ (needs_upload image = false -> processOne w image s = (Ok image, s)).
Proof.
  assert (Quiet : forall r : Result string,
            needs_upload image = true ->
            exists blobs,
              trace (r, s).2 = trace s ++ map EvUpload blobs
              /\ uploads (r, s).2 = (uploads s + length blobs)%nat
              /\ (length blobs <= if needs_upload image then 1 else 0)%nat
              /\ now (r, s).2 - now s <= UPLOAD_TIMEOUT_MS * Z.of_nat (length blobs)
              /\ (needs_upload image = false -> (r, s) = (Ok image, s))).
  { intros r Hn. exists []. rewrite Hn. cbn [snd map length]. rewrite app_nil_r.
    repeat split; first [lia | discriminate]. }
  assert (Up : forall blob,
            needs_upload image = true ->
            let m := withTimeout (fal_storage_upload w blob) UPLOAD_TIMEOUT_MS s in
            exists blobs,
              trace m.2 = trace s ++ map EvUpload blobs
              /\ uploads m.2 = (uploads s + length blobs)%nat
              /\ (length blobs <= if needs_upload image then 1 else 0)%nat
              /\ now m.2 - now s <= UPLOAD_TIMEOUT_MS * Z.of_nat (length blobs)
              /\ (needs_upload image = false -> m = (Ok image, s))).
  { intros blob Hn. cbv zeta. destruct (upload_state blob s) as (Ht & Hu & Hc).
    exists [blob]. rewrite Hn. cbn [map length].
    repeat split; [exact Ht|lia|lia|unfold UPLOAD_TIMEOUT_MS in *; lia|discriminate]. }
  unfold needs_upload in *. unfold processOne.
  destruct (getImageInputType image).
  - exists []. cbn [ret snd map length]. rewrite app_nil_r.
    repeat split; lia.
  - unfold bind, lift. destruct (parseDataUrl w image) as [blob|e].
    + now apply Up.
    + now apply Quiet.
  - unfold bind, existsSync, readFileSync, lift, throw.
    destruct (w_exists w (trace s) image); cbn [negb]; [|now apply Quiet].
    destruct (w_readFile w image) as [buf|e]; [now apply Up|now apply Quiet].
Qed.

Lemma processLoop_effect (todo : list string) :
  forall (i : nat) (acc : list string) (s : State),
    exists blobs,
      trace (processLoop w i todo acc s).2 = trace s ++ map EvUpload blobs
      /\ uploads (processLoop w i todo acc s).2 = (uploads s + length blobs)%nat
      /\ (length blobs <= length (List.filter needs_upload todo))%nat
      /\ now (processLoop w i todo acc s).2 - now s
         <= UPLOAD_TIMEOUT_MS * Z.of_nat (length (List.filter needs_upload todo)).
Proof.
  induction todo as [|image todo IH]; intros i acc s.
  - exists []. cbn. rewrite app_nil_r. repeat split; lia.
  - cbn [processLoop]. unfold bind, try_catch, throw.
    destruct (processOne_effect image s) as (b1 & Ht & Hu & Hl & Hc & _).
    assert (Hcount : (length (List.filter needs_upload (image :: todo))
                      = (if needs_upload image then 1 else 0)
                        + length (List.filter needs_upload todo))%nat)
      by (cbn [List.filter]; destruct (needs_upload image); reflexivity).
    destruct (processOne w image s) as [[u|e] s1]; cbn [snd] in *.
    + destruct (IH (S i) (acc ++ [u]) s1) as (b2 & Ht2 & Hu2 & Hl2 & Hc2).
      exists (b1 ++ b2). rewrite Ht2, Hu2, Ht, Hu, map_app, length_app, Hcount.
      repeat split; [now rewrite app_assoc|lia|lia|].
      unfold UPLOAD_TIMEOUT_MS in *. lia.
    + exists b1. rewrite Hcount. repeat split; [exact Ht|exact Hu|lia|].
      unfold UPLOAD_TIMEOUT_MS in *. lia.
Qed.

(** X4.  Whatever its outcome, [processReferenceImages] does nothing but
    upload: at most one blob for each input that is not a URL, and, each
    upload being cut off after 30 seconds, at most 30 seconds for each of
    these inputs. *)
Theorem reference_images_cost (inputs : list string) (s : State) :
  let s' := (processReferenceImages w inputs s).2 in
  let n := length (List.filter needs_upload inputs) in
  exists blobs,
    trace s' = trace s ++ map EvUpload blobs
    /\ uploads s' = (uploads s + length blobs)%nat
    /\ (length blobs <= n)%nat
    /\ calls s' = calls s /\ fetches s' = fetches s
    /\ now s' - now s <= UPLOAD_TIMEOUT_MS * Z.of_nat n.
Proof.
  cbv zeta.
  assert (K : forall todo i acc s0,
            calls (processLoop w i todo acc s0).2 = calls s0
            /\ fetches (processLoop w i todo acc s0).2 = fetches s0).
  { induction todo as [|image todo IH]; intros i acc s0; [now split|].
    cbn [processLoop]. unfold bind, try_catch, throw.
    assert (K1 : calls (processOne w image s0).2 = calls s0
                 /\ fetches (processOne w image s0).2 = fetches s0).
    { unfold processOne. destruct (getImageInputType image); [now split| |].
      - unfold bind, lift. destruct (parseDataUrl w image); [|now split].
        unfold withTimeout, fal_storage_upload. destruct (_ <=? _); now split.
      - unfold bind, existsSync, readFileSync, lift, throw.
        destruct (w_exists w (trace s0) image); cbn [negb]; [|now split].
        destruct (w_readFile w image); [|now split].
        unfold withTimeout, fal_storage_upload. destruct (_ <=? _); now split. }
    destruct (processOne w image s0) as [[u|e] s1]; cbn [snd] in *; [|exact K1].
    destruct (IH (S i) (acc ++ [u]) s1) as [-> ->]. exact K1. }
  unfold processReferenceImages. destruct inputs as [|x l].
  - exists []. cbn. rewrite app_nil_r. repeat split; lia.
  - destruct (processLoop_effect (x :: l) 0%nat [] s) as (blobs & Ht & Hu & Hl & Hc).
    destruct (K (x :: l) 0%nat [] s) as [Kc Kf].
    exists blobs. repeat split; assumption.
Qed.

Lemma processLoop_skips_urls (urls : list string) :
  Forall (fun u => getImageInputType u = url) urls ->
  forall todo i acc s,
    processLoop w i (urls ++ todo) acc s
    = processLoop w (i + length urls) todo (acc ++ urls) s.
Proof.
  induction 1 as [|u urls Hu F IH]; intros todo i acc s.
  - cbn [app length]. now rewrite Nat.add_0_r, app_nil_r.
  - cbn [app processLoop length]. unfold bind, try_catch, processOne.
    rewrite Hu. unfold ret. rewrite IH, <- app_assoc.
    now replace (S i + length urls)%nat with (i + S (length urls))%nat by lia.
Qed.

(** X5.  A local file that does not exist stops the processing where it
    stands: the error names the 1-based position of the input and its
    path, nothing is read or uploaded for it, and the inputs after it are
    not looked at. *)
Theorem missing_file_is_reported (urls : list string) (image : string)
    (rest : list string) (s : State) :
  Forall (fun u => getImageInputType u = url) urls ->
  getImageInputType image = local_file ->
  w_exists w (trace s) image = false ->
  processReferenceImages w (urls ++ image :: rest) s
  = (Throw ("Failed to process reference image "
            +:+ JS.num (Z.of_nat (length urls) + 1)
            +:+ ": Reference image file not found: " +:+ image), s).
Proof.
  intros Hu Hl He. unfold processReferenceImages.
  destruct (urls ++ image :: rest) as [|x l] eqn:E.
  { now destruct urls. }
  rewrite <- E, (processLoop_skips_urls urls Hu).
  cbn [processLoop]. unfold bind, try_catch, processOne.
  rewrite Hl. unfold bind, existsSync. rewrite He. reflexivity.
Qed.

(** When the loop stops on an input, that input is not a URL, the message
    carries its position, and nothing was uploaded for the inputs behind
    it. *)
Lemma processLoop_failure (todo : list string) :
  forall (i : nat) (acc : list string) (s s' : State) (msg : string),
    processLoop w i todo acc s = (Throw msg, s') ->
    exists (j : nat) (image e : string) (blobs : list Blob),
      todo !! j = Some image
      /\ needs_upload image = true
      /\ msg = "Failed to process reference image "
               +:+ JS.num (Z.of_nat (i + j) + 1) +:+ ": " +:+ e
      /\ trace s' = trace s ++ map EvUpload blobs
      /\ (length blobs <= length (List.filter needs_upload (take (S j) todo)))%nat.
Proof.
  induction todo as [|image todo IH]; intros i acc s s' msg H.
  - discriminate.
  - cbn [processLoop] in H. unfold bind, try_catch, throw in H.
    destruct (processOne_effect image s) as (b1 & Ht & _ & Hl & _ & Hurl).
    destruct (processOne w image s) as [[u|e] s1] eqn:E1; cbn [snd] in *.
    + destruct (IH _ _ _ _ _ H) as (j & im & e & b2 & Hj & Hn & -> & Ht2 & Hl2).
      exists (S j), im, e, (b1 ++ b2). repeat split.
      * exact Hj.
      * exact Hn.
      * now replace (S i + j)%nat with (i + S j)%nat by lia.
      * rewrite Ht2, Ht, map_app. now rewrite app_assoc.
      * rewrite length_app. cbn [take List.filter].
        destruct (needs_upload image); cbn [length]; lia.
    + injection H as <- <-.
      exists 0%nat, image, e, b1. repeat split.
      * destruct (needs_upload image) eqn:Hn; [reflexivity|].
        specialize (Hurl eq_refl). discriminate.
      * now rewrite Nat.add_0_r.
      * exact Ht.
      * cbn [take List.filter]. destruct (needs_upload image); cbn [length]; lia.
Qed.

(** X6.  When [processReferenceImages] fails, it fails on one input, which
    is not a URL; the message is "Failed to process reference image"
    with the 1-based position of that input and the cause; and whatever
    was uploaded was uploaded for that input or for inputs before it. *)
Theorem first_failure_is_reported (inputs : list string) (s s' : State)
    (msg : string) :
  processReferenceImages w inputs s = (Throw msg, s') ->
  exists (j : nat) (image e : string) (blobs : list Blob),
    inputs !! j = Some image
    /\ needs_upload image = true
    /\ msg = "Failed to process reference image "
             +:+ JS.num (Z.of_nat j + 1) +:+ ": " +:+ e
    /\ trace s' = trace s ++ map EvUpload blobs
    /\ (length blobs <= length (List.filter needs_upload (take (S j) inputs)))%nat.
Proof.
  unfold processReferenceImages. destruct inputs as [|x l]; [discriminate|].
  intros H. exact (processLoop_failure _ _ _ _ _ _ H).
Qed.

End ReferenceFailures.

Lemma reference_images_cost_bound_example :
  now (processReferenceImages barren_world
         ["data:image/png;base64,AAAA"; "https://x/y.jpg"] (initial 0)).2 = 30000.
Proof. reflexivity. Qed.

Lemma missing_file_witness :
  processReferenceImages barren_world ["https://x/y.jpg"; "/tmp/cat.png"; "b.png"]
                         (initial 0)
  = (Throw ("Failed to process reference image " +:+ JS.num (Z.of_nat 1 + 1)
            +:+ ": Reference image file not found: " +:+ "/tmp/cat.png"),
     initial 0).
Proof.
  apply (missing_file_is_reported barren_world ["https://x/y.jpg"] "/tmp/cat.png"
           ["b.png"] (initial 0)).
  - repeat constructor.
  - reflexivity.
  - reflexivity.
Defined.

Lemma first_failure_witness :
  exists (j : nat) (image e : string) (blobs : list Blob),
    ["https://x/y.jpg"; "data:image/png;base64,AAAA"] !! j = Some image
    /\ needs_upload image = true
    /\ "Failed to process reference image 2: TIMEOUT: Operation timed out after 30000ms"
       = "Failed to process reference image "
         +:+ JS.num (Z.of_nat j + 1) +:+ ": " +:+ e
    /\ trace (processReferenceImages barren_world
                ["https://x/y.jpg"; "data:image/png;base64,AAAA"] (initial 0)).2
       = trace (initial 0) ++ map EvUpload blobs
    /\ (length blobs
        <= length (List.filter needs_upload
                     (take (S j) ["https://x/y.jpg"; "data:image/png;base64,AAAA"])))%nat.
Proof.
  apply (first_failure_is_reported barren_world
           ["https://x/y.jpg"; "data:image/png;base64,AAAA"] (initial 0)).
  vm_compute. reflexivity.
Defined.

(** ** The retry loop in general *)



Section Attempts.

Variable w : World.
Variables (modelId : string) (input : Payload).

Lemma retry_loop_calls (o : RetryOptions) (iters : nat) :
  forall (attempt_no delay : Z) (lastError : string) (s : State),
    let s' := (retry_loop (attempt w modelId input) o iters attempt_no delay
                          lastError s).2 in
    (calls s <= calls s' <= calls s + iters)%nat
    /\ (iters <> 0%nat -> (calls s < calls s')%nat)
    /\ uploads s' = uploads s /\ fetches s' = fetches s.
Proof.
  induction iters as [|iters IH]; intros a d le s; cbv zeta.
  - cbn. repeat split; lia.
  - rewrite retry_loop_step.
    destruct (attempt_state w modelId input s) as (Hc & _ & _).
    assert (Hk : uploads (attempt w modelId input s).2 = uploads s
                 /\ fetches (attempt w modelId input s).2 = fetches s).
    { rewrite attempt_eq. cbv zeta. destruct (_ <=? _); now split. }
    destruct (attempt w modelId input s) as [[v|e] s1]; cbn [snd] in *.
    + repeat split; try lia; apply Hk.
    + destruct ((a =? opts.maxRetries o)
                || negb (isRetryable e (opts.retryableErrors o))); cbn [snd].
      * repeat split; try lia; apply Hk.
      * specialize (IH (a + 1)
                       (Z.min (d * opts.backoffMultiplier o) (opts.maxDelayMs o))
                       e (rested d s1)).
        cbv zeta in IH. cbn [calls uploads fetches rested advance emit] in IH.
        destruct IH as (I1 & _ & I3 & I4).
        repeat split; first [lia | rewrite I3; apply Hk | rewrite I4; apply Hk].
Qed.

(** X8.  Whatever the options, the upstream call is attempted at most
    [maxRetries + 1] times and, when the budget is not negative, at
    least once; with no options at all that is at most four attempts.
    The invoker uploads and downloads nothing. *)
Theorem attempts_within_budget (options : RetryOptions) (s : State) :
  let s' := (withRetry (attempt w modelId input) options s).2 in
  (calls s' - calls s <= Z.to_nat (opts.maxRetries options + 1))%nat
  /\ (0 <= opts.maxRetries options -> (1 <= calls s' - calls s)%nat)
  /\ (maxRetries options = None -> (calls s' - calls s <= 4)%nat)
  /\ uploads s' = uploads s /\ fetches s' = fetches s.
Proof.
  cbv zeta. unfold withRetry.
  destruct (retry_loop_calls options (Z.to_nat (opts.maxRetries options + 1)) 0
              (opts.initialDelayMs options) "undefined" s) as (H1 & H2 & H3 & H4).
  split; [lia|]. split; [|split; [|split; assumption]].
  - intros H. assert (Hn : Z.to_nat (opts.maxRetries options + 1) <> 0%nat) by lia.
    specialize (H2 Hn). lia.
  - intros E. unfold opts.maxRetries in *. rewrite E in *.
    change (Z.to_nat (default DEFAULT_RETRY_OPTIONS.maxRetries None + 1))
      with 4%nat in *. lia.
Qed.

(** X9.  When the three attempts of the invoker fail, the first two with
    retryable messages, the third failure is what the invoker throws,
    unchanged and whether retryable or not, after the two backoff sleeps
    and exactly three calls. *)
Theorem retries_exhausted (s : State) (e1 e2 e3 : string) (d1 d2 d3 : Z) :
  w_subscribe w (calls s) modelId input = Build_Timed d1 (Throw e1) ->
  w_subscribe w (S (calls s)) modelId input = Build_Timed d2 (Throw e2) ->
  w_subscribe w (S (S (calls s))) modelId input = Build_Timed d3 (Throw e3) ->
  isRetryable e1 generate_retryable = true ->
  isRetryable e2 generate_retryable = true ->
  d1 < DEFAULT_TIMEOUT_MS -> d2 < DEFAULT_TIMEOUT_MS -> d3 < DEFAULT_TIMEOUT_MS ->
  (invoke w modelId input s).1 = Throw e3
  /\ trace (invoke w modelId input s).2 = trace s ++ attempts_trace modelId input 3
  /\ calls (invoke w modelId input s).2 = S (S (S (calls s)))
  /\ now (invoke w modelId input s).2 = now s + d1 + 1000 + d2 + 2000 + d3.
Proof.
  intros A1 A2 A3 R1 R2 L1 L2 L3.
  rewrite invoke_unfold, attempt_eq, A1. cbn [dur settled].
  destruct (Z.leb_spec d1 DEFAULT_TIMEOUT_MS); [|lia].
  rewrite R1, attempt_eq. cbn [calls rested advance emit called].
  rewrite A2. cbn [dur settled].
  destruct (Z.leb_spec d2 DEFAULT_TIMEOUT_MS); [|lia].
  rewrite R2, attempt_eq. cbn [calls rested advance emit called].
  rewrite A3. cbn [dur settled].
  destruct (Z.leb_spec d3 DEFAULT_TIMEOUT_MS); [|lia].
  cbn [fst snd trace calls now called rested advance emit].
  repeat split; first [lia | rewrite <- !app_assoc; reflexivity].
Qed.

End Attempts.

Lemma retries_exhausted_witness :
  (invoke barren_world "fal-ai/nano-banana" sample_payload (initial 0)).1
  = Throw "HTTP 503"
  /\ trace (invoke barren_world "fal-ai/nano-banana" sample_payload (initial 0)).2
     = trace (initial 0) ++ attempts_trace "fal-ai/nano-banana" sample_payload 3
  /\ calls (invoke barren_world "fal-ai/nano-banana" sample_payload (initial 0)).2
     = S (S (S (calls (initial 0))))
  /\ now (invoke barren_world "fal-ai/nano-banana" sample_payload (initial 0)).2
     = now (initial 0) + 100 + 1000 + 100 + 2000 + 100.
Proof.
  apply (retries_exhausted barren_world "fal-ai/nano-banana" sample_payload
           (initial 0) "HTTP 503" "HTTP 503" "HTTP 503" 100 100 100);
    reflexivity.
Defined.


(** ** The materializer in any world *)

Section Saving.

Variable w : World.

Lemma downloadAndSave_writes (imageUrl outputPath : string) (s : State) :
  fetches (downloadAndSave w imageUrl outputPath s).2 = S (fetches s)
  /\ exists evs,
       trace (downloadAndSave w imageUrl outputPath s).2 = trace s ++ evs
       /\ match (downloadAndSave w imageUrl outputPath s).1 with
          | Ok _ => exists b, body_at w (fetches s) imageUrl = Some b
                              /\ writes evs = [(outputPath, b)]
          | Throw _ => writes evs = []
          end.
Proof.
  unfold downloadAndSave, body_at, bind, fetch. cbn [trace fetches].
  destruct (settled (w_fetch w (fetches s) imageUrl)) as [response|e]; cbn [snd fetches].
  2:{ split; [reflexivity|]. now exists [EvFetch imageUrl]. }
  destruct (ok response); cbn [negb].
  2:{ split; [reflexivity|]. now exists [EvFetch imageUrl]. }
  unfold lift. destruct (arrayBuffer response) as [buffer|e].
  2:{ split; [reflexivity|]. now exists [EvFetch imageUrl]. }
  unfold existsSync. cbn [trace].
  destruct (negb (String.eqb (w_dirname w outputPath) "") && negb _).
  - unfold mkdirSync. destruct (w_mkdir w (w_dirname w outputPath)).
    + split; [reflexivity|]. now exists [EvFetch imageUrl].
    + unfold writeFileSync. destruct (w_writeFile w outputPath).
      * split; [reflexivity|].
        exists [EvFetch imageUrl; EvMkdir (w_dirname w outputPath)].
        split; [|reflexivity]. cbn [snd trace emit]. now rewrite <- app_assoc.
      * split; [reflexivity|].
        exists [EvFetch imageUrl; EvMkdir (w_dirname w outputPath);
                EvWrite outputPath buffer].
        split; [|now exists buffer]. cbn [snd trace emit]. now rewrite <- !app_assoc.
  - unfold ret, writeFileSync. destruct (w_writeFile w outputPath).
    + split; [reflexivity|]. now exists [EvFetch imageUrl].
    + split; [reflexivity|]. exists [EvFetch imageUrl; EvWrite outputPath buffer].
      split; [|now exists buffer]. cbn [snd trace emit]. now rewrite <- !app_assoc.
Qed.

Lemma saveMore_writes (outputPath : string) (more : list FalImage) :
  forall (i : nat) (s : State),
    let run := saveMore w outputPath i more s in
    let expected := zip (map (numberedPath outputPath) (seq i (length more)))
                        (fetched_upto w (fetches s) more) in
    exists evs n,
      trace run.2 = trace s ++ evs
      /\ writes evs = take n expected
      /\ (forall u, run.1 = Ok u ->
            writes evs = expected /\ length expected = length more).
Proof.
  induction more as [|img more IH]; intros i s; cbv zeta.
  - exists [], 0%nat. cbn. rewrite app_nil_r. repeat split.
  - cbn [saveMore length seq map fetched_upto]. unfold bind.
    destruct (downloadAndSave_writes (img_url img) (numberedPath outputPath i) s)
      as (Hf & e1 & Ht & Hw).
    destruct (downloadAndSave w (img_url img) (numberedPath outputPath i) s)
      as [[[]|e] s1]; cbn [fst snd] in *.
    + destruct Hw as (b & Hb & Hw). rewrite Hb.
      destruct (IH (S i) s1) as (e2 & n & Ht2 & Hw2 & Hok). cbv zeta in *.
      rewrite Hf in *.
      exists (e1 ++ e2), (S n). repeat split.
      * now rewrite Ht2, Ht, app_assoc.
      * rewrite writes_app, Hw, Hw2. reflexivity.
      * rewrite writes_app, Hw. destruct (Hok _ H) as [-> _]. reflexivity.
      * destruct (Hok _ H) as [_ Hl]. cbn [zip_with length]. f_equal. exact Hl.
    + exists e1, 0%nat. repeat split; [exact Ht|exact Hw|discriminate|discriminate].
Qed.

(** X10.  In any world the files are written in the order of the response
    and nothing else is written: what is on disk after [generate] has
    handled a response is a leading part of the pairs (path of image j,
    bytes downloaded for image j), the paths being [outputPath] and then
    the numbered paths.  When it returns, the first image is on disk, and
    all of them when more than one image was asked for; when one image
    was asked for, at most the first is written; an empty or absent list
    of images fails before any download. *)
Theorem images_saved_in_order (response : FalGenerateResponse)
    (outputPath : string) (numImages : Z) (s : State) :
  let imgs := default [] (images response) in
  let run := saveImages w response outputPath numImages s in
  let expected := zip (image_paths outputPath (length imgs))
                      (fetched_upto w (fetches s) imgs) in
  exists evs n,
    trace run.2 = trace s ++ evs
    /\ writes evs = take n expected
    /\ (numImages <= 1 -> (n <= 1)%nat)
    /\ (forall u, run.1 = Ok u ->
          (1 <= length (writes evs))%nat
          /\ (1 < numImages ->
              writes evs = expected /\ length expected = length imgs))
    /\ (imgs = [] -> run = (Throw "No image data found in response", s)).
Proof.
  cbv zeta. unfold saveImages.
  destruct (images response) as [[|first more]|]; cbn [default id].
  - exists [], 0%nat. cbn. rewrite app_nil_r. repeat split; try lia; discriminate.
  - cbn [image_paths length fetched_upto]. unfold bind.
    destruct (downloadAndSave_writes (img_url first) outputPath s)
      as (Hf & e1 & Ht & Hw).
    destruct (downloadAndSave w (img_url first) outputPath s)
      as [[[]|e] s1]; cbn [fst snd] in *.
    + destruct Hw as (b & Hb & Hw). rewrite Hb.
      destruct (Z.gtb_spec numImages 1) as [Hn|Hn]; cbn [andb].
      * destruct more as [|second more].
        { exists e1, 1%nat. cbn. repeat split; try lia; try discriminate;
            first [exact Ht | exact Hw | now rewrite Hw]. }
        assert (G : (Z.of_nat (S (length (second :: more))) >? 1) = true)
          by (apply Z.gtb_lt; cbn [length]; lia).
        rewrite G.
        destruct (saveMore_writes outputPath (second :: more) 1 s1)
          as (e2 & n & Ht2 & Hw2 & Hok). cbv zeta in *. rewrite Hf in *.
        exists (e1 ++ e2), (S n). repeat split; try lia; try discriminate.
        -- now rewrite Ht2, Ht, app_assoc.
        -- rewrite writes_app, Hw, Hw2. reflexivity.
        -- rewrite writes_app, Hw. cbn [app length]. lia.
        -- rewrite writes_app, Hw. destruct (Hok _ H) as [-> _]. reflexivity.
        -- destruct (Hok _ H) as [_ Hl]. cbn [zip_with length] in *.
           f_equal. exact Hl.
      * exists e1, 1%nat. repeat split; try lia; try discriminate;
          first [exact Ht | now rewrite Hw].
    + exists e1, 0%nat. repeat split; try lia; try discriminate;
        first [exact Ht | exact Hw].
  - exists [], 0%nat. cbn. rewrite app_nil_r. repeat split; try lia; discriminate.
Qed.

End Saving.

(** ** Numbered paths do not collide *)

Lemma string_length_append (a b : string) :
  String.length (a +:+ b) = (String.length a + String.length b)%nat.
Proof.
  induction a as [|c a IH]; [reflexivity|].
  rewrite append_cons. cbn [String.length]. now rewrite IH.
Qed.

Lemma append_cancel_l (a x y : string) : a +:+ x = a +:+ y -> x = y.
Proof.
  induction a as [|c a IH]; [now rewrite !append_empty|].
  rewrite !append_cons. intros [= H]. now apply IH.
Qed.

Lemma append_cancel_r (t : string) :
  forall a b : string, a +:+ t = b +:+ t -> a = b.
Proof.
  induction a as [|c a IH]; intros [|d b] H.
  - reflexivity.
  - apply (f_equal String.length) in H.
    rewrite append_empty, append_cons in H. cbn [String.length] in H.
    rewrite string_length_append in H. lia.
  - apply (f_equal String.length) in H.
    rewrite append_empty, append_cons in H. cbn [String.length] in H.
    rewrite string_length_append in H. lia.
  - rewrite !append_cons in H. injection H as -> H. f_equal. now apply IH.
Qed.

(** X11.  On an output path that ends in an extension, the numbered paths
    of different indices are different, and none of them is the output
    path: the images of a response never overwrite one another. *)
Theorem numbered_paths_are_distinct (outputPath : string) (n : nat) :
  ext_match outputPath = true ->
  (forall i j, numberedPath outputPath i = numberedPath outputPath j -> i = j)
  /\ (forall i, numberedPath outputPath i <> outputPath)
  /\ NoDup (image_paths outputPath n).
Proof.
  intros Hx. apply ext_match_spec in Hx as (stem & ext & -> & Hne & Hnd).
  assert (Hnum : forall i, numberedPath (stem +:+ "." +:+ ext) i
                           = stem +:+ ("_" +:+ JS.num (Z.of_nat i + 1)) +:+ "." +:+ ext)
    by (intros i; unfold numberedPath; now apply replace_ext_match).
  assert (Hinj : forall i j, numberedPath (stem +:+ "." +:+ ext) i
                             = numberedPath (stem +:+ "." +:+ ext) j -> i = j).
  { intros i j. rewrite !Hnum. intros H.
    apply append_cancel_l in H.
    change (("_" +:+ JS.num (Z.of_nat i + 1)) +:+ "." +:+ ext)
      with ("_" +:+ (JS.num (Z.of_nat i + 1) +:+ "." +:+ ext)) in H.
    change (("_" +:+ JS.num (Z.of_nat j + 1)) +:+ "." +:+ ext)
      with ("_" +:+ (JS.num (Z.of_nat j + 1) +:+ "." +:+ ext)) in H.
    apply append_cancel_l, append_cancel_r in H.
    unfold JS.num in H. apply pretty_Z_inj in H. lia. }
  assert (Hself : forall i, numberedPath (stem +:+ "." +:+ ext) i
                            <> stem +:+ "." +:+ ext).
  { intros i. rewrite Hnum. intros H. apply append_cancel_l in H. discriminate H. }
  split; [exact Hinj|]. split; [exact Hself|].
  destruct n as [|m]; [constructor|].
  cbn [image_paths]. constructor.
  - rewrite list_elem_of_In, in_map_iff. intros (i & Hi & _). now apply Hself in Hi.
  - apply NoDup_fmap_2; [intros i j; apply Hinj | apply NoDup_seq].
Qed.

Lemma numbered_paths_witness :
  (forall i j, numberedPath "/tmp/x.png" i = numberedPath "/tmp/x.png" j -> i = j)
  /\ (forall i, numberedPath "/tmp/x.png" i <> "/tmp/x.png")
  /\ NoDup (image_paths "/tmp/x.png" 3).
Proof.
  apply (numbered_paths_are_distinct "/tmp/x.png" 3). reflexivity.
Defined.

(** ** The phases of [generate] *)

Section Phases.

Variable w : World.

Ltac events_of_invoke :=
  repeat (apply List.Forall_cons; [first [now left | right; now eexists]|]);
  apply List.Forall_nil.

Lemma invoke_events (modelId : string) (input : Payload) (s : State) :
  exists evs,
    trace (invoke w modelId input s).2 = trace s ++ evs
    /\ Forall (fun e => e = EvSubscribe modelId input \/ exists ms, e = EvSleep ms) evs.
Proof.
  assert (A : forall s0, trace (attempt w modelId input s0).2
                         = trace s0 ++ [EvSubscribe modelId input])
    by (intros s0; apply (attempt_state w modelId input s0)).
  rewrite invoke_unfold.
  pose proof (A s) as A1.
  destruct (attempt w modelId input s) as [[v|e1] s1]; cbn [snd] in *.
  { exists [EvSubscribe modelId input]. split; [exact A1|]. events_of_invoke. }
  destruct (isRetryable e1 generate_retryable); cbn [snd].
  2:{ exists [EvSubscribe modelId input]. split; [exact A1|]. events_of_invoke. }
  pose proof (A (rested 1000 s1)) as A2.
  destruct (attempt w modelId input (rested 1000 s1)) as [[v|e2] s2]; cbn [snd] in *.
  { exists [EvSubscribe modelId input; EvSleep 1000; EvSubscribe modelId input].
    split.
    - rewrite A2. cbn [trace rested advance emit]. rewrite A1, <- !app_assoc.
      reflexivity.
    - events_of_invoke. }
  destruct (isRetryable e2 generate_retryable); cbn [snd].
  2:{ exists [EvSubscribe modelId input; EvSleep 1000; EvSubscribe modelId input].
      split.
      - rewrite A2. cbn [trace rested advance emit]. rewrite A1, <- !app_assoc.
        reflexivity.
      - events_of_invoke. }
  exists [EvSubscribe modelId input; EvSleep 1000; EvSubscribe modelId input;
          EvSleep 2000; EvSubscribe modelId input].
  split.
  - rewrite (A (rested 2000 s2)). cbn [trace rested advance emit].
    rewrite A2. cbn [trace rested advance emit]. rewrite A1, <- !app_assoc.
    reflexivity.
  - events_of_invoke.
Qed.

Lemma processReferenceImages_length (inputs urls : list string) (s s' : State) :
  processReferenceImages w inputs s = (Ok urls, s') -> length urls = length inputs.
Proof.
  unfold processReferenceImages. destruct inputs as [|x l].
  - now intros [= <- _].
  - intros H. destruct (processLoop_ok w _ _ _ _ _ _ H) as (new & blobs & -> & Hc & _).
    exact (corresponds_length w _ _ _ Hc).
Qed.

(** A run of [generate] past validation: uploads, then upstream calls with
    one endpoint and one payload separated by sleeps, then the saving of
    the response, then one usage record that tells the outcome. *)
Lemma generate_phases (options : ImageGenerateOptions) (s : State)
    (Q Qok : list Event -> Prop) :
  Q [] ->
  (forall response s2,
     exists evs,
       trace (saveImages w response (outputPath options)
                         (default 1 (numImages options)) s2).2 = trace s2 ++ evs
       /\ Q evs
       /\ ((saveImages w response (outputPath options)
                       (default 1 (numImages options)) s2).1 = Ok tt -> Qok evs)) ->
  validate_options options = Ok tt ->
  let refs := default [] (referenceImages options) in
  let mdl := default NanoBanana (model options) in
  let run := generate w options s in
  exists ups urls ups_calls saves u,
    trace run.2 = trace s ++ ups ++ ups_calls ++ saves ++ [EvUsage u]
    /\ Forall (only [KUpload]) ups
    /\ length urls = length refs
    /\ Forall (fun e => e = EvSubscribe (getModelId mdl (Z.of_nat (length refs) >? 0))
                                       (request_input options urls)
                        \/ exists ms, e = EvSleep ms) ups_calls
    /\ Q saves
    /\ u = usage_of options (now s) (now run.2)
                    match run.1 with
                    | Ok _ => None
                    | Throw msg => Some msg
                    end
    /\ match run.1 with
       | Ok r => r = {| imagePath := outputPath options; r_model := mdl;
                        usage := now run.2 - now s |}
                 /\ Qok saves
       | Throw msg => exists e, msg = classified e
       end.
Proof.
  intros Q0 Qsave Hv. cbv zeta.
  pose proof (generate_unfold w options s) as G. rewrite Hv in G.
  unfold generate_try, bind in G.
  set (refs := default [] (referenceImages options)) in *.
  set (has := Z.of_nat (length refs) >? 0) in *.
  assert (S1 : exists ups,
            trace ((if has then processReferenceImages w refs else ret []) s).2
            = trace s ++ ups /\ Forall (only [KUpload]) ups).
  { destruct has; [apply emits_processReferenceImages|].
    exists []. cbn. now rewrite app_nil_r. }
  destruct S1 as (ups & Hups & Fups).
  assert (L1 : forall urls s1,
            (if has then processReferenceImages w refs else ret []) s = (Ok urls, s1) ->
            length urls = length refs).
  { intros urls s1. unfold has. rewrite has_references. destruct refs as [|x l] eqn:E.
    - cbn [negb]. now intros [= <- _].
    - cbn [negb]. apply processReferenceImages_length. }
  destruct ((if has then processReferenceImages w refs else ret []) s)
    as [[urls|e] s1] eqn:E1; cbn [snd] in Hups.
  2:{ rewrite G. exists ups, refs, [], []. eexists.
      cbn [fst snd trace emit now app].
      split; [now rewrite Hups, <- app_assoc|].
      repeat split; try assumption; try constructor. now eexists. }
  specialize (L1 _ _ eq_refl).
  destruct (invoke_events (getModelId (default NanoBanana (model options)) has)
              (request_input options urls) s1) as (cs & Hcs & Fcs).
  destruct (invoke w (getModelId (default NanoBanana (model options)) has)
                   (request_input options urls) s1)
    as [[response|e] s2] eqn:E2; cbn [snd] in Hcs.
  2:{ rewrite G. exists ups, urls, cs, []. eexists.
      cbn [fst snd trace emit now app].
      split; [rewrite Hcs, Hups, <- !app_assoc; reflexivity|].
      repeat split; try assumption. now eexists. }
  destruct (Qsave response s2) as (sv & Hsv & Qsv & Qsv_ok).
  destruct (saveImages w response (outputPath options)
                       (default 1 (numImages options)) s2)
    as [[[]|e] s3] eqn:E3; cbn [fst snd] in Hsv, Qsv_ok;
    rewrite G; exists ups, urls, cs, sv; eexists;
    cbn [fst snd trace emit now app];
    (split; [rewrite Hsv, Hcs, Hups, <- !app_assoc; reflexivity|]);
    repeat split; try assumption; first [now apply Qsv_ok | now eexists].
Qed.

End Phases.

(** ** What [generate] sends, returns and reports *)

Section Reports.

Variable w : World.

Lemma catchErrorType_range (errorMessage : string) :
  In (catchErrorType errorMessage) generate_error_types.
Proof.
  unfold catchErrorType, generate_error_types.
  repeat match goal with
         | |- context [if ?c then _ else _] => destruct c
         end; cbn; tauto.
Qed.

Lemma only_not_subscribe (kinds : list Kind) (evs : list Event)
    (modelId : string) (input : Payload) :
  ~ In KSubscribe kinds -> Forall (only kinds) evs ->
  ~ In (EvSubscribe modelId input) evs.
Proof.
  intros Hk F Hin. rewrite List.Forall_forall in F. apply Hk, (F _ Hin).
Qed.

Lemma writes_none (kinds : list Kind) (evs : list Event) :
  ~ In KWrite kinds -> Forall (only kinds) evs -> writes evs = [].
Proof.
  intros Hk F. induction F as [|e evs He F IH]; [reflexivity|].
  destruct e; try exact IH. now destruct Hk.
Qed.

Lemma writes_of_calls (P : Event -> Prop) (evs : list Event) :
  (forall e, P e -> forall p d, e <> EvWrite p d) ->
  Forall P evs -> writes evs = [].
Proof.
  intros HP F. induction F as [|e evs He F IH]; [reflexivity|].
  destruct e; try exact IH. now destruct (HP _ He path data).
Qed.

(** X12.  Every upstream call that a run of [generate] makes, retries
    included, goes to one endpoint with one payload.  The endpoint is an
    edit endpoint exactly when the request has reference images, and
    exactly then the payload carries [image_urls], one URL for each
    reference image; the fast model is never sent a resolution or the
    web-search flag, and the flag is never sent as false. *)
Theorem upstream_calls_are_consistent (options : ImageGenerateOptions) (s : State) :
  let refs := default [] (referenceImages options) in
  let mdl := default NanoBanana (model options) in
  exists evs urls,
    trace (generate w options s).2 = trace s ++ evs
    /\ length urls = length refs
    /\ forall modelId input,
         In (EvSubscribe modelId input) evs ->
         modelId = getModelId mdl (Z.of_nat (length refs) >? 0)
         /\ input = request_input options urls
         /\ (is_edit_endpoint modelId <-> refs <> [])
         /\ p_image_urls input = match refs with [] => None | _ => Some urls end
         /\ (mdl = NanoBanana ->
             p_resolution input = None /\ p_enable_web_search input = None)
         /\ p_enable_web_search input <> Some false
         /\ p_prompt input = prompt options
         /\ p_num_images input = default 1 (numImages options).
Proof.
  cbv zeta. destruct (validate_options options) as [[]|msg] eqn:Hv.
  2:{ exists [], (default [] (referenceImages options)).
      rewrite generate_unfold, Hv. cbn [snd]. rewrite app_nil_r.
      split; [reflexivity|]. split; [reflexivity|]. intros ? ? []. }
  destruct (generate_phases w options s
              (Forall (only [KFetch; KMkdir; KWrite])) (fun _ => True))
    as (ups & urls & cs & sv & u & Ht & Fu & Hl & Fc & Fs & _); [constructor| |exact Hv|].
  { intros response s2. destruct (emits_saveImages w response (outputPath options)
                                    (default 1 (numImages options)) s2) as (evs & E & F).
    exists evs. repeat split; assumption. }
  cbv zeta in *.
  exists (ups ++ cs ++ sv ++ [EvUsage u]), urls.
  split; [exact Ht|]. split; [exact Hl|].
  intros modelId input Hin.
  assert (Hc : In (EvSubscribe modelId input) cs).
  { apply in_app_or in Hin as [Hin|Hin].
    { exfalso. eapply only_not_subscribe; [|exact Fu|exact Hin].
      cbn. intuition discriminate. }
    apply in_app_or in Hin as [Hin|Hin]; [exact Hin|].
    apply in_app_or in Hin as [Hin|Hin].
    { exfalso. eapply only_not_subscribe; [|exact Fs|exact Hin].
      cbn. intuition discriminate. }
    destruct Hin as [Hin|[]]. discriminate Hin. }
  rewrite List.Forall_forall in Fc. destruct (Fc _ Hc) as [E|[ms E]]; [|discriminate E].
  injection E as -> ->.
  revert Hl. generalize (default [] (referenceImages options)) as refs.
  intros refs Hl.
  split; [reflexivity|]. split; [reflexivity|].
  split.
  { rewrite has_references. unfold is_edit_endpoint.
    destruct refs, (default NanoBanana (model options)); cbn; split;
      first [ intros [H|H]; discriminate H
            | intros H; now destruct H
            | intros _; discriminate
            | intros _; first [now left | now right] ]. }
  split.
  { unfold request_input. cbn [p_image_urls]. rewrite Hl.
    destruct refs; [reflexivity|]. destruct urls; [discriminate Hl|reflexivity]. }
  split.
  { intros E. unfold request_input. cbn [p_resolution p_enable_web_search].
    rewrite E. now split. }
  split.
  { unfold request_input. cbn [p_enable_web_search].
    repeat match goal with
           | |- context [if ?c then _ else _] => destruct c
           | |- context [match ?c with _ => _ end] => destruct c
           end; discriminate. }
  split; reflexivity.
Qed.

End Reports.

(** ** The outcomes of [generate] *)

Section Outcomes.

Variable w : World.

(** What [generate] writes while it handles a response: nothing but file
    writes of the saved images, the first of them at [outputPath]. *)
Lemma saveImages_report (response : FalGenerateResponse) (outputPath : string)
    (numImages : Z) (s : State) :
  exists evs,
    trace (saveImages w response outputPath numImages s).2 = trace s ++ evs
    /\ (numImages <= 1 -> (length (writes evs) <= 1)%nat)
    /\ ((saveImages w response outputPath numImages s).1 = Ok tt ->
        exists b rest, writes evs = (outputPath, b) :: rest).
Proof.
  unfold saveImages.
  destruct (images response) as [[|first more]|].
  - exists []. cbn. rewrite app_nil_r. split; [reflexivity|]. split; [lia|discriminate].
  - unfold bind.
    destruct (downloadAndSave_writes w (img_url first) outputPath s)
      as (Hf & e1 & Ht & Hw).
    destruct (downloadAndSave w (img_url first) outputPath s)
      as [[[]|e] s1]; cbn [fst snd] in *.
    + destruct Hw as (b & Hb & Hw).
      destruct (Z.gtb_spec numImages 1) as [Hn|Hn]; cbn [andb].
      * destruct (Z.of_nat (length (first :: more)) >? 1).
        -- destruct (saveMore_writes w outputPath more 1 s1)
             as (e2 & n & Ht2 & Hw2 & Hok). cbv zeta in *.
           exists (e1 ++ e2). split; [now rewrite Ht2, Ht, app_assoc|].
           split; [lia|]. intros _. rewrite writes_app, Hw. now eexists _, _.
        -- exists e1. cbn [ret fst snd]. split; [exact Ht|]. split; [lia|].
           intros _. rewrite Hw. now eexists _, _.
      * exists e1. cbn [ret fst snd]. split; [exact Ht|].
        split; [intros _; rewrite Hw; cbn; lia|].
        intros _. rewrite Hw. now eexists _, _.
    + exists e1. split; [exact Ht|]. split; [rewrite Hw; cbn; lia|discriminate].
  - exists []. cbn. rewrite app_nil_r. split; [reflexivity|]. split; [lia|discriminate].
Qed.

(** X13.  A request that [generate] answers has passed validation; the
    result names the requested path and the model used, and its duration,
    measured from the start of the call, is the one in the usage record,
    which reports a success without an error text.  Before that record the
    primary file was written at [outputPath], before any other file, and
    when one image was asked for it is the only file written. *)
Theorem generate_success_report (options : ImageGenerateOptions)
    (s s' : State) (r : GenerateResult) :
  generate w options s = (Ok r, s') ->
  validate_options options = Ok tt
  /\ imagePath r = outputPath options
  /\ r_model r = default NanoBanana (model options)
  /\ usage r = now s' - now s
  /\ exists evs u b rest,
       trace s' = trace s ++ evs ++ [EvUsage u]
       /\ success u = true /\ error u = None
       /\ durationMs u = usage r /\ u_model u = r_model r
       /\ writes evs = (outputPath options, b) :: rest
       /\ (default 1 (numImages options) <= 1 -> rest = []).
Proof.
  intros H.
  destruct (validate_options options) as [[]|msg] eqn:Hv.
  2:{ rewrite generate_unfold, Hv in H. discriminate H. }
  destruct (generate_phases w options s
              (fun evs => default 1 (numImages options) <= 1 ->
                          (length (writes evs) <= 1)%nat)
              (fun evs => exists b rest, writes evs = (outputPath options, b) :: rest))
    as (ups & urls & cs & sv & u & Ht & Fu & Hl & Fc & Qs & Hu & Hr);
    [cbn; lia| |exact Hv|].
  { intros response s2.
    destruct (saveImages_report response (outputPath options)
                (default 1 (numImages options)) s2) as (evs & E & Q1 & Q2).
    now exists evs. }
  cbv zeta in *. rewrite H in *. cbn [fst snd] in *.
  destruct Hr as (-> & b & rest & Hw). cbn [imagePath r_model usage].
  split; [reflexivity|]. repeat split.
  exists (ups ++ cs ++ sv), u, b, rest.
  split; [rewrite Ht, <- !app_assoc; reflexivity|].
  rewrite Hu. cbn [success error durationMs u_model usage_of].
  repeat split.
  - rewrite !writes_app.
    rewrite (writes_none [KUpload] ups), (writes_of_calls _ cs) with (2 := Fc).
    + exact Hw.
    + intros e [->|[ms ->]] p d; discriminate.
    + cbn. intuition discriminate.
    + exact Fu.
  - intros Hn. specialize (Qs Hn). rewrite Hw in Qs. cbn in Qs.
    destruct rest; [reflexivity|cbn in Qs; lia].
Qed.

(** X14.  A failure of [generate] is either a validation message, thrown
    as it is and with nothing done, or the message of the failing step
    behind one of six labels (never SAFETY_BLOCK, API_ERROR or
    VALIDATION_ERROR); in the second case the usage record, the last
    effect, carries the thrown text itself and the time since the start
    of the call. *)
Theorem generate_failure_is_labelled (options : ImageGenerateOptions)
    (s s' : State) (msg : string) :
  generate w options s = (Throw msg, s') ->
  (validate_options options = Throw msg /\ s' = s)
  \/ (validate_options options = Ok tt
      /\ exists e evs u,
           msg = errorTypeName (catchErrorType e) +:+ ": " +:+ e
           /\ In (catchErrorType e) generate_error_types
           /\ trace s' = trace s ++ evs ++ [EvUsage u]
           /\ error u = Some msg /\ success u = false
           /\ durationMs u = now s' - now s).
Proof.
  intros H.
  destruct (validate_options options) as [[]|m] eqn:Hv.
  2:{ rewrite generate_unfold, Hv in H. injection H as -> ->. now left. }
  right. split; [reflexivity|].
  destruct (generate_phases w options s (fun _ => True) (fun _ => True))
    as (ups & urls & cs & sv & u & Ht & _ & _ & _ & _ & Hu & Hr);
    [exact I| |exact Hv|].
  { intros response s2.
    destruct (saveImages_report response (outputPath options)
                (default 1 (numImages options)) s2) as (evs & E & _).
    now exists evs. }
  cbv zeta in *. rewrite H in *. cbn [fst snd] in *.
  destruct Hr as (e & ->).
  exists e, (ups ++ cs ++ sv), u.
  split; [reflexivity|]. split; [apply catchErrorType_range|].
  split; [rewrite Ht, <- !app_assoc; reflexivity|].
  rewrite Hu. now cbn.
Qed.

(** X15.  A request without reference images whose first upstream call
    is still pending after 180 seconds, that is, takes more than 180000
    ms, fails then, after this one call and without a retry; the text
    thrown and recorded carries the TIMEOUT label twice, that of the timer
    and that of [generate]. *)
Theorem upstream_timeout_report (options : ImageGenerateOptions) (s : State) :
  let modelId := getModelId (default NanoBanana (model options)) false in
  let input := request_input options [] in
  let text := "TIMEOUT: TIMEOUT: Operation timed out after 180000ms" in
  validate_options options = Ok tt ->
  default [] (referenceImages options) = [] ->
  DEFAULT_TIMEOUT_MS < dur (w_subscribe w (calls s) modelId input) ->
  generate w options s
  = (Throw text,
     emit (EvUsage (usage_of options (now s) (now s + 180000) (Some text)))
          (called modelId input 180000 s)).
Proof.
  cbv zeta. intros Hv Hrefs Hd.
  rewrite generate_unfold, Hv. unfold generate_try, bind.
  rewrite Hrefs. change (Z.of_nat (length (@nil string)) >? 0) with false.
  unfold ret. cbv iota. unfold invoke, withRetry.
  change (Z.to_nat (opts.maxRetries generate_retry_options + 1)) with 3%nat.
  rewrite retry_loop_timeout; [|reflexivity|exact Hd].
  reflexivity.
Qed.

(** X16.  When a reference image cannot be processed, [generate] stops
    there: it throws the labelled message of that failure and writes the
    usage record, and up to then it has done nothing but uploads, so that
    no upstream call was made and no file written. *)
Theorem reference_failure_stops_the_request (options : ImageGenerateOptions)
    (s s1 : State) (e : string) :
  let refs := default [] (referenceImages options) in
  validate_options options = Ok tt ->
  processReferenceImages w refs s = (Throw e, s1) ->
  generate w options s
  = (Throw (classified e),
     emit (EvUsage (usage_of options (now s) (now s1) (Some (classified e)))) s1)
  /\ exists blobs,
       trace s1 = trace s ++ map EvUpload blobs
       /\ (length blobs <= length refs)%nat
       /\ calls s1 = calls s /\ fetches s1 = fetches s.
Proof.
  cbv zeta. intros Hv Hp. split.
  - rewrite generate_unfold, Hv. unfold generate_try, bind.
    rewrite has_references.
    destruct (default [] (referenceImages options)) as [|x l] eqn:E.
    + discriminate Hp.
    + cbn [negb]. rewrite Hp. reflexivity.
  - destruct (default [] (referenceImages options)) as [|x l] eqn:E;
      [discriminate Hp|].
    unfold processReferenceImages in Hp.
    destruct (processLoop_effect w (x :: l) 0 [] s) as (blobs & Ht & _ & Hl & _).
    assert (K : forall todo i acc s0,
              calls (processLoop w i todo acc s0).2 = calls s0
              /\ fetches (processLoop w i todo acc s0).2 = fetches s0).
    { induction todo as [|image todo IH]; intros i acc s0; [now split|].
      cbn [processLoop]. unfold bind, try_catch, throw.
      assert (K1 : calls (processOne w image s0).2 = calls s0
                   /\ fetches (processOne w image s0).2 = fetches s0).
      { unfold processOne. destruct (getImageInputType image); [now split| |].
        - unfold bind, lift. destruct (parseDataUrl w image); [|now split].
          unfold withTimeout, fal_storage_upload. destruct (_ <=? _); now split.
        - unfold bind, existsSync, readFileSync, lift, throw.
          destruct (w_exists w (trace s0) image); cbn [negb]; [|now split].
          destruct (w_readFile w image); [|now split].
          unfold withTimeout, fal_storage_upload. destruct (_ <=? _); now split. }
      destruct (processOne w image s0) as [[u|e1] s2]; cbn [fst snd] in *.
      - destruct (IH (S i) (acc ++ [u]) s2) as [-> ->]. exact K1.
      - exact K1. }
    destruct (K (x :: l) 0%nat [] s) as [Kc Kf].
    rewrite Hp in Ht, Kc, Kf. cbn [snd] in *.
    exists blobs. split; [exact Ht|]. split; [|now split].
    etransitivity; [exact Hl|]. apply List.filter_length_le.
Qed.

End Outcomes.

(** ** The handler of the tool *)

Section Handler.

Variable w : World.

Lemma blank_empty (v : string) : String.eqb v "" || blank v = blank v.
Proof. now destruct v. Qed.

Lemma missing_or_blank_false (v : option string) :
  missing_or_blank v = false <-> exists x, v = Some x /\ blank x = false.
Proof.
  destruct v as [x|]; cbn [missing_or_blank].
  - rewrite blank_empty. split; [now exists x|now intros (? & [= <-] & ?)].
  - split; [discriminate|now intros (? & ? & _)].
Qed.

Lemma isSupportedImageModel_spec (model : string) :
  isSupportedImageModel model = true
  <-> model = "nano-banana" \/ model = "nano-banana-pro".
Proof.
  unfold isSupportedImageModel, SUPPORTED_IMAGE_MODELS. cbn [existsb].
  rewrite orb_false_r, orb_true_iff, !String.eqb_eq. reflexivity.
Qed.

Lemma handler_guards_pass (args : ToolArguments) :
  check_arguments args = None
  <-> (exists p, a_prompt args = Some p /\ blank p = false)
      /\ (exists o, a_output_path args = Some o /\ blank o = false)
      /\ (forall m, a_model args = Some m ->
            m = "" \/ m = "nano-banana" \/ m = "nano-banana-pro").
Proof.
  unfold check_arguments. rewrite <- !missing_or_blank_false.
  destruct (missing_or_blank (a_prompt args)); [split; [discriminate|now intros [? _]]|].
  destruct (missing_or_blank (a_output_path args));
    [split; [discriminate|now intros (_ & ? & _)]|].
  destruct (a_model args) as [m|].
  2:{ split; [|reflexivity]. intros _. repeat split. discriminate. }
  destruct (String.eqb_spec m "") as [->|ne]; cbn [negb andb].
  { split; [|reflexivity]. intros _. repeat split. intros ? [= <-]. now left. }
  destruct (isSupportedImageModel m) eqn:E; cbn [negb].
  - apply isSupportedImageModel_spec in E.
    split; [|reflexivity]. intros _. repeat split. intros ? [= <-]. now right.
  - split; [discriminate|]. intros (_ & _ & H).
    destruct (H m eq_refl) as [->|H']; [now destruct ne|].
    apply isSupportedImageModel_spec in H'. congruence.
Qed.

Lemma handler_guards_error (args : ToolArguments) (s : State) (message : string) :
  check_arguments args = Some message ->
  handle_generate_image w args s
  = (Ok {| text := message; isError := true; meta := None |}, s)
  /\ exists rest, message = "Error: " +:+ rest.
Proof.
  intros H. unfold handle_generate_image. rewrite H.
  split; [reflexivity|]. unfold check_arguments in H.
  destruct (missing_or_blank (a_prompt args)).
  { injection H as <-. now exists "Prompt cannot be empty". }
  destruct (missing_or_blank (a_output_path args)).
  { injection H as <-. now exists "output_path is required". }
  destruct (a_model args) as [m|]; [|discriminate H].
  destruct (_ && _); [|discriminate H]. injection H as <-.
  unfold unknown_model. eexists. reflexivity.
Qed.

(** X17.  The guards of the handler.  A call passes them exactly when it
    has a prompt and an output path that are not blank and its model, if
    one is given and not empty, is one of the names of
    [SUPPORTED_IMAGE_MODELS]; the type guard accepts these two names and
    no other.  The guards are tried in the order prompt, path, model; the
    first that fails answers with its text as an error and nothing else
    happens.  A model name that passes stands for a model with that very
    name, which is the one passed on to [generate]. *)
Theorem handler_guards (args : ToolArguments) (s : State) :
  (check_arguments args = None
   <-> (exists p, a_prompt args = Some p /\ blank p = false)
       /\ (exists o, a_output_path args = Some o /\ blank o = false)
       /\ (forall m, a_model args = Some m ->
             m = "" \/ m = "nano-banana" \/ m = "nano-banana-pro"))
  /\ (forall m, isSupportedImageModel m = true <-> In m (map modelName [NanoBanana; NanoBananaPro]))
  /\ (missing_or_blank (a_prompt args) = true ->
      check_arguments args = Some "Error: Prompt cannot be empty")
  /\ (missing_or_blank (a_prompt args) = false ->
      missing_or_blank (a_output_path args) = true ->
      check_arguments args = Some "Error: output_path is required")
  /\ (forall message, check_arguments args = Some message ->
        handle_generate_image w args s
        = (Ok {| text := message; isError := true; meta := None |}, s)
        /\ exists rest, message = "Error: " +:+ rest)
  /\ (forall m, check_arguments args = None -> a_model args = Some m -> m <> "" ->
        exists mdl, model (tool_options args) = Some mdl /\ modelName mdl = m).
Proof.
  pose proof (handler_guards_pass args) as G.
  split; [exact G|].
  split.
  { intros m. rewrite isSupportedImageModel_spec. cbn. intuition congruence. }
  split.
  { intros H. unfold check_arguments. now rewrite H. }
  split.
  { intros H1 H2. unfold check_arguments. now rewrite H1, H2. }
  split.
  { intros message H. now apply handler_guards_error. }
  intros m Hc Hm ne. apply G in Hc as (_ & _ & Hc).
  unfold tool_options. cbn [model]. rewrite Hm.
  destruct (Hc m Hm) as [->|[->| ->]]; [now destruct ne| |].
  - now exists NanoBanana.
  - now exists NanoBananaPro.
Qed.

(** A call whose arguments have their declared types is answered. *)
Lemma typed_call_reports (args : ToolArguments) (s : State) :
  a_model args <> Some "" ->
  exists res s' evs,
    handle_generate_image w args s = (Ok res, s')
    /\ trace s' = trace s ++ evs
    /\ (length (writes evs) <= 1)%nat
    /\ (isError res = true ->
        meta res = None /\ exists rest, text res = "Error: " +:+ rest)
    /\ (isError res = false ->
        exists path b r,
          a_output_path args = Some path /\ blank path = false
          /\ text res = "Image saved to: " +:+ path
          /\ meta res = Some r
          /\ imagePath r = path
          /\ Some (r_model r) = match a_model args with
                                | Some m => as_model m
                                | None => Some NanoBanana
                                end
          /\ usage r = now s' - now s
          /\ writes evs = [(path, b)]).
Proof.
  intros Hm.
  destruct (check_arguments args) as [message|] eqn:Hc.
  { destruct (handler_guards_error args s message Hc) as [E (rest & ->)].
    eexists _, s, []. rewrite E, app_nil_r.
    split; [reflexivity|]. split; [reflexivity|]. split; [cbn; lia|].
    split; [|discriminate]. intros _. split; [reflexivity|]. now exists rest. }
  pose proof Hc as Hc'. apply handler_guards_pass in Hc' as (_ & (path & Hp & Hb) & Hmod).
  unfold handle_generate_image. rewrite Hc. unfold try_catch, bind, ret.
  destruct (validate_options (tool_options args)) as [[]|msg] eqn:Hv.
  2:{ rewrite generate_unfold, Hv.
      eexists _, s, []. rewrite app_nil_r.
      split; [reflexivity|]. split; [reflexivity|]. split; [cbn; lia|].
      cbn [isError meta text].
      split; [|discriminate]. intros _. split; [reflexivity|]. now eexists. }
  destruct (generate_phases w (tool_options args) s
              (fun evs => (length (writes evs) <= 1)%nat)
              (fun evs => exists b rest, writes evs = (outputPath (tool_options args), b) :: rest))
    as (ups & urls & cs & sv & u & Ht & Fu & Hl & Fc & Qs & Hu & Hr);
    [cbn; lia| |exact Hv|].
  { intros response s2.
    destruct (saveImages_report w response (outputPath (tool_options args))
                (default 1 (numImages (tool_options args))) s2) as (evs & E & Q1 & Q2).
    exists evs. split; [exact E|]. split; [|exact Q2]. apply Q1. cbn. lia. }
  cbv zeta in *.
  assert (Hw : writes (ups ++ cs ++ sv ++ [EvUsage u]) = writes sv).
  { rewrite !writes_app.
    rewrite (writes_none [KUpload] ups), (writes_of_calls _ cs) with (2 := Fc).
    - cbn. now rewrite app_nil_r.
    - intros e [->|[ms ->]] p d; discriminate.
    - cbn. intuition discriminate.
    - exact Fu. }
  destruct (generate w (tool_options args) s) as [[r|e] s1]; cbn [fst snd] in *.
  - destruct Hr as (-> & b & rest & Hr).
    eexists _, s1, _. split; [reflexivity|]. split; [exact Ht|].
    rewrite Hw. split; [exact Qs|]. cbn [isError meta text imagePath r_model usage].
    split; [discriminate|]. intros _.
    assert (Ho : outputPath (tool_options args) = path)
      by (unfold tool_options; cbn [outputPath]; now rewrite Hp).
    rewrite Ho in *.
    exists path, b. eexists. split; [exact Hp|]. split; [exact Hb|].
    split; [reflexivity|]. split; [reflexivity|]. cbn [imagePath r_model usage].
    split; [reflexivity|].
    split.
    { unfold tool_options. cbn [model]. destruct (a_model args) as [m|]; [|reflexivity].
      destruct (Hmod m eq_refl) as [->|[->| ->]]; [now destruct Hm|reflexivity|reflexivity]. }
    split; [reflexivity|].
    rewrite Hr in Qs |- *. destruct rest; [reflexivity|cbn in Qs; lia].
  - eexists _, s1, _. split; [reflexivity|]. split; [exact Ht|].
    rewrite Hw. split; [exact Qs|]. cbn [isError meta text].
    split; [|discriminate]. intros _. split; [reflexivity|]. now eexists.
Qed.

Lemma absent_or_blank_cases (name : string) (v : JsValue) :
  (v = JsOther true /\ exists e, absent_or_blank name v = Throw e)
  \/ (absent_or_blank name v = Ok true
      /\ v <> JsOther true /\ forall x, v = JsString x -> blank x = true)
  \/ (exists x, v = JsString x /\ blank x = false
                /\ absent_or_blank name v = Ok false).
Proof.
  unfold absent_or_blank. destruct v as [|x|[|]]; cbn [truthy_value negb].
  - right; left. repeat split; discriminate.
  - destruct (String.eqb_spec x "") as [->|ne]; cbn [negb].
    + right; left. repeat split; [discriminate|]. now intros ? [= <-].
    + destruct (blank x) eqn:B.
      * right; left. repeat split; [discriminate|]. now intros ? [= <-].
      * right; right. now exists x.
  - left. split; [reflexivity|]. now eexists.
  - right; left. repeat split; discriminate.
Qed.

(** Past its two guards the handler is the one of the typed arguments. *)
Lemma handle_call_typed (args : RawArguments) (p o : string) (s : State) :
  raw_prompt args = JsString p -> blank p = false ->
  raw_output_path args = JsString o -> blank o = false ->
  handle_call w (Some args) s = handle_generate_image w (typed args) s.
Proof.
  intros Hp Bp Ho Bo.
  assert (Np : String.eqb p "" = false) by (destruct p; [discriminate Bp|reflexivity]).
  assert (No : String.eqb o "" = false) by (destruct o; [discriminate Bo|reflexivity]).
  unfold handle_call, handle_generate_image, check_arguments, typed, absent_or_blank.
  cbn [a_prompt a_output_path a_model]. rewrite Hp, Ho.
  cbn [truthy_value as_string missing_or_blank]. rewrite Np, No, Bp, Bo.
  cbn [negb orb]. unfold bind, lift.
  destruct (raw_model args) as [m|]; [|reflexivity].
  destruct (negb (String.eqb m "") && negb (isSupportedImageModel m)); reflexivity.
Qed.

(** X18.  The handler reads its arguments unchecked, and it throws exactly
    in these cases, all of them before its [try] and before anything is
    done: the arguments are missing; the prompt is a truthy value that is
    not a string; or the prompt is a string that is not blank and the
    output path is a truthy value that is not a string.  Every other call
    is answered.  An answer is an error exactly when it has no metadata,
    and then its text starts with "Error: ".  Otherwise the text and the
    metadata name the output path that was given, the reported duration is
    the time the call took, and the file at that path is the only one
    written.  Whatever the answer, the tool writes at most one file. *)
Theorem handler_reports (arguments : option RawArguments) (s : State) :
  (forall args, arguments = Some args -> raw_model args <> Some "") ->
  let run := handle_call w arguments s in
  ((exists e, run.1 = Throw e)
   <-> arguments = None
       \/ exists args,
            arguments = Some args
            /\ (raw_prompt args = JsOther true
                \/ (exists p, raw_prompt args = JsString p /\ blank p = false)
                   /\ raw_output_path args = JsOther true))
  /\ (forall e, run.1 = Throw e -> run.2 = s)
  /\ (forall res, run.1 = Ok res ->
        exists args evs,
          arguments = Some args
          /\ trace run.2 = trace s ++ evs
          /\ (length (writes evs) <= 1)%nat
          /\ (isError res = true ->
              meta res = None /\ exists rest, text res = "Error: " +:+ rest)
          /\ (isError res = false ->
              exists path b r,
                raw_output_path args = JsString path /\ blank path = false
                /\ text res = "Image saved to: " +:+ path
                /\ meta res = Some r
                /\ imagePath r = path
                /\ Some (r_model r) = match raw_model args with
                                      | Some m => as_model m
                                      | None => Some NanoBanana
                                      end
                /\ usage r = now run.2 - now s
                /\ writes evs = [(path, b)])).
Proof.
  intros Hm. cbv zeta.
  destruct arguments as [args|].
  2:{ cbn. split; [|split].
      - split; [now left|]. intros _. now eexists.
      - reflexivity.
      - discriminate. }
  specialize (Hm args eq_refl).
  assert (Guard : forall message rest,
            message = "Error: " +:+ rest ->
            handle_call w (Some args) s
            = (Ok {| text := message; isError := true; meta := None |}, s) ->
            (handle_call w (Some args) s).2 = s
            /\ (forall res, (handle_call w (Some args) s).1 = Ok res ->
                  exists args0 evs,
                    Some args = Some args0
                    /\ trace (handle_call w (Some args) s).2 = trace s ++ evs
                    /\ (length (writes evs) <= 1)%nat
                    /\ (isError res = true ->
                        meta res = None /\ exists rest, text res = "Error: " +:+ rest)
                    /\ (isError res = false ->
                        exists path b r,
                          raw_output_path args0 = JsString path /\ blank path = false
                          /\ text res = "Image saved to: " +:+ path
                          /\ meta res = Some r
                          /\ imagePath r = path
                          /\ Some (r_model r) = match raw_model args0 with
                                                | Some m => as_model m
                                                | None => Some NanoBanana
                                                end
                          /\ usage r = now (handle_call w (Some args) s).2 - now s
                          /\ writes evs = [(path, b)]))).
  { intros message rest -> E. rewrite E. cbn [fst snd]. split; [reflexivity|].
    intros res [= <-]. exists args, []. rewrite app_nil_r.
    split; [reflexivity|]. split; [reflexivity|]. split; [cbn; lia|].
    cbn [isError meta text]. split; [|discriminate].
    intros _. split; [reflexivity|]. now exists rest. }
  destruct (absent_or_blank_cases "prompt" (raw_prompt args))
    as [(Hp & e & Ep)|[(Ep & Np & Bp)|(p & Hp & Bp & Ep)]].
  - (* the prompt has no [trim] *)
    assert (E : handle_call w (Some args) s = (Throw e, s)).
    { unfold handle_call, bind, lift. now rewrite Ep. }
    rewrite E. cbn [fst snd]. split; [|split].
    + split; [|now eexists]. intros _. right. exists args. split; [reflexivity|now left].
    + reflexivity.
    + discriminate.
  - (* no prompt *)
    assert (E : handle_call w (Some args) s
                = (Ok {| text := "Error: Prompt cannot be empty"; isError := true;
                         meta := None |}, s)).
    { unfold handle_call, bind, lift. now rewrite Ep. }
    destruct (Guard _ "Prompt cannot be empty" eq_refl E) as [G1 G2].
    split; [|split; [intros; exact G1|exact G2]].
    rewrite E. cbn [fst]. split; [intros [? H]; discriminate H|].
    intros [H|(args0 & [= <-] & [H|[(x & Hx & Bx) _]])];
      [discriminate H|contradiction|].
    rewrite (Bp x Hx) in Bx. discriminate Bx.
  - destruct (absent_or_blank_cases "outputPath" (raw_output_path args))
      as [(Ho & e & Eo)|[(Eo & No & Bo)|(o & Ho & Bo & Eo)]].
    + (* the output path has no [trim] *)
      assert (E : handle_call w (Some args) s = (Throw e, s)).
      { unfold handle_call, bind, lift. now rewrite Ep, Eo. }
      rewrite E. cbn [fst snd]. split; [|split].
      * split; [|now eexists]. intros _. right. exists args.
        split; [reflexivity|]. right. split; [now exists p|exact Ho].
      * reflexivity.
      * discriminate.
    + (* no output path *)
      assert (E : handle_call w (Some args) s
                  = (Ok {| text := "Error: output_path is required"; isError := true;
                           meta := None |}, s)).
      { unfold handle_call, bind, lift. now rewrite Ep, Eo. }
      destruct (Guard _ "output_path is required" eq_refl E) as [G1 G2].
      split; [|split; [intros; exact G1|exact G2]].
      rewrite E. cbn [fst]. split; [intros [? H]; discriminate H|].
      intros [H|(args0 & [= <-] & [H|[_ H]])];
        [discriminate H|rewrite Hp in H; discriminate H|contradiction].
    + (* both are strings that are not blank *)
      rewrite (handle_call_typed args p o s Hp Bp Ho Bo).
      destruct (typed_call_reports (typed args) s Hm)
        as (res & s' & evs & E & Ht & Hw & Herr & Hok).
      rewrite E. cbn [fst snd]. split; [|split].
      * split; [intros [? H]; discriminate H|].
        intros [H|(args0 & [= <-] & [H|[_ H]])];
          [discriminate H|rewrite Hp in H; discriminate H
          |rewrite Ho in H; discriminate H].
      * discriminate.
      * intros res0 [= <-]. exists args, evs.
        split; [reflexivity|]. split; [exact Ht|]. split; [exact Hw|].
        split; [exact Herr|]. intros Hno.
        destruct (Hok Hno) as (path & b & r & H1 & H2 & H3 & H4 & H5 & H6 & H7 & H8).
        exists path, b, r. cbn [typed a_output_path a_model] in H1, H6.
        rewrite Ho in H1 |- *. cbn [as_string] in H1. injection H1 as <-.
        repeat split; assumption.
Qed.

End Handler.

(** ** The outcomes on sample worlds *)

Lemma generate_success_witness :
  exists r s',
    generate serving_world (request [] None None "/tmp/x.png" 1) (initial 0) = (Ok r, s')
    /\ validate_options (request [] None None "/tmp/x.png" 1) = Ok tt
    /\ imagePath r = "/tmp/x.png"
    /\ r_model r = NanoBanana
    /\ usage r = now s' - now (initial 0)
    /\ exists evs u b rest,
         trace s' = trace (initial 0) ++ evs ++ [EvUsage u]
         /\ success u = true /\ error u = None
         /\ durationMs u = usage r /\ u_model u = r_model r
         /\ writes evs = ("/tmp/x.png", b) :: rest
         /\ (1 <= 1 -> rest = []).
Proof.
  eexists _, _. split; [vm_compute; reflexivity|].
  apply (generate_success_report serving_world
           (request [] None None "/tmp/x.png" 1) (initial 0)).
  vm_compute. reflexivity.
Defined.

Lemma generate_failure_witness :
  exists msg s',
    generate barren_world (request [] None None "/tmp/x.png" 1) (initial 0)
    = (Throw msg, s')
    /\ ((validate_options (request [] None None "/tmp/x.png" 1) = Throw msg
         /\ s' = initial 0)
        \/ (validate_options (request [] None None "/tmp/x.png" 1) = Ok tt
            /\ exists e evs u,
                 msg = errorTypeName (catchErrorType e) +:+ ": " +:+ e
                 /\ In (catchErrorType e) generate_error_types
                 /\ trace s' = trace (initial 0) ++ evs ++ [EvUsage u]
                 /\ error u = Some msg /\ success u = false
                 /\ durationMs u = now s' - now (initial 0))).
Proof.
  eexists _, _. split; [vm_compute; reflexivity|].
  apply (generate_failure_is_labelled barren_world
           (request [] None None "/tmp/x.png" 1) (initial 0)).
  vm_compute. reflexivity.
Defined.

Lemma upstream_timeout_witness :
  generate stalled_world (request [] None None "/tmp/x.png" 1) (initial 0)
  = (Throw "TIMEOUT: TIMEOUT: Operation timed out after 180000ms",
     emit (EvUsage (usage_of (request [] None None "/tmp/x.png" 1) 0 180000
                      (Some "TIMEOUT: TIMEOUT: Operation timed out after 180000ms")))
          (called "fal-ai/nano-banana"
                  (request_input (request [] None None "/tmp/x.png" 1) [])
                  180000 (initial 0))).
Proof.
  apply (upstream_timeout_report stalled_world
           (request [] None None "/tmp/x.png" 1) (initial 0));
    [reflexivity|reflexivity|vm_compute; reflexivity].
Defined.

Lemma reference_failure_witness :
  exists e s1,
    processReferenceImages barren_world ["data:image/png;base64,AAAA"] (initial 0)
    = (Throw e, s1)
    /\ generate barren_world
         (request ["data:image/png;base64,AAAA"] None None "/tmp/x.png" 1) (initial 0)
       = (Throw (classified e),
          emit (EvUsage (usage_of
                           (request ["data:image/png;base64,AAAA"] None None
                                    "/tmp/x.png" 1)
                           (now (initial 0)) (now s1) (Some (classified e)))) s1)
    /\ exists blobs,
         trace s1 = trace (initial 0) ++ map EvUpload blobs
         /\ (length blobs <= 1)%nat
         /\ calls s1 = calls (initial 0) /\ fetches s1 = fetches (initial 0).
Proof.
  eexists _, _. split; [vm_compute; reflexivity|].
  apply (reference_failure_stops_the_request barren_world
           (request ["data:image/png;base64,AAAA"] None None "/tmp/x.png" 1)
           (initial 0)).
  - reflexivity.
  - vm_compute. reflexivity.
Defined.

Lemma handler_reports_witness :
  exists args evs,
    Some red_cube_arguments = Some args
    /\ trace (handle_call serving_world (Some red_cube_arguments) (initial 0)).2
       = trace (initial 0) ++ evs
    /\ (length (writes evs) <= 1)%nat
    /\ (false = true ->
        Some {| imagePath := "/tmp/cube.png"; r_model := NanoBananaPro; usage := 2005 |}
        = None
        /\ exists rest, "Image saved to: /tmp/cube.png" = "Error: " +:+ rest)
    /\ (false = false ->
        exists path b r,
          raw_output_path args = JsString path /\ blank path = false
          /\ "Image saved to: /tmp/cube.png" = "Image saved to: " +:+ path
          /\ Some {| imagePath := "/tmp/cube.png"; r_model := NanoBananaPro;
                     usage := 2005 |} = Some r
          /\ imagePath r = path
          /\ Some (r_model r) = match raw_model args with
                                | Some m => as_model m
                                | None => Some NanoBanana
                                end
          /\ usage r
             = now (handle_call serving_world (Some red_cube_arguments) (initial 0)).2
               - now (initial 0)
          /\ writes evs = [(path, b)]).
Proof.
  refine (proj2 (proj2 (handler_reports serving_world (Some red_cube_arguments)
                          (initial 0) _))
            {| text := "Image saved to: /tmp/cube.png"; isError := false;
               meta := Some {| imagePath := "/tmp/cube.png"; r_model := NanoBananaPro;
                               usage := 2005 |} |} _).
  - intros args [= <-]. discriminate.
  - vm_compute. reflexivity.
Defined.

(** A call without arguments, and a call whose prompt is a number, end in
    a TypeError; a call whose prompt is null is answered. *)
Example unchecked_arguments :
  (exists e, handle_call serving_world None (initial 0) = (Throw e, initial 0))
  /\ (exists e, handle_call serving_world
                  (Some {| raw_prompt := JsOther true;
                           raw_output_path := JsString "/tmp/x.png";
                           raw_model := None; raw_reference_images := None;
                           raw_aspect_ratio := None |}) (initial 0)
                = (Throw e, initial 0))
  /\ handle_call serving_world
       (Some {| raw_prompt := JsOther false; raw_output_path := JsOther true;
                raw_model := None; raw_reference_images := None;
                raw_aspect_ratio := None |}) (initial 0)
     = (Ok {| text := "Error: Prompt cannot be empty"; isError := true; meta := None |},
        initial 0).
Proof. split; [|split]; [eexists; reflexivity|eexists; reflexivity|reflexivity]. Qed.

(** The call above is answered with the path it gave. *)
Example red_cube_answer :
  (handle_generate_image serving_world red_cube_call (initial 0)).1
  = Ok {| text := "Image saved to: /tmp/cube.png"; isError := false;
          meta := Some {| imagePath := "/tmp/cube.png"; r_model := NanoBananaPro;
                          usage := 2005 |} |}.
Proof. vm_compute. reflexivity. Qed.
